(** * aws-github-login: OAuth2/PKCE login, session store, OIDC discovery,
    AWS federation and role history

  A shallow embedding of the TypeScript services of the repository
  (pkceUtils, sessionManager, oidcDiscovery, oauth2Service, awsService,
  roleArnStorage) and of the handler of the console button, together with
  the properties stated about them.

  Conventions of the embedding:
  - a JavaScript string is a [string]; every [ascii] is one code unit in
    the range 0..255 (Latin-1), so [btoa] is total on it; the authority and
    the URL of a request, which the code passes to [btoa] and to [fetch]
    as they were configured, are [wstring]s: lists of UTF-16 code units,
    which may exceed 255;
  - a JavaScript number that the code uses as an integer (epoch
    milliseconds, seconds, counters) is a [Z];
  - [localStorage] is kept by the keys the services use; a value written
    through [JSON.stringify] is kept as the document itself and read back
    by [JSON.parse] as the same document, a text that [JSON.parse] rejects
    is kept as text; the operations of [localStorage] themselves do not
    fail;
  - the clock, [localStorage] and the log of network requests are threaded
    through an explicit state-and-exception monad; the servers are
    functions from requests to answers. *)

From Stdlib Require Import ZArith NArith List Bool Ascii String Lia Sorted Permutation.
From stdpp Require Import base option gmap strings pretty list fin_maps.

Local Open Scope Z_scope.

(* ===================================================================== *)
(** ** Platform primitives *)
(* ===================================================================== *)

Module JS.

(** *** Strings *)

(** Truthiness of a string: the empty string is the only falsy string. *)
Definition truthy (s : string) : bool :=
  match s with EmptyString => false | String _ _ => true end.

(** Truthiness of an optional string ([undefined]/[null] is falsy). *)
Definition truthy_opt (o : option string) : bool :=
  match o with Some s => truthy s | None => false end.

(** [a || d] on an optional string and a string. *)
Definition str_or (a : option string) (d : string) : string :=
  match a with
  | Some s => if truthy s then s else d
  | None => d
  end.

(** [a || b] on optional strings. *)
Definition or_else (a b : option string) : option string :=
  if truthy_opt a then a else b.

(** Truthiness of a number: [0] is falsy. *)
Definition num_truthy (n : Z) : bool := negb (n =? 0).

(** [n || d] on an optional number. *)
Definition num_or (n : option Z) (d : Z) : Z :=
  match n with
  | Some v => if num_truthy v then v else d
  | None => d
  end.

Fixpoint str_map (f : ascii -> ascii) (s : string) : string :=
  match s with
  | EmptyString => EmptyString
  | String c r => String (f c) (str_map f r)
  end.

Fixpoint str_filter (p : ascii -> bool) (s : string) : string :=
  match s with
  | EmptyString => EmptyString
  | String c r => if p c then String c (str_filter p r) else str_filter p r
  end.

Fixpoint str_all (p : ascii -> bool) (s : string) : bool :=
  match s with
  | EmptyString => true
  | String c r => p c && str_all p r
  end.

(** [s.slice(0, n)] for [n >= 0]. *)
Fixpoint str_take (n : nat) (s : string) : string :=
  match n, s with
  | O, _ => EmptyString
  | S _, EmptyString => EmptyString
  | S k, String c r => String c (str_take k r)
  end.

Fixpoint str_drop (n : nat) (s : string) : string :=
  match n, s with
  | O, _ => s
  | S _, EmptyString => EmptyString
  | S k, String _ r => str_drop k r
  end.

Fixpoint str_rev_onto (s acc : string) : string :=
  match s with
  | EmptyString => acc
  | String c r => str_rev_onto r (String c acc)
  end.

Definition str_rev (s : string) : string := str_rev_onto s EmptyString.

(** [s.replace(/c/g, d)] for single characters [c] and [d]. *)
Definition replace_char (c d : ascii) (s : string) : string :=
  str_map (fun x => if Ascii.eqb x c then d else x) s.

(** [s.replace(/c/g, '')]. *)
Definition remove_char (c : ascii) (s : string) : string :=
  str_filter (fun x => negb (Ascii.eqb x c)) s.

(** [s.split(c)[0]]: the part of [s] before the first [c]. *)
Fixpoint before_first (c : ascii) (s : string) : string :=
  match s with
  | EmptyString => EmptyString
  | String x r => if Ascii.eqb x c then EmptyString else String x (before_first c r)
  end.

(** Character classes of the regular expressions of the source. *)
Definition code (c : ascii) : N := N_of_ascii c.

Definition is_digit (c : ascii) : bool := ((48 <=? code c) && (code c <=? 57))%N.
Definition is_upper (c : ascii) : bool := ((65 <=? code c) && (code c <=? 90))%N.
Definition is_lower (c : ascii) : bool := ((97 <=? code c) && (code c <=? 122))%N.
Definition is_alnum (c : ascii) : bool := is_digit c || is_upper c || is_lower c.

(** [\w] is [[A-Za-z0-9_]]. *)
Definition is_word (c : ascii) : bool := is_alnum c || Ascii.eqb c "_".

(** White space and line terminators removed by [String.prototype.trim],
    restricted to the code units below 256: TAB, LF, VT, FF, CR, SP, NBSP. *)
Definition is_space (c : ascii) : bool :=
  ((9 <=? code c) && (code c <=? 13) || (code c =? 32) || (code c =? 160))%N.

Fixpoint trim_start (s : string) : string :=
  match s with
  | EmptyString => EmptyString
  | String c r => if is_space c then trim_start r else s
  end.

Definition trim (s : string) : string :=
  str_rev (trim_start (str_rev (trim_start s))).

(** Line terminators below 256, which [.] does not match. *)
Definition is_line_terminator (c : ascii) : bool :=
  ((code c =? 10) || (code c =? 13))%N.

(** *** Base64 ([btoa]) *)

(** The character of a 6-bit value in the base64 alphabet. *)
Definition b64char (n : N) : ascii :=
  (if n <? 26 then ascii_of_N (65 + n)
   else if n <? 52 then ascii_of_N (97 + (n - 26))
   else if n <? 62 then ascii_of_N (48 + (n - 52))
   else if n =? 62 then "+"%char
   else "/"%char)%N.

Definition sextet1 (a : N) : N := N.shiftr a 2.
Definition sextet2 (a b : N) : N := N.lor (N.shiftl (N.land a 3) 4) (N.shiftr b 4).
Definition sextet3 (b c : N) : N := N.lor (N.shiftl (N.land b 15) 2) (N.shiftr c 6).
Definition sextet4 (c : N) : N := N.land c 63.

(** [btoa(s)]: three code units become four characters; a last group of
    one or two code units is padded with ['=']. *)
Fixpoint btoa (s : string) : string :=
  match s with
  | EmptyString => EmptyString
  | String a EmptyString =>
      String (b64char (sextet1 (code a)))
        (String (b64char (sextet2 (code a) 0)) "==")
  | String a (String b EmptyString) =>
      String (b64char (sextet1 (code a)))
        (String (b64char (sextet2 (code a) (code b)))
           (String (b64char (sextet3 (code b) 0)) "="))
  | String a (String b (String c r)) =>
      String (b64char (sextet1 (code a)))
        (String (b64char (sextet2 (code a) (code b)))
           (String (b64char (sextet3 (code b) (code c)))
              (String (b64char (sextet4 (code c))) (btoa r))))
  end.

(** [String.fromCharCode.apply(null, bytes)]. *)
Fixpoint fromCharCode (bytes : list Z) : string :=
  match bytes with
  | [] => EmptyString
  | b :: r => String (ascii_of_N (Z.to_N b)) (fromCharCode r)
  end.

(** The base64url form used by the PKCE utilities:
    [.replace(/\+/g, '-').replace(/\//g, '_').replace(/=/g, '')]. *)
Definition base64url (s : string) : string :=
  remove_char "=" (replace_char "/" "_" (replace_char "+" "-" s)).

Definition is_base64url_char (c : ascii) : bool :=
  is_alnum c || Ascii.eqb c "-" || Ascii.eqb c "_".

(** The alphabet of [btoa] without the padding character. *)
Definition is_b64_char (c : ascii) : bool :=
  is_alnum c || Ascii.eqb c "+" || Ascii.eqb c "/".

Definition not_plus_slash_eq (c : ascii) : bool :=
  negb (Ascii.eqb c "+") && negb (Ascii.eqb c "/") && negb (Ascii.eqb c "=").

(** *** UTF-8 ([TextEncoder.encode]) on code units below 256 *)

Definition utf8_unit (c : ascii) : list Z :=
  let n := Z.of_N (code c) in
  if n <? 128 then [n]
  else [Z.lor 192 (Z.shiftr n 6); Z.lor 128 (Z.land n 63)].

Fixpoint utf8_encode (s : string) : list Z :=
  match s with
  | EmptyString => []
  | String c r => utf8_unit c ++ utf8_encode r
  end.

(** *** SHA-256 ([crypto.subtle.digest('SHA-256', data)]), FIPS 180-4 *)

Definition w32 (x : Z) : Z := x mod 2 ^ 32.
Definition add32 (x y : Z) : Z := w32 (x + y).
Definition rotr (n x : Z) : Z :=
  Z.lor (Z.shiftr x n) (w32 (Z.shiftl x (32 - n))).
Definition not32 (x : Z) : Z := Z.lxor x 0xffffffff.

Definition Ch (x y z : Z) : Z := Z.lxor (Z.land x y) (Z.land (not32 x) z).
Definition Maj (x y z : Z) : Z :=
  Z.lxor (Z.lxor (Z.land x y) (Z.land x z)) (Z.land y z).
Definition Sigma0 (x : Z) : Z := Z.lxor (Z.lxor (rotr 2 x) (rotr 13 x)) (rotr 22 x).
Definition Sigma1 (x : Z) : Z := Z.lxor (Z.lxor (rotr 6 x) (rotr 11 x)) (rotr 25 x).
Definition sigma0 (x : Z) : Z := Z.lxor (Z.lxor (rotr 7 x) (rotr 18 x)) (Z.shiftr x 3).
Definition sigma1 (x : Z) : Z := Z.lxor (Z.lxor (rotr 17 x) (rotr 19 x)) (Z.shiftr x 10).

(** The constants are derived as FIPS 180-4 defines them, from the first
    primes. *)
Definition is_prime_among (primes : list Z) (n : Z) : bool :=
  forallb (fun p => negb (n mod p =? 0)) primes.

Fixpoint primes_from (fuel count : nat) (candidate : Z) (found : list Z) : list Z :=
  match fuel, count with
  | O, _ | _, O => found
  | S fuel', S count' =>
      if is_prime_among found candidate
      then primes_from fuel' count' (candidate + 1) (found ++ [candidate])
      else primes_from fuel' count (candidate + 1) found
  end.

Definition first_primes (count : nat) : list Z := primes_from 400 count 2 [].

(** The integer cube root, bit by bit from bit [bits - 1] down. *)
Fixpoint cube_root_bits (bits : nat) (n root : Z) : Z :=
  match bits with
  | O => root
  | S k =>
      let c := root + 2 ^ Z.of_nat k in
      if c * c * c <=? n then cube_root_bits k n c else cube_root_bits k n root
  end.

Definition cube_root (n : Z) : Z := cube_root_bits 40 n 0.

(** The first 32 bits of the fractional parts of the cube roots of the first
    64 primes. *)
Definition K256 : list Z :=
  Eval vm_compute in map (fun p => w32 (cube_root (p * 2 ^ 96))) (first_primes 64).

(** The eight working variables / the intermediate hash value. *)
Record hash := Hash { ha : Z; hb : Z; hc : Z; hd : Z; he : Z; hf : Z; hg : Z; hh : Z }.

(** The first 32 bits of the fractional parts of the square roots of the
    first 8 primes. *)
Definition H0 : hash :=
  Eval vm_compute in
    match map (fun p => w32 (Z.sqrt (p * 2 ^ 64))) (first_primes 8) with
    | [a; b; c; d; e; f; g; h] => Hash a b c d e f g h
    | _ => Hash 0 0 0 0 0 0 0 0
    end.

(** Message padding: a 1 bit, zeros up to 56 mod 64, the bit length on
    64 bits, big endian. *)
Definition be_bytes (width : nat) (x : Z) : list Z :=
  map (fun i => Z.land (Z.shiftr x (8 * Z.of_nat i)) 255) (rev (seq 0 width)).

Definition pad (msg : list Z) : list Z :=
  let len := Z.of_nat (length msg) in
  msg ++ [128] ++ repeat 0 (Z.to_nat ((55 - len) mod 64)) ++ be_bytes 8 (8 * len).

Fixpoint be_words (bytes : list Z) : list Z :=
  match bytes with
  | a :: b :: c :: d :: r =>
      Z.lor (Z.shiftl a 24) (Z.lor (Z.shiftl b 16) (Z.lor (Z.shiftl c 8) d))
      :: be_words r
  | _ => []
  end.

(** The message schedule, kept newest first: [extend n w] adds [n] words to
    the sixteen words of the block. *)
Fixpoint extend (n : nat) (w : list Z) : list Z :=
  match n with
  | O => w
  | S k =>
      let wt :=
        add32 (add32 (sigma1 (nth 1 w 0)) (nth 6 w 0))
              (add32 (sigma0 (nth 14 w 0)) (nth 15 w 0)) in
      extend k (wt :: w)
  end.

Definition schedule (block : list Z) : list Z :=
  rev (extend 48 (rev (be_words block))).

Definition round (h : hash) (kw : Z * Z) : hash :=
  let t1 := add32 (add32 (add32 (hh h) (Sigma1 (he h))) (Ch (he h) (hf h) (hg h)))
                  (add32 (fst kw) (snd kw)) in
  let t2 := add32 (Sigma0 (ha h)) (Maj (ha h) (hb h) (hc h)) in
  Hash (add32 t1 t2) (ha h) (hb h) (hc h) (add32 (hd h) t1) (he h) (hf h) (hg h).

Definition compress (h : hash) (block : list Z) : hash :=
  let r := fold_left round (combine K256 (schedule block)) h in
  Hash (add32 (ha h) (ha r)) (add32 (hb h) (hb r)) (add32 (hc h) (hc r))
       (add32 (hd h) (hd r)) (add32 (he h) (he r)) (add32 (hf h) (hf r))
       (add32 (hg h) (hg r)) (add32 (hh h) (hh r)).

Fixpoint hash_blocks (n : nat) (h : hash) (bytes : list Z) : hash :=
  match n with
  | O => h
  | S k => hash_blocks k (compress h (firstn 64 bytes)) (skipn 64 bytes)
  end.

Definition digest_bytes (h : hash) : list Z :=
  be_bytes 4 (ha h) ++ be_bytes 4 (hb h) ++ be_bytes 4 (hc h) ++ be_bytes 4 (hd h) ++
  be_bytes 4 (he h) ++ be_bytes 4 (hf h) ++ be_bytes 4 (hg h) ++ be_bytes 4 (hh h).

Definition sha256 (msg : list Z) : list Z :=
  let p := pad msg in
  digest_bytes (hash_blocks (length p / 64) H0 p).

(** *** [Date.prototype.toISOString] *)

Definition digit_char (n : Z) : ascii := ascii_of_N (48 + Z.to_N (n mod 10)).

(** [n] on [width] decimal digits, zero padded. *)
Fixpoint digits (width : nat) (n : Z) (acc : string) : string :=
  match width with
  | O => acc
  | S k => digits k (n / 10) (String (digit_char n) acc)
  end.

(** The proleptic Gregorian date of a day number counted from 1970-01-01. *)
Definition civil_from_days (z : Z) : Z * Z * Z :=
  let z := z + 719468 in
  let era := z / 146097 in
  let doe := z - era * 146097 in
  let yoe := (doe - doe / 1460 + doe / 36524 - doe / 146096) / 365 in
  let doy := doe - (365 * yoe + yoe / 4 - yoe / 100) in
  let mp := (5 * doy + 2) / 153 in
  let d := doy - (153 * mp + 2) / 5 + 1 in
  let m := if mp <? 10 then mp + 3 else mp - 9 in
  let y := yoe + era * 400 + (if m <=? 2 then 1 else 0) in
  (y, m, d).

(** Years 0 to 9999 are written on four digits, the others with a sign and
    six digits. *)
Definition iso_year (y : Z) : string :=
  if (0 <=? y) && (y <=? 9999) then digits 4 y EmptyString
  else String (if y <? 0 then "-"%char else "+"%char) (digits 6 (Z.abs y) EmptyString).

(** [new Date(ms).toISOString()] *)
Definition toISOString (ms : Z) : string :=
  let day := ms / 86400000 in
  let t := ms mod 86400000 in
  let '(y, m, d) := civil_from_days day in
  iso_year y +:+ "-" +:+ digits 2 m EmptyString +:+ "-" +:+ digits 2 d EmptyString
  +:+ "T" +:+ digits 2 (t / 3600000) EmptyString
  +:+ ":" +:+ digits 2 (t / 60000 mod 60) EmptyString
  +:+ ":" +:+ digits 2 (t / 1000 mod 60) EmptyString
  +:+ "." +:+ digits 3 (t mod 1000) EmptyString +:+ "Z".

(** *** Strings with code units above 255 *)

(** A string as the list of its UTF-16 code units. *)
Definition wstring : Type := list N.

(** A Latin-1 string as a [wstring]. *)
Fixpoint of_latin1 (s : string) : wstring :=
  match s with
  | EmptyString => []
  | String c r => code c :: of_latin1 r
  end.

Coercion of_latin1 : string >-> wstring.

(** The Latin-1 string of a [wstring] whose code units are all below 256:
    the strings that [btoa] accepts. *)
Fixpoint to_latin1 (s : wstring) : option string :=
  match s with
  | [] => Some EmptyString
  | n :: r =>
      if (n <? 256)%N
      then match to_latin1 r with
           | Some t => Some (String (ascii_of_N n) t)
           | None => None
           end
      else None
  end.

(** Truthiness of a [wstring]. *)
Definition wtruthy (s : wstring) : bool :=
  match s with [] => false | _ :: _ => true end.

(** *** [JSON.stringify] of strings and the serializer of [URLSearchParams] *)

Definition dquote : ascii := ascii_of_N 34.
Definition backslash : ascii := ascii_of_N 92.

(** A hexadecimal digit, in lower case for [JSON.stringify] and in upper
    case for percent-encoding. *)
Definition hex_digit (upper : bool) (n : N) : ascii :=
  (if n <? 10 then ascii_of_N (48 + n)
   else ascii_of_N ((if upper then 55 else 87) + n))%N.

(** One code unit inside a JSON string (QuoteJSONString): the short
    escapes, [\u00xx] for the other control characters, the code unit
    itself otherwise. *)
Definition json_escape (c : ascii) : string :=
  let n := code c in
  (if n =? 8 then String backslash "b"
   else if n =? 9 then String backslash "t"
   else if n =? 10 then String backslash "n"
   else if n =? 12 then String backslash "f"
   else if n =? 13 then String backslash "r"
   else if n =? 34 then String backslash (String dquote EmptyString)
   else if n =? 92 then String backslash (String backslash EmptyString)
   else if n <? 32
   then String backslash
          ("u00" +:+ String (hex_digit false (n / 16))
                       (String (hex_digit false (n mod 16)) EmptyString))
   else String c EmptyString)%N.

Fixpoint json_escape_all (s : string) : string :=
  match s with
  | EmptyString => EmptyString
  | String c r => json_escape c +:+ json_escape_all r
  end.

(** [JSON.stringify(s)] for a string [s]. *)
Definition JSON_quote (s : string) : string :=
  String dquote (json_escape_all s +:+ String dquote EmptyString).

Fixpoint json_members (members : list (string * string)) : string :=
  match members with
  | [] => EmptyString
  | [(k, v)] => JSON_quote k +:+ ":" +:+ JSON_quote v
  | (k, v) :: r => JSON_quote k +:+ ":" +:+ JSON_quote v +:+ "," +:+ json_members r
  end.

(** [JSON.stringify(o)] for an object [o] whose properties are strings. *)
Definition JSON_stringify_strings (members : list (string * string)) : string :=
  "{" +:+ json_members members +:+ "}".

(** The application/x-www-form-urlencoded byte serializer: a space becomes
    ['+'], the bytes of [A-Za-z0-9*-._] stay, every other byte is
    percent-encoded. *)
Definition form_safe (c : ascii) : bool :=
  is_alnum c || Ascii.eqb c "*" || Ascii.eqb c "-" || Ascii.eqb c "."
  || Ascii.eqb c "_".

Definition urlencode_byte (b : Z) : string :=
  let c := ascii_of_N (Z.to_N b) in
  if b =? 32 then "+"
  else if form_safe c then String c EmptyString
  else String "%" (String (hex_digit true (Z.to_N b / 16))
                     (String (hex_digit true (Z.to_N b mod 16)) EmptyString)).

Fixpoint urlencode_bytes (bytes : list Z) : string :=
  match bytes with
  | [] => EmptyString
  | b :: r => urlencode_byte b +:+ urlencode_bytes r
  end.

Definition urlencode (s : string) : string := urlencode_bytes (utf8_encode s).

(** [new URLSearchParams(o).toString()], and the query that
    [searchParams.append] builds. *)
Fixpoint URLSearchParams_toString (params : list (string * string)) : string :=
  match params with
  | [] => EmptyString
  | [(k, v)] => urlencode k +:+ "=" +:+ urlencode v
  | (k, v) :: r =>
      urlencode k +:+ "=" +:+ urlencode v +:+ "&" +:+ URLSearchParams_toString r
  end.

(** [s.startsWith(p)] *)
Definition startsWith (s p : string) : bool := String.prefix p s.

(** [s.split(c)]: the parts of [s] between the occurrences of [c]. *)
Fixpoint split_on (c : ascii) (s : string) : list string :=
  match s with
  | EmptyString => [EmptyString]
  | String x r =>
      if Ascii.eqb x c then EmptyString :: split_on c r
      else match split_on c r with
           | part :: parts => String x part :: parts
           | [] => [String x EmptyString]
           end
  end.

End JS.
(* ===================================================================== *)
(** ** pkceUtils: [generateCodeVerifier], [generateCodeChallenge], [generateState] *)
(* ===================================================================== *)

Module PkceUtils.
Import JS.

(** [generateCodeVerifier()]; the 32 random bytes of
    [crypto.getRandomValues] are an input. *)
Definition generateCodeVerifier (randomBytes : list Z) : string :=
  base64url (btoa (fromCharCode randomBytes)).

(** [generateCodeChallenge(verifier)]. *)
Definition generateCodeChallenge (verifier : string) : string :=
  let data := utf8_encode verifier in
  let hashBuffer := sha256 data in
  base64url (btoa (fromCharCode hashBuffer)).

(** [generateState()]; the 16 random bytes are an input. *)
Definition generateState (randomBytes : list Z) : string :=
  base64url (btoa (fromCharCode randomBytes)).

(** [/^[A-Za-z0-9\-._~]+$/] *)
Definition unreserved_char (c : ascii) : bool :=
  is_alnum c || Ascii.eqb c "-" || Ascii.eqb c "." || Ascii.eqb c "_"
  || Ascii.eqb c "~".

(** [isValidCodeVerifier(verifier)] *)
Definition isValidCodeVerifier (verifier : string) : bool :=
  if negb (truthy verifier) then false
  else if (String.length verifier <? 43)%nat || (128 <? String.length verifier)%nat
  then false
  else truthy verifier && str_all unreserved_char verifier.

End PkceUtils.

(* ===================================================================== *)
(** ** types/auth.ts and types/aws.ts *)
(* ===================================================================== *)

Module Types.

(** An optional field ([f?: string]) is an [option]; a field declared
    [string] that the code tests for truthiness is a [string] whose empty
    value also stands for a field missing from the document. *)

Record OAuthConfig := {
  cfg_authority : JS.wstring;
  cfg_clientId : string;
  cfg_scope : string;
  cfg_redirectUri : option string
}.

Record TokenResponse := {
  access_token : string;
  refresh_token : option string;
  id_token : option string;
  token_type : option string;
  expires_in : option Z;
  tr_scope : option string;          (* [scope] *)
  tr_error : option string;          (* [error] *)
  error_description : option string
}.

(** [sub] is read through [sub?.replace] and so may be missing; the claims
    [authenticated] and [error] are the additional claims that
    [fetchUserInfo] sets. *)
Record UserInfo := {
  sub : option string;
  email : option string;
  email_verified : option bool;
  name : option string;
  given_name : option string;
  family_name : option string;
  preferred_username : option string;
  picture : option string;
  locale : option string;
  zoneinfo : option string;
  login : option string;
  avatar_url : option string;
  authenticated : option bool;
  ui_error : option string           (* [error] *)
}.

Record AuthSession := {
  accessToken : string;
  refreshToken : option string;
  idToken : option string;
  tokenType : string;
  scope : string;
  expiresAt : Z;
  createdAt : Z;
  user : UserInfo
}.

Record OIDCEndpoints := {
  authorizationEndpoint : string;
  tokenEndpoint : string;
  userinfoEndpoint : option string;
  ep_issuer : option string;         (* [issuer] *)
  endSessionEndpoint : option string;
  supportedScopes : list string;
  supportedResponseTypes : list string;
  supportedCodeChallengeMethods : list string
}.

Record OIDCConfiguration := {
  issuer : string;
  authorization_endpoint : string;
  token_endpoint : string;
  userinfo_endpoint : option string;
  end_session_endpoint : option string;
  scopes_supported : option (list string);
  response_types_supported : option (list string);
  code_challenge_methods_supported : option (list string)
}.

Record OIDCCacheEntry := {
  config : OIDCConfiguration;
  timestamp : Z
}.

(** types/aws.ts *)

Record AWSCredentials := {
  AccessKeyId : string;
  SecretAccessKey : string;
  SessionToken : string;
  Expiration : Z
}.

Record AssumedRoleUser := {
  AssumedRoleId : string;
  Arn : string
}.

Record RoleArnHistoryItem := {
  arn : string;
  role_name : string;                (* [name] *)
  accountId : string;
  lastUsed : Z;
  useCount : Z
}.

Record RoleArnHistory := {
  roles : list RoleArnHistoryItem;
  maxItems : Z
}.

Record AWSConfig := {
  region : string;
  defaultDurationSeconds : Z;
  consoleBaseUrl : string;
  stsEndpoint : string;
  federationEndpoint : string;
  federationEndpointProxy : option string
}.

Record AWSConsoleFederationResponse := {
  SigninToken : string
}.

(** The [githubUser] member of [AWSSessionInfo]. *)
Record GithubUser := {
  gh_login : option string;
  gh_email : option string;
  gh_name : option string;
  gh_sub : option string
}.

Record AWSSessionInfo := {
  info_roleArn : string;
  info_sessionName : string;
  info_credentials : AWSCredentials;
  info_createdAt : Z;
  info_githubUser : GithubUser
}.

(** [AWS_CONSTANTS] *)
Definition MIN_DURATION_SECONDS : Z := 900.
Definition MAX_DURATION_SECONDS : Z := 43200.
Definition DEFAULT_DURATION_SECONDS : Z := 3600.
Definition DEFAULT_REGION : string := "us-east-1".
Definition MAX_ROLE_HISTORY : Z := 10.
Definition SESSION_NAME_MAX_LENGTH : nat := 64.
Definition CONSOLE_BASE_URL : string := "https://console.aws.amazon.com".
Definition STS_ENDPOINT : string := "https://sts.amazonaws.com".
Definition FEDERATION_ENDPOINT : string := "https://signin.aws.amazon.com/federation".

(** [AWS_SESSION_NAME_PATTERN = /^[\w+=,.@-]+$/] *)
Definition session_name_char (c : ascii) : bool :=
  JS.is_word c || Ascii.eqb c "+" || Ascii.eqb c "=" || Ascii.eqb c ","
  || Ascii.eqb c "." || Ascii.eqb c "@" || Ascii.eqb c "-".

Definition AWS_SESSION_NAME_PATTERN_test (s : string) : bool :=
  JS.truthy s && JS.str_all session_name_char s.

(** [AWS_ROLE_ARN_PATTERN = /^arn:aws:iam::\d{12}:role\/[\w+=,.@-]+$/] *)
Definition arn_prefix : string := "arn:aws:iam::".
Definition arn_role : string := ":role/".

(** [strip_prefix p s]: the rest of [s] after the literal [p]. *)
Fixpoint strip_prefix (p s : string) : option string :=
  match p, s with
  | EmptyString, _ => Some s
  | String a p', String b s' => if Ascii.eqb a b then strip_prefix p' s' else None
  | String _ _, EmptyString => None
  end.

(** [\d{n}] at the head of [s]: the digits and the rest. *)
Fixpoint take_digits (n : nat) (s : string) : option (string * string) :=
  match n with
  | O => Some (EmptyString, s)
  | S k =>
      match s with
      | String c r =>
          if JS.is_digit c then
            match take_digits k r with
            | Some (ds, rest) => Some (String c ds, rest)
            | None => None
            end
          else None
      | EmptyString => None
      end
  end.

(** The literal part [arn:aws:iam::\d{12}:role\/] matched at the head of
    [s]: the account digits and what follows the slash. *)
Definition match_arn_head (s : string) : option (string * string) :=
  match strip_prefix arn_prefix s with
  | Some r1 =>
      match take_digits 12 r1 with
      | Some (account, r2) =>
          match strip_prefix arn_role r2 with
          | Some r3 => Some (account, r3)
          | None => None
          end
      | None => None
      end
  | None => None
  end.

Definition AWS_ROLE_ARN_PATTERN_test (s : string) : bool :=
  match match_arn_head s with
  | Some (_, r) => JS.truthy r && JS.str_all session_name_char r
  | None => false
  end.

End Types.

(* ===================================================================== *)
(** ** The environment: clock, localStorage, network *)
(* ===================================================================== *)

Module Env.
Import Types.

(** A thrown value. Every value thrown by the code is an [Error] object;
    [code] is the property that [createAWSError] adds. *)
Record JsError := {
  err_name : string;
  message : string;
  code : option string
}.

(** [new Error(msg)] *)
Definition Error (msg : string) : JsError :=
  {| err_name := "Error"; message := msg; code := None |}.

(** What [JSON.parse] throws on a text that is not JSON. *)
Definition SyntaxError (msg : string) : JsError :=
  {| err_name := "SyntaxError"; message := msg; code := None |}.

(** What [btoa] throws on a code unit above 255. *)
Definition InvalidCharacterError : JsError :=
  {| err_name := "InvalidCharacterError";
     message := "The string to be encoded contains characters outside of the Latin1 range.";
     code := None |}.

(** The text kept under a key that is read through [JSON.parse]: either the
    serialization of a document of the type its reader declares, or a text
    that [JSON.parse] rejects (the empty text included). *)
Inductive JsonText (A : Type) :=
| Malformed (text : string)
| Json (doc : A).
Arguments Malformed {A} text.
Arguments Json {A} doc.

(** [localStorage], by the keys the services use:
    ['auth-session'], ['pkce-verifier'], ['oauth-state'],
    ['oidc-manifest-' + btoa(authority)] (indexed by the full key) and
    ['aws_role_arn_history']. *)
Record LocalStorage := {
  auth_session : option (JsonText AuthSession);
  pkce_verifier : option string;
  oauth_state : option string;
  oidc_manifest : gmap string (JsonText OIDCCacheEntry);
  aws_role_arn_history : option (JsonText RoleArnHistory)
}.

Definition empty_storage : LocalStorage :=
  {| auth_session := None; pkce_verifier := None; oauth_state := None;
     oidc_manifest := ∅; aws_role_arn_history := None |}.

Definition set_auth_session (v : option (JsonText AuthSession)) (l : LocalStorage) :=
  {| auth_session := v; pkce_verifier := pkce_verifier l;
     oauth_state := oauth_state l; oidc_manifest := oidc_manifest l;
     aws_role_arn_history := aws_role_arn_history l |}.

Definition set_pkce_verifier (v : option string) (l : LocalStorage) :=
  {| auth_session := auth_session l; pkce_verifier := v;
     oauth_state := oauth_state l; oidc_manifest := oidc_manifest l;
     aws_role_arn_history := aws_role_arn_history l |}.

Definition set_oauth_state (v : option string) (l : LocalStorage) :=
  {| auth_session := auth_session l; pkce_verifier := pkce_verifier l;
     oauth_state := v; oidc_manifest := oidc_manifest l;
     aws_role_arn_history := aws_role_arn_history l |}.

Definition set_oidc_manifest (m : gmap string (JsonText OIDCCacheEntry)) (l : LocalStorage) :=
  {| auth_session := auth_session l; pkce_verifier := pkce_verifier l;
     oauth_state := oauth_state l; oidc_manifest := m;
     aws_role_arn_history := aws_role_arn_history l |}.

Definition set_aws_role_arn_history (v : option (JsonText RoleArnHistory)) (l : LocalStorage) :=
  {| auth_session := auth_session l; pkce_verifier := pkce_verifier l;
     oauth_state := oauth_state l; oidc_manifest := oidc_manifest l;
     aws_role_arn_history := v |}.

(** [Object.keys(localStorage).filter(p).forEach(key =>
    localStorage.removeItem(key))] *)
Definition remove_keys (p : string -> bool) (l : LocalStorage) : LocalStorage :=
  {| auth_session := if p "auth-session" then None else auth_session l;
     pkce_verifier := if p "pkce-verifier" then None else pkce_verifier l;
     oauth_state := if p "oauth-state" then None else oauth_state l;
     oidc_manifest := filter (fun entry => p (fst entry) = false) (oidc_manifest l);
     aws_role_arn_history :=
       if p "aws_role_arn_history" then None else aws_role_arn_history l |}.

(** What leaves the browser. *)
Inductive Request :=
| HttpRequest (method : string) (url : JS.wstring) (headers body : list (string * string))
| StsAssumeRoleWithWebIdentity
    (RoleArn RoleSessionName WebIdentityToken : string) (DurationSeconds : Z).

(** The outcome of [fetch(url, init)]: the promise rejects, or resolves to
    a response whose [json()] either rejects or yields a document. *)
Inductive FetchResult (A : Type) :=
| NetworkError (e : JsError)
| Response (ok : bool) (status : Z) (statusText : string) (text : string)
           (json : JsError + A).
Arguments NetworkError {A} e.
Arguments Response {A} ok status statusText text json.

(** The output of [AssumeRoleWithWebIdentityCommand]; absent members of the
    credentials are empty strings, an absent expiration is [None]. *)
Record StsCredentials := {
  sts_AccessKeyId : string;
  sts_SecretAccessKey : string;
  sts_SessionToken : string;
  sts_Expiration : option Z
}.

Record StsOutput := {
  out_Credentials : option StsCredentials;
  out_AssumedRoleUser : option (option string * option string)
}.

(** The servers, as seen from the browser. [elapsed] is the time a request
    takes. *)
Record Network := {
  fetch_openid_configuration : Request -> FetchResult OIDCConfiguration;
  fetch_token : Request -> FetchResult TokenResponse;
  fetch_userinfo : Request -> FetchResult UserInfo;
  sts_send : Request -> JsError + StsOutput;
  elapsed : Request -> Z
}.

Record World := {
  storage : LocalStorage;
  clock : Z;
  requests : list Request
}.

(** Computations: state passing over [World], with exceptions. *)
Inductive Result (A : Type) :=
| Ok (a : A)
| Throw (e : JsError).
Arguments Ok {A} a.
Arguments Throw {A} e.

Definition M (A : Type) : Type := World -> Result A * World.

Definition ret {A} (a : A) : M A := fun w => (Ok a, w).
Definition throw {A} (e : JsError) : M A := fun w => (Throw e, w).
Definition bind {A B} (m : M A) (k : A -> M B) : M B :=
  fun w => match m w with
           | (Ok a, w') => k a w'
           | (Throw e, w') => (Throw e, w')
           end.
(** [try { m } catch (error) { h error }] *)
Definition try_catch {A} (m : M A) (h : JsError -> M A) : M A :=
  fun w => match m w with
           | (Ok a, w') => (Ok a, w')
           | (Throw e, w') => h e w'
           end.

(** [Date.now()] *)
Definition Date_now : M Z := fun w => (Ok (clock w), w).

Definition get_storage : M LocalStorage := fun w => (Ok (storage w), w).
Definition modify_storage (f : LocalStorage -> LocalStorage) : M unit :=
  fun w => (Ok tt, {| storage := f (storage w); clock := clock w; requests := requests w |}).

(** A request is logged, time passes, the server answers. *)
Definition send {A} (delay : Request -> Z) (server : Request -> A) (rq : Request) : M A :=
  fun w => (Ok (server rq),
            {| storage := storage w; clock := clock w + delay rq;
               requests := requests w ++ [rq] |}).

(** [await fetch(url, init)] *)
Definition fetch {A} (net : Network) (server : Request -> FetchResult A)
           (rq : Request) : M (FetchResult A) :=
  send (elapsed net) server rq.

(** [btoa(s)] on a string that may hold code units above 255. *)
Definition btoa_of (s : JS.wstring) : M string :=
  match JS.to_latin1 s with
  | Some t => ret (JS.btoa t)
  | None => throw InvalidCharacterError
  end.

End Env.

Declare Scope js_scope.
Delimit Scope js_scope with js.
Notation "x <- m ;; k" := (Env.bind m (fun x => k))
(at level 100, m at next level, right associativity) : js_scope.
Notation "m ;;; k" := (Env.bind m (fun _ => k))
(at level 100, right associativity) : js_scope.

(* ===================================================================== *)
(** ** services/sessionManager.ts *)
(* ===================================================================== *)

Module SessionManager.
Import JS Types Env.
Local Open Scope js_scope.

Definition storeSession (session : AuthSession) : M unit :=
  try_catch
    (if negb (truthy (accessToken session))
     then throw (Error "Invalid session: access token is required")
     else
       (* [session.createdAt || Date.now()] *)
       created <- (if num_truthy (createdAt session) then ret (createdAt session)
                   else Date_now) ;;
       let sessionData :=
         {| accessToken := accessToken session;
            refreshToken := refreshToken session;
            idToken := idToken session;
            tokenType := tokenType session;
            scope := scope session;
            expiresAt := expiresAt session;
            createdAt := created;
            user := user session |} in
       modify_storage (set_auth_session (Some (Json sessionData))))
    (fun error => throw (Error ("Session storage failed: " +:+ message error))).

Definition clearSession : M unit :=
  modify_storage (set_auth_session None).

Definition getSession : M (option AuthSession) :=
  ls <- get_storage ;;
  match auth_session ls with
  | None => ret None
  | Some (Malformed sessionData) =>
      if negb (truthy sessionData) then ret None
      else (clearSession ;;; ret None)
  | Some (Json session) =>
      if negb (truthy (accessToken session)) || negb (num_truthy (expiresAt session))
      then (clearSession ;;; ret None)
      else ret (Some session)
  end.

Definition isSessionValid : M bool :=
  session <- getSession ;;
  match session with
  | None => ret false
  | Some session =>
      now <- Date_now ;;
      let isExpired := now >=? expiresAt session in
      if isExpired then (clearSession ;;; ret false)
      else ret true
  end.

Definition storePKCEVerifier (verifier : string) : M unit :=
  try_catch
    (if negb (truthy verifier) then throw (Error "PKCE verifier is required")
     else modify_storage (set_pkce_verifier (Some verifier)))
    (fun error => throw error).

Definition retrievePKCEVerifier : M (option string) :=
  ls <- get_storage ;;
  let verifier := pkce_verifier ls in
  (if truthy_opt verifier then modify_storage (set_pkce_verifier None) else ret tt) ;;;
  ret verifier.

Definition storeOAuthState (state : string) : M unit :=
  try_catch
    (if negb (truthy state) then throw (Error "OAuth state is required")
     else modify_storage (set_oauth_state (Some state)))
    (fun error => throw error).

Definition retrieveOAuthState : M (option string) :=
  ls <- get_storage ;;
  let state := oauth_state ls in
  (if truthy_opt state then modify_storage (set_oauth_state None) else ret tt) ;;;
  ret state.

Definition getSessionTimeRemaining : M Z :=
  session <- getSession ;;
  match session with
  | None => ret 0
  | Some session =>
      now <- Date_now ;;
      let remaining := expiresAt session - now in
      ret (Z.max 0 remaining)
  end.

Definition updateSessionUser (userInfo : UserInfo) : M unit :=
  session <- getSession ;;
  match session with
  | None => throw (Error "No active session to update")
  | Some session =>
      storeSession
        {| accessToken := accessToken session;
           refreshToken := refreshToken session;
           idToken := idToken session;
           tokenType := tokenType session;
           scope := scope session;
           expiresAt := expiresAt session;
           createdAt := createdAt session;
           user := userInfo |}
  end.

Definition clearAllAuthData : M unit :=
  modify_storage (set_auth_session None) ;;;
  modify_storage (set_pkce_verifier None) ;;;
  modify_storage (set_oauth_state None) ;;;
  modify_storage
    (remove_keys (fun key => startsWith key "oidc-manifest" || startsWith key "auth-"
                             || startsWith key "oauth-")).

End SessionManager.
(* ===================================================================== *)
(** ** services/oidcDiscovery.ts *)
(* ===================================================================== *)

Module OidcDiscovery.
Import JS Types Env.
Local Open Scope js_scope.

Definition CACHE_KEY : string := "oidc-manifest".
Definition CACHE_DURATION : Z := 24 * 60 * 60 * 1000.

(** The cache key of an authority that [btoa] accepts. *)
Definition cache_key (authority : string) : string :=
  CACHE_KEY +:+ "-" +:+ btoa authority.

(** [`${CACHE_KEY}-${btoa(authority)}`]: [btoa] throws on an authority
    with a code unit above 255. *)
Definition cacheKey (authority : wstring) : M string :=
  encoded <- btoa_of authority ;;
  ret (CACHE_KEY +:+ "-" +:+ encoded).

(** [s.replace(/\/$/, '')] *)
Definition strip_trailing_slash (s : wstring) : wstring :=
  match rev s with
  | c :: r => if (c =? 47)%N then rev r else s
  | [] => s
  end.

Fixpoint join (sep : string) (l : list string) : string :=
  match l with
  | [] => EmptyString
  | [x] => x
  | x :: r => x +:+ sep +:+ join sep r
  end.

Definition validateOIDCConfiguration (config : OIDCConfiguration) : M unit :=
  let requiredEndpoints :=
    [("authorization_endpoint", authorization_endpoint config);
     ("token_endpoint", token_endpoint config)] in
  let missingEndpoints :=
    map fst (List.filter (fun e => negb (truthy (snd e))) requiredEndpoints) in
  if (0 <? length missingEndpoints)%nat
  then throw (Error ("OIDC configuration missing required endpoints: "
                     +:+ join ", " missingEndpoints))
  else ret tt.

Definition fetchOIDCConfiguration (net : Network) (authority : wstring)
  : M OIDCConfiguration :=
  if negb (wtruthy authority)
  then throw (Error "OAuth authority is required for OIDC discovery")
  else
    let cleanAuthority := strip_trailing_slash authority in
    let discoveryUrl : wstring :=
      cleanAuthority ++ of_latin1 "/.well-known/openid-configuration" in
    try_catch
      (response <- fetch net (fetch_openid_configuration net)
                     (HttpRequest "GET" discoveryUrl [("Accept", "application/json")] []) ;;
       match response with
       | NetworkError e => throw e
       | Response ok status statusText _ json =>
           if negb ok
           then throw (Error ("Failed to fetch OIDC configuration: "
                              +:+ pretty status +:+ " " +:+ statusText))
           else
             match json with
             | inl e => throw e
             | inr config => validateOIDCConfiguration config ;;; ret config
             end
       end)
      (fun error => throw (Error ("OIDC discovery failed: " +:+ message error))).

(** [getCachedConfiguration(authority)]: whatever is thrown inside ([btoa]
    on the authority, [JSON.parse] on the stored text) is caught and
    answered by [null]. *)
Definition getCachedConfiguration (authority : wstring) : M (option OIDCConfiguration) :=
  try_catch
    (key <- cacheKey authority ;;
     ls <- get_storage ;;
     match oidc_manifest ls !! key with
     | None => ret None
     | Some (Malformed cached) =>
         if negb (truthy cached) then ret None
         else throw (SyntaxError "Unexpected token")
     | Some (Json entry) =>
         now <- Date_now ;;
         if now - timestamp entry >? CACHE_DURATION
         then
           key <- cacheKey authority ;;
           modify_storage
             (fun l => set_oidc_manifest (delete key (oidc_manifest l)) l) ;;;
           ret None
         else ret (Some (config entry))
     end)
    (fun error => ret None).

(** [setCachedConfiguration(authority, config)]: a failure is not fatal,
    the configuration is then not cached. *)
Definition setCachedConfiguration (authority : wstring) (config : OIDCConfiguration)
  : M unit :=
  try_catch
    (now <- Date_now ;;
     let cacheData := {| config := config; timestamp := now |} in
     key <- cacheKey authority ;;
     modify_storage
       (fun l => set_oidc_manifest (<[key := Json cacheData]> (oidc_manifest l)) l))
    (fun error => ret tt).

(** The endpoint set extracted from a configuration. *)
Definition extract_endpoints (config : OIDCConfiguration) : OIDCEndpoints :=
  {| authorizationEndpoint := authorization_endpoint config;
     tokenEndpoint := token_endpoint config;
     supportedScopes := default [] (scopes_supported config);
     supportedResponseTypes := default [] (response_types_supported config);
     supportedCodeChallengeMethods := default [] (code_challenge_methods_supported config);
     userinfoEndpoint :=
       if truthy_opt (userinfo_endpoint config) then userinfo_endpoint config else None;
     ep_issuer := if truthy (issuer config) then Some (issuer config) else None;
     endSessionEndpoint :=
       if truthy_opt (end_session_endpoint config) then end_session_endpoint config
       else None |}.

Definition discoverOIDCEndpoints (net : Network) (authority : wstring) : M OIDCEndpoints :=
  if negb (wtruthy authority) then throw (Error "OAuth authority is required")
  else
    cached <- getCachedConfiguration authority ;;
    config <- match cached with
              | Some config => ret config
              | None =>
                  config <- fetchOIDCConfiguration net authority ;;
                  setCachedConfiguration authority config ;;;
                  ret config
              end ;;
    ret (extract_endpoints config).

Definition clearOIDCCache : M unit :=
  modify_storage (remove_keys (fun key => startsWith key CACHE_KEY)).

End OidcDiscovery.


(* ===================================================================== *)
(** ** services/oauth2Service.ts *)
(* ===================================================================== *)

Module OAuth2Service.
Import JS Types Env PkceUtils SessionManager OidcDiscovery.
Local Open Scope js_scope.

(** The private fields of the service object; [None] is [null]. *)
Record Service := {
  svc_authority : option wstring;
  svc_clientId : option string;
  svc_scope : option string;
  svc_redirectUri : option string;
  svc_endpoints : option OIDCEndpoints;
  initialized : bool
}.

(** [new OAuth2Service()] *)
Definition new_service : Service :=
  {| svc_authority := None; svc_clientId := None; svc_scope := None;
     svc_redirectUri := None; svc_endpoints := None; initialized := false |}.

(** A field read under a non-null assertion ([this.endpoints!]); the fields
    are non-null once [initialized] is set. Reading a property of [null]
    is a [TypeError]. *)
Definition non_null {A} (field : option A) : M A :=
  match field with
  | Some v => ret v
  | None => throw {| err_name := "TypeError";
                     message := "Cannot read properties of null";
                     code := None |}
  end.

(** [initialize(config)]; [origin] is [window.location.origin]. The service
    object is updated in place, so its new fields are returned on both
    outcomes. *)
Definition initialize (svc : Service) (net : Network) (origin : string)
           (config : OAuthConfig) (w : World) : (Result OIDCEndpoints * Service) * World :=
  let fail (error : JsError) :=
    Throw (Error ("OAuth2 initialization failed: " +:+ message error)) in
  if negb (wtruthy (cfg_authority config)) || negb (truthy (cfg_clientId config))
     || negb (truthy (cfg_scope config))
  then (fail (Error "OAuth2 configuration requires authority, clientId, and scope"),
        svc, w)
  else
    let authority := strip_trailing_slash (cfg_authority config) in
    let svc1 :=
      {| svc_authority := Some authority;
         svc_clientId := Some (cfg_clientId config);
         svc_scope := Some (cfg_scope config);
         svc_redirectUri := Some (str_or (cfg_redirectUri config) origin);
         svc_endpoints := svc_endpoints svc;
         initialized := initialized svc |} in
    match discoverOIDCEndpoints net authority w with
    | (Ok endpoints, w') =>
        (Ok endpoints,
         {| svc_authority := svc_authority svc1; svc_clientId := svc_clientId svc1;
            svc_scope := svc_scope svc1; svc_redirectUri := svc_redirectUri svc1;
            svc_endpoints := Some endpoints; initialized := true |},
         w')
    | (Throw error, w') => (fail error, svc1, w')
    end.

Definition ensureInitialized (svc : Service) : M unit :=
  if negb (initialized svc)
  then throw (Error "OAuth2 service not initialized. Call initialize() first.")
  else ret tt.

Definition exchangeCodeForTokens (svc : Service) (net : Network)
           (code codeVerifier : string) : M TokenResponse :=
  try_catch
    (let params :=
       [("client_id", default "null" (svc_clientId svc)); ("code", code);
        ("code_verifier", codeVerifier);
        ("redirect_uri", default "null" (svc_redirectUri svc));
        ("grant_type", "authorization_code")] in
     endpoints <- non_null (svc_endpoints svc) ;;
     response <- fetch net (fetch_token net)
                   (HttpRequest "POST" (tokenEndpoint endpoints)
                      [("Accept", "application/json");
                       ("Content-Type", "application/x-www-form-urlencoded")]
                      params) ;;
     match response with
     | NetworkError e => throw e
     | Response ok status statusText errorText json =>
         if negb ok
         then throw (Error ("Token exchange failed: " +:+ pretty status +:+ " "
                            +:+ statusText +:+ " - " +:+ errorText))
         else
           match json with
           | inl e => throw e
           | inr tokenData =>
               if truthy_opt (tr_error tokenData)
               then throw (Error ("Token error: " +:+
                      default EmptyString (or_else (error_description tokenData) (tr_error tokenData))))
               else if negb (truthy (access_token tokenData))
               then throw (Error "No access token received")
               else ret tokenData
           end
     end)
    (fun error => throw error).

(** [{ sub: 'unknown', authenticated: true }], with [error] when given. *)
Definition minimal_user (error : option string) : UserInfo :=
  {| sub := Some "unknown"; email := None; email_verified := None; name := None;
     given_name := None; family_name := None; preferred_username := None;
     picture := None; locale := None; zoneinfo := None; login := None;
     avatar_url := None; authenticated := Some true; ui_error := error |}.

Definition fetchUserInfo (svc : Service) (net : Network) (accessToken : string)
  : M UserInfo :=
  try_catch
    (endpoints <- non_null (svc_endpoints svc) ;;
     if negb (truthy_opt (userinfoEndpoint endpoints))
     then ret (minimal_user None)
     else
       response <- fetch net (fetch_userinfo net)
                     (HttpRequest "GET" (default EmptyString (userinfoEndpoint endpoints))
                        [("Authorization", "Bearer " +:+ accessToken);
                         ("Accept", "application/json")] []) ;;
       match response with
       | NetworkError e => throw e
       | Response ok status statusText _ json =>
           if negb ok
           then throw (Error ("Userinfo fetch failed: " +:+ pretty status +:+ " "
                              +:+ statusText))
           else
             match json with
             | inl e => throw e
             | inr userInfo => ret userInfo
             end
       end)
    (fun error => ret (minimal_user (Some (message error)))).

Definition handleCallback (svc : Service) (net : Network) (code state : string)
  : M (UserInfo * AuthSession) :=
  ensureInitialized svc ;;;
  try_catch
    (storedState <- retrieveOAuthState ;;
     if negb (truthy_opt storedState) || negb (bool_decide (storedState = Some state))
     then throw (Error "Invalid state parameter - possible CSRF attack")
     else
       codeVerifier <- retrievePKCEVerifier ;;
       if negb (truthy_opt codeVerifier)
       then throw (Error "PKCE code verifier not found")
       else
         tokenResponse <- exchangeCodeForTokens svc net code (default EmptyString codeVerifier) ;;
         userInfo <- fetchUserInfo svc net (access_token tokenResponse) ;;
         let expiresIn := num_or (expires_in tokenResponse) 3600 in
         now <- Date_now ;;
         let expiresAt := now + expiresIn * 1000 in
         (* [tokenResponse.scope || this.scope!]; [this.scope] is set once the
            service is initialized *)
         scope <- non_null (or_else (tr_scope tokenResponse) (svc_scope svc)) ;;
         created <- Date_now ;;
         let session :=
           {| accessToken := access_token tokenResponse;
              tokenType := str_or (token_type tokenResponse) "Bearer";
              scope := scope;
              expiresAt := expiresAt;
              createdAt := created;
              user := userInfo;
              refreshToken :=
                if truthy_opt (refresh_token tokenResponse)
                then refresh_token tokenResponse else None;
              idToken :=
                if truthy_opt (id_token tokenResponse)
                then id_token tokenResponse else None |} in
         storeSession session ;;;
         ret (userInfo, session))
    (fun error =>
       retrievePKCEVerifier ;;;
       retrieveOAuthState ;;;
       throw (Error ("Callback handling failed: " +:+ message error))).

(** [isAuthenticated()] *)
Definition isAuthenticated : M bool := isSessionValid.

(** [getCurrentUser()] *)
Definition getCurrentUser : M (option UserInfo) :=
  session <- getSession ;;
  ret (match session with Some s => Some (user s) | None => None end).

(** [getAccessToken()] *)
Definition getAccessToken : M (option string) :=
  session <- getSession ;;
  ret (match session with
       | Some s => if truthy (accessToken s) then Some (accessToken s) else None
       | None => None
       end).

(** [getIdToken()] *)
Definition getIdToken : M (option string) :=
  session <- getSession ;;
  ret (match session with
       | Some s => or_else (idToken s) None
       | None => None
       end).

(** Where the browser is sent: the URL the [URL] object was made from and
    the parameters appended to its query, in order. *)
Record Navigation := {
  nav_url : string;
  nav_params : list (string * string)
}.

(** [new URL(s)]: a [TypeError] when [s] is not a valid URL. *)
Definition new_URL (valid_URL : string -> bool) (s : string) : M string :=
  if valid_URL s then ret s
  else throw {| err_name := "TypeError"; message := "Invalid URL"; code := None |}.

(** [login()], named [loginFlow] here since [login] is a claim of
    [UserInfo]; the random bytes of the verifier and of the state are
    inputs, the result is the assignment to [window.location.href]. *)
Definition loginFlow (svc : Service) (valid_URL : string -> bool)
           (verifierBytes stateBytes : list Z) : M Navigation :=
  ensureInitialized svc ;;;
  try_catch
    (let codeVerifier := generateCodeVerifier verifierBytes in
     let codeChallenge := generateCodeChallenge codeVerifier in
     let state := generateState stateBytes in
     storePKCEVerifier codeVerifier ;;;
     storeOAuthState state ;;;
     endpoints <- non_null (svc_endpoints svc) ;;
     authUrl <- new_URL valid_URL (authorizationEndpoint endpoints) ;;
     ret {| nav_url := authUrl;
            nav_params :=
              [("client_id", default "null" (svc_clientId svc));
               ("redirect_uri", default "null" (svc_redirectUri svc));
               ("response_type", "code");
               ("scope", default "null" (svc_scope svc));
               ("code_challenge", codeChallenge);
               ("code_challenge_method", "S256");
               ("state", state)] |})
    (fun error => throw (Error ("Login failed: " +:+ message error))).

(** What [logout] does with the page: [window.location.reload()] or a
    redirect to the provider. *)
Inductive AfterLogout :=
| Reload
| Redirect (target : Navigation).

(** [logout(redirectToProvider)] *)
Definition logout (svc : Service) (valid_URL : string -> bool)
           (redirectToProvider : bool) : M AfterLogout :=
  try_catch
    (session <- getSession ;;
     clearAllAuthData ;;;
     match svc_endpoints svc with
     | Some endpoints =>
         if redirectToProvider && truthy_opt (endSessionEndpoint endpoints)
         then
           logoutUrl <- new_URL valid_URL (default EmptyString (endSessionEndpoint endpoints)) ;;
           let hint :=
             match session with
             | Some s =>
                 if truthy_opt (idToken s)
                 then [("id_token_hint", default EmptyString (idToken s))] else []
             | None => []
             end in
           ret (Redirect
                  {| nav_url := logoutUrl;
                     nav_params :=
                       hint ++ [("post_logout_redirect_uri",
                                 default "null" (svc_redirectUri svc))] |})
         else ret Reload
     | None => ret Reload
     end)
    (fun error => clearAllAuthData ;;; ret Reload).

End OAuth2Service.

(* ===================================================================== *)
(** ** services/awsService.ts *)
(* ===================================================================== *)

Module AWSService.
Import JS Types Env.
Local Open Scope js_scope.

(** The [Partial<AWSConfig>] given to the constructor. *)
Record PartialAWSConfig := {
  p_region : option string;
  p_defaultDurationSeconds : option Z;
  p_consoleBaseUrl : option string;
  p_stsEndpoint : option string;
  p_federationEndpoint : option string;
  p_federationEndpointProxy : option string
}.

Definition no_config : PartialAWSConfig :=
  {| p_region := None; p_defaultDurationSeconds := None; p_consoleBaseUrl := None;
     p_stsEndpoint := None; p_federationEndpoint := None;
     p_federationEndpointProxy := None |}.

(** [new AWSService(config)] *)
Definition new_AWSService (config : PartialAWSConfig) : AWSConfig :=
  {| region := str_or (p_region config) DEFAULT_REGION;
     defaultDurationSeconds :=
       num_or (p_defaultDurationSeconds config) DEFAULT_DURATION_SECONDS;
     consoleBaseUrl := str_or (p_consoleBaseUrl config) CONSOLE_BASE_URL;
     stsEndpoint := str_or (p_stsEndpoint config) STS_ENDPOINT;
     federationEndpoint :=
       str_or (p_federationEndpoint config) FEDERATION_ENDPOINT;
     federationEndpointProxy :=
       if truthy_opt (p_federationEndpointProxy config)
       then p_federationEndpointProxy config else None |}.

(** [[^a-zA-Z0-9+=,.@-]] is the complement of this class. *)
Definition clean_char (c : ascii) : bool :=
  is_alnum c || Ascii.eqb c "+" || Ascii.eqb c "=" || Ascii.eqb c ","
  || Ascii.eqb c "." || Ascii.eqb c "@" || Ascii.eqb c "-".

(** [new Date().toISOString().replace(/[:.]/g, '-').slice(0, 19)] *)
Definition timestamp_of (now : Z) : string :=
  str_take 19
    (str_map (fun c => if Ascii.eqb c ":" || Ascii.eqb c "." then "-"%char else c)
       (toISOString now)).

Definition generateSessionName (githubUser : UserInfo) : M string :=
  try_catch
    (let username :=
       default "github-user"
         (or_else (login githubUser)
            (or_else (preferred_username githubUser)
               (or_else (before_first "@" <$> email githubUser)
                  (or_else (str_filter is_alnum <$> sub githubUser)
                     (Some "github-user"))))) in
     let cleanUsername :=
       str_map (fun c => if clean_char c then c else "-"%char) username in
     now <- Date_now ;;
     let timestamp := timestamp_of now in
     let sessionName := "github-" +:+ cleanUsername +:+ "-" +:+ timestamp in
     let finalSessionName := str_take SESSION_NAME_MAX_LENGTH sessionName in
     if negb (AWS_SESSION_NAME_PATTERN_test finalSessionName)
     then ret (str_take SESSION_NAME_MAX_LENGTH ("github-user-" +:+ timestamp))
     else ret finalSessionName)
    (fun error =>
       now <- Date_now ;;
       let timestamp := pretty now in
       ret (str_take SESSION_NAME_MAX_LENGTH ("github-session-" +:+ timestamp))).

Definition createAWSError (error : JsError) (context : string) : JsError :=
  if truthy (err_name error) && truthy (message error)
  then {| err_name := "AWSError"; message := message error;
          code := Some (err_name error) |}
  else {| err_name := "AWSError"; message := message error;
          code := Some (str_or (code error) "UnknownError") |}.

Definition assumeRoleWithWebIdentity (cfg : AWSConfig) (net : Network)
           (roleArn webIdentityToken sessionName : string)
           (durationSeconds : option Z)
  : M (AWSCredentials * option AssumedRoleUser) :=
  let durationSeconds := default (defaultDurationSeconds cfg) durationSeconds in
  try_catch
    (if negb (truthy roleArn) || negb (truthy webIdentityToken)
        || negb (truthy sessionName)
     then throw (Error "Missing required parameters for AssumeRoleWithWebIdentity")
     else if (durationSeconds <? MIN_DURATION_SECONDS)
             || (durationSeconds >? MAX_DURATION_SECONDS)
     then throw (Error ("Duration must be between " +:+ pretty MIN_DURATION_SECONDS
                        +:+ " and " +:+ pretty MAX_DURATION_SECONDS +:+ " seconds"))
     else
       response <- send (elapsed net) (sts_send net)
                     (StsAssumeRoleWithWebIdentity roleArn sessionName
                        webIdentityToken durationSeconds) ;;
       match response with
       | inl e => throw e
       | inr output =>
           match out_Credentials output with
           | None => throw (Error "No credentials received from AWS STS")
           | Some c =>
               if negb (truthy (sts_AccessKeyId c))
                  || negb (truthy (sts_SecretAccessKey c))
                  || negb (truthy (sts_SessionToken c))
                  || negb (bool_decide (is_Some (sts_Expiration c)))
               then throw (Error "Incomplete credentials in AWS STS response")
               else
                 let credentials :=
                   {| AccessKeyId := sts_AccessKeyId c;
                      SecretAccessKey := sts_SecretAccessKey c;
                      SessionToken := sts_SessionToken c;
                      Expiration := default 0 (sts_Expiration c) |} in
                 let assumed :=
                   match out_AssumedRoleUser output with
                   | Some (id, a) =>
                       if truthy_opt id && truthy_opt a
                       then Some {| AssumedRoleId := default EmptyString id;
                                    Arn := default EmptyString a |}
                       else None
                   | None => None
                   end in
                 ret (credentials, assumed)
           end
       end)
    (fun error => throw (createAWSError error "AssumeRoleWithWebIdentity")).

(** [generateConsoleUrl(credentials, consoleUrl)]; [federation] is the
    server behind the getSigninToken endpoint, [origin] is
    [window.location.origin]. The credentials are those that
    [assumeRoleWithWebIdentity] returns, whose three members are present. *)
Definition generateConsoleUrl (cfg : AWSConfig) (net : Network)
           (federation : Request -> FetchResult AWSConsoleFederationResponse)
           (origin : string) (credentials : AWSCredentials)
           (consoleUrl : option string) : M string :=
  try_catch
    (let sessionData :=
       JSON_stringify_strings
         [("sessionId", AccessKeyId credentials);
          ("sessionKey", SecretAccessKey credentials);
          ("sessionToken", SessionToken credentials)] in
     let federationParams :=
       URLSearchParams_toString
         [("Action", "getSigninToken"); ("Session", sessionData)] in
     let getSigninTokenEndpoint :=
       str_or (federationEndpointProxy cfg) (federationEndpoint cfg) in
     federationResponse <-
       fetch net federation
         (HttpRequest "GET" (getSigninTokenEndpoint +:+ "?" +:+ federationParams)
            [("Accept", "application/json")] []) ;;
     match federationResponse with
     | NetworkError e => throw e
     | Response ok status statusText _ json =>
         if negb ok
         then throw (Error ("Federation request failed: " +:+ pretty status +:+ " "
                            +:+ statusText))
         else
           match json with
           | inl e => throw e
           | inr federationData =>
               if negb (truthy (SigninToken federationData))
               then throw (Error "No signin token received from federation endpoint")
               else
                 let destination := str_or consoleUrl (consoleBaseUrl cfg) in
                 let consoleParams :=
                   URLSearchParams_toString
                     [("Action", "login"); ("Issuer", origin);
                      ("Destination", destination);
                      ("SigninToken", SigninToken federationData)] in
                 ret (federationEndpoint cfg +:+ "?" +:+ consoleParams)
           end
     end)
    (fun error => throw (createAWSError error "Console URL generation")).

(** [assumeRoleAndOpenConsole(roleArn, githubUser, webIdentityToken,
    consoleUrl)]. [assumeRoleWithWebIdentity] returns only with
    credentials, so the test [!stsResponse.Credentials] never fires. *)
Definition assumeRoleAndOpenConsole (cfg : AWSConfig) (net : Network)
           (federation : Request -> FetchResult AWSConsoleFederationResponse)
           (origin : string) (roleArn : string) (githubUser : UserInfo)
           (webIdentityToken : string) (consoleUrl : option string)
  : M (AWSSessionInfo * string) :=
  try_catch
    (sessionName <- generateSessionName githubUser ;;
     stsResponse <- assumeRoleWithWebIdentity cfg net roleArn webIdentityToken
                      sessionName None ;;
     now <- Date_now ;;
     let sessionInfo :=
       {| info_roleArn := roleArn;
          info_sessionName := sessionName;
          info_credentials := fst stsResponse;
          info_createdAt := now;
          info_githubUser :=
            {| gh_login := if truthy_opt (login githubUser) then login githubUser else None;
               gh_email := if truthy_opt (email githubUser) then email githubUser else None;
               gh_name := if truthy_opt (name githubUser) then name githubUser else None;
               gh_sub := sub githubUser |} |} in
     generatedConsoleUrl <- generateConsoleUrl cfg net federation origin
                              (fst stsResponse) consoleUrl ;;
     ret (sessionInfo, generatedConsoleUrl))
    (fun error => throw (createAWSError error "Complete AWS console flow")).

Definition isCredentialsValid (credentials : AWSCredentials) : M bool :=
  currentTime <- Date_now ;;
  let bufferTime := 5 * 60 * 1000 in
  ret (Expiration credentials >? currentTime + bufferTime).

End AWSService.

(* ===================================================================== *)
(** ** services/roleArnStorage.ts *)
(* ===================================================================== *)

Module RoleArnStorage.
Import JS Types Env.
Local Open Scope js_scope.

(** The service object: [maxItems], [AWS_CONSTANTS.MAX_ROLE_HISTORY] by
    default. *)
Record RoleArnStorageService := { svc_maxItems : Z }.

Definition roleArnStorage : RoleArnStorageService :=
  {| svc_maxItems := MAX_ROLE_HISTORY |}.

Definition isValidRoleArn (arn : string) : bool := AWS_ROLE_ARN_PATTERN_test arn.

(** [arn.match(/arn:aws:iam::(\d{12}):role\/(.+)$/)]: the leftmost position
    where the literal part matches and is followed, up to the end of the
    string, by one or more characters other than line terminators. *)
Fixpoint arn_match (s : string) : option (string * string) :=
  let here :=
    match match_arn_head s with
    | Some (account, rest) =>
        if truthy rest && str_all (fun c => negb (is_line_terminator c)) rest
        then Some (account, rest) else None
    | None => None
    end in
  match here with
  | Some m => Some m
  | None =>
      match s with
      | EmptyString => None
      | String _ r => arn_match r
      end
  end.

Definition extractRoleName (arn : string) : string :=
  match arn_match arn with
  | Some (_, name) => name
  | None => "Unknown"
  end.

Definition extractAccountId (arn : string) : string :=
  match arn_match arn with
  | Some (account, _) => account
  | None => "Unknown"
  end.

Definition empty_history (this : RoleArnStorageService) : RoleArnHistory :=
  {| roles := []; maxItems := svc_maxItems this |}.

Definition getHistory (this : RoleArnStorageService) : M RoleArnHistory :=
  ls <- get_storage ;;
  match aws_role_arn_history ls with
  | None => ret (empty_history this)
  | Some (Malformed _) => ret (empty_history this)
  | Some (Json parsed) =>
      ret {| roles := roles parsed; maxItems := svc_maxItems this |}
  end.

Definition saveHistory (history : RoleArnHistory) : M unit :=
  modify_storage (set_aws_role_arn_history (Some (Json history))).

(** [roles.findIndex(role => role.arn === a)] *)
Fixpoint findIndex (a : string) (l : list RoleArnHistoryItem) : option nat :=
  match l with
  | [] => None
  | r :: rest =>
      if bool_decide (arn r = a) then Some O
      else S <$> findIndex a rest
  end.

(** [l.slice(0, n)] *)
Definition slice0 {A} (n : Z) (l : list A) : list A :=
  if n <? 0 then take (Z.to_nat (Z.max (Z.of_nat (length l) + n) 0)) l
  else take (Z.to_nat n) l.

Definition trim_to (n : Z) (l : list RoleArnHistoryItem) : list RoleArnHistoryItem :=
  if Z.of_nat (length l) >? n then slice0 n l else l.

Definition addRoleArn (this : RoleArnStorageService) (a : string) : M unit :=
  if negb (truthy a) then throw (Error "Role ARN must be a non-empty string")
  else
    let trimmedArn := trim a in
    if negb (isValidRoleArn trimmedArn)
    then throw (Error "Invalid AWS IAM Role ARN format")
    else
      history <- getHistory this ;;
      now <- Date_now ;;
      let existingIndex := findIndex trimmedArn (roles history) in
      let updated :=
        match existingIndex with
        | Some i =>
            match roles history !! i with
            | Some existingRole =>
                let existingRole :=
                  {| arn := arn existingRole; role_name := role_name existingRole;
                     accountId := accountId existingRole;
                     lastUsed := now;
                     useCount := useCount existingRole + 1 |} in
                existingRole :: (take i (roles history) ++ drop (S i) (roles history))
            | None => roles history
            end
        | None =>
            let newRole :=
              {| arn := trimmedArn;
                 role_name := extractRoleName trimmedArn;
                 accountId := extractAccountId trimmedArn;
                 lastUsed := now;
                 useCount := 1 |} in
            newRole :: roles history
        end in
      saveHistory {| roles := trim_to (svc_maxItems this) updated;
                     maxItems := maxItems history |}.

(** [l.sort((a, b) => b.lastUsed - a.lastUsed)]: stable, most recent first. *)
Fixpoint insert_by_lastUsed (x : RoleArnHistoryItem) (l : list RoleArnHistoryItem)
  : list RoleArnHistoryItem :=
  match l with
  | [] => [x]
  | y :: r =>
      if lastUsed y <=? lastUsed x then x :: y :: r
      else y :: insert_by_lastUsed x r
  end.

Definition sort_by_lastUsed (l : list RoleArnHistoryItem) : list RoleArnHistoryItem :=
  foldr insert_by_lastUsed [] l.

Definition getRoleArns (this : RoleArnStorageService) : M (list RoleArnHistoryItem) :=
  history <- getHistory this ;;
  ret (sort_by_lastUsed (roles history)).

Definition has_arn (a : string) (l : list RoleArnHistoryItem) : bool :=
  existsb (fun r => bool_decide (arn r = a)) l.

(** The loop that appends the current roles missing from the import. *)
Definition merge_roles (imported current : list RoleArnHistoryItem)
  : list RoleArnHistoryItem :=
  fold_left
    (fun mergedRoles currentRole =>
       if negb (has_arn (arn currentRole) mergedRoles)
       then mergedRoles ++ [currentRole] else mergedRoles)
    current imported.

(** What [JSON.parse(jsonData)] yields when it succeeds: [imp_roles] is
    [None] when [roles] is missing or not an array. *)
Record ImportedHistory := { imp_roles : option (list RoleArnHistoryItem) }.

(** The first imported role that fails [!role.arn || !isValidRoleArn(role.arn)]. *)
Definition first_invalid (l : list RoleArnHistoryItem) : option RoleArnHistoryItem :=
  find (fun role => negb (truthy (arn role)) || negb (isValidRoleArn (arn role))) l.

Definition importHistory (this : RoleArnStorageService)
           (JSON_parse : string -> JsError + ImportedHistory)
           (jsonData : string) : M unit :=
  try_catch
    (match JSON_parse jsonData with
     | inl e => throw e
     | inr imported =>
         match imp_roles imported with
         | None => throw (Error "Invalid history format: missing or invalid roles array")
         | Some importedRoles =>
             match first_invalid importedRoles with
             | Some role =>
                 throw (Error ("Invalid role ARN in import data: " +:+ arn role))
             | None =>
                 currentHistory <- getHistory this ;;
                 let mergedRoles := merge_roles importedRoles (roles currentHistory) in
                 let mergedRoles := sort_by_lastUsed mergedRoles in
                 let finalHistory :=
                   {| roles := slice0 (svc_maxItems this) mergedRoles;
                      maxItems := svc_maxItems this |} in
                 saveHistory finalHistory
             end
         end
     end)
    (fun error => throw (Error ("Import failed: " +:+ message error))).

(** [getMostRecentRoleArn()] *)
Definition getMostRecentRoleArn (this : RoleArnStorageService) : M (option string) :=
  roles <- getRoleArns this ;;
  ret (match roles with
       | role :: _ => Some (arn role)
       | [] => None
       end).

(** [removeRoleArn(arn)] *)
Definition removeRoleArn (this : RoleArnStorageService) (a : string) : M unit :=
  if negb (truthy a) then ret tt
  else
    history <- getHistory this ;;
    let filteredRoles :=
      List.filter (fun role => negb (bool_decide (arn role = trim a))) (roles history) in
    if negb (length filteredRoles =? length (roles history))%nat
    then saveHistory {| roles := filteredRoles; maxItems := maxItems history |}
    else ret tt.

(** [clearHistory()] *)
Definition clearHistory (this : RoleArnStorageService) : M unit :=
  saveHistory {| roles := []; maxItems := svc_maxItems this |}.

(** [l.sort(compare)]: stable; [x], which came first, stays before [y]
    unless [compare(x, y) > 0]. *)
Fixpoint insert_sorted (compare : RoleArnHistoryItem -> RoleArnHistoryItem -> Z)
         (x : RoleArnHistoryItem) (l : list RoleArnHistoryItem)
  : list RoleArnHistoryItem :=
  match l with
  | [] => [x]
  | y :: r =>
      if compare x y <=? 0 then x :: y :: r
      else y :: insert_sorted compare x r
  end.

Definition sort_with (compare : RoleArnHistoryItem -> RoleArnHistoryItem -> Z)
           (l : list RoleArnHistoryItem) : list RoleArnHistoryItem :=
  foldr (insert_sorted compare) [] l.

Record HistoryStats := {
  totalRoles : nat;
  mostUsedRole : option RoleArnHistoryItem;
  oldestRole : option RoleArnHistoryItem;
  newestRole : option RoleArnHistoryItem
}.

(** [getHistoryStats()] *)
Definition getHistoryStats (this : RoleArnStorageService) : M HistoryStats :=
  roles <- getRoleArns this ;;
  if (length roles =? 0)%nat
  then ret {| totalRoles := 0; mostUsedRole := None; oldestRole := None;
              newestRole := None |}
  else
    let mostUsedRole := head (sort_with (fun a b => useCount b - useCount a) roles) in
    let oldestRole := head (sort_with (fun a b => lastUsed a - lastUsed b) roles) in
    let newestRole := head roles in
    ret {| totalRoles := length roles; mostUsedRole := mostUsedRole;
           oldestRole := oldestRole; newestRole := newestRole |}.

(** [hasRoleArn(arn)] *)
Definition hasRoleArn (this : RoleArnStorageService) (a : string) : M bool :=
  if negb (truthy a) then ret false
  else
    history <- getHistory this ;;
    ret (has_arn (trim a) (roles history)).

(** [getRoleByArn(arn)] *)
Definition getRoleByArn (this : RoleArnStorageService) (a : string)
  : M (option RoleArnHistoryItem) :=
  if negb (truthy a) then ret None
  else
    history <- getHistory this ;;
    ret (find (fun role => bool_decide (arn role = trim a)) (roles history)).

(** [roleArnUtils.formatRoleArnForDisplay(arn)] *)
Definition formatRoleArnForDisplay (a : string) : string :=
  let parts := split_on "/" a in
  let roleName := List.last parts EmptyString in
  let accountId :=
    match arn_match a with
    | Some (account, _) => account
    | None => "Unknown"
    end in
  roleName +:+ " (" +:+ accountId +:+ ")".

End RoleArnStorage.
(* ===================================================================== *)
(** ** components/OpenConsoleButton.tsx: [handleRoleArnSelected] *)
(* ===================================================================== *)

Module OpenConsoleButton.
Import JS Types Env SessionManager OAuth2Service AWSService RoleArnStorage.
Local Open Scope js_scope.

(** What the handler leaves on the screen: the console opened in a new
    tab ([window.open(result.consoleUrl, ...)]) or the text given to
    [setError]. *)
Inductive ConsoleOutcome :=
| Opened (consoleUrl : string)
| Failed (errorMessage : string).

(** The [catch] block: the message chosen for a thrown error. Every value
    thrown by the services is an [Error]. *)
Definition errorMessage_of (err : JsError) : string :=
  if truthy_opt (code err)
  then
    let c := default EmptyString (code err) in
    if bool_decide (c = "InvalidIdentityToken")
    then "GitHub ID token is invalid or expired. Please re-authenticate."
    else if bool_decide (c = "AccessDenied")
    then "Access denied. Check that the role trusts the GitHub OIDC provider and you have permission to assume it."
    else if bool_decide (c = "TokenExpired")
    then "ID token has expired. Please re-authenticate."
    else if bool_decide (c = "AssumeRoleUnauthorizedOperation")
    then "Unauthorized to assume this role. Check role permissions and trust policy."
    else if bool_decide (c = "InvalidParameterValue")
    then "Invalid ID token format. Ensure GitHub OIDC is properly configured."
    else "AWS Error: " +:+ message err
  else message err.

(** [handleRoleArnSelected(roleArn)]; [user] is the user of the
    authentication context, [cfg] the configuration of the [awsService]
    singleton. *)
Definition handleRoleArnSelected (cfg : AWSConfig) (net : Network)
           (federation : Request -> FetchResult AWSConsoleFederationResponse)
           (origin : string) (user : option UserInfo) (roleArn : string)
  : M ConsoleOutcome :=
  try_catch
    (match user with
     | None => throw (Error "User not authenticated")
     | Some user =>
         idToken <- getIdToken ;;
         match idToken with
         | None => throw (Error "No ID token available. Please re-authenticate.")
         | Some idToken =>
             addRoleArn roleArnStorage roleArn ;;;
             result <- assumeRoleAndOpenConsole cfg net federation origin roleArn user
                         idToken None ;;
             ret (Opened (snd result))
         end
     end)
    (fun err => ret (Failed (errorMessage_of err))).

End OpenConsoleButton.


(* ===================================================================== *)
(** ** Notions used in the statements *)
(* ===================================================================== *)

Module Spec.
Import JS Types Env SessionManager OidcDiscovery OAuth2Service AWSService
  RoleArnStorage.

Definition csrf_error : JsError :=
  Error "Callback handling failed: Invalid state parameter - possible CSRF attack".

(** The error of [ensureInitialized]. *)
Definition not_initialized : JsError :=
  Error "OAuth2 service not initialized. Call initialize() first.".

(** The rule of the callback for the services that satisfy [P]: a supplied
    state that differs from the stored one (or no stored state) is answered
    by the CSRF error without a request, and on every outcome nothing
    usable is left of the stored PKCE verifier and OAuth state. *)
Definition csrf_and_purge_on (P : Service -> Prop) : Prop :=
  forall svc net code state w r w',
    P svc ->
    handleCallback svc net code state w = (r, w') ->
    (oauth_state (storage w) <> Some state ->
     r = Throw csrf_error /\ requests w' = requests w) /\
    truthy_opt (pkce_verifier (storage w')) = false /\
    truthy_opt (oauth_state (storage w')) = false.

(** The steps that follow the two retrievals do not touch the PKCE
    verifier or the OAuth state. *)
Definition keeps_pkce {A} (m : M A) : Prop :=
  forall w r w', m w = (r, w') ->
    pkce_verifier (storage w') = pkce_verifier (storage w) /\
    oauth_state (storage w') = oauth_state (storage w).

(** What [handleCallback] does once the state has been accepted and the
    verifier read. *)
Definition complete_callback (svc : Service) (net : Network) (code verifier : string)
  : M (UserInfo * AuthSession) :=
  (tokenResponse <- exchangeCodeForTokens svc net code verifier ;;
   userInfo <- fetchUserInfo svc net (access_token tokenResponse) ;;
   let expiresIn := num_or (expires_in tokenResponse) 3600 in
   now <- Date_now ;;
   let expiresAt := now + expiresIn * 1000 in
   scope <- non_null (or_else (tr_scope tokenResponse) (svc_scope svc)) ;;
   created <- Date_now ;;
   let session :=
     {| accessToken := access_token tokenResponse;
        tokenType := str_or (token_type tokenResponse) "Bearer";
        scope := scope;
        expiresAt := expiresAt;
        createdAt := created;
        user := userInfo;
        refreshToken :=
          if truthy_opt (refresh_token tokenResponse)
          then refresh_token tokenResponse else None;
        idToken :=
          if truthy_opt (id_token tokenResponse) then id_token tokenResponse else None |} in
   storeSession session ;;;
   ret (userInfo, session))%js.

(** The [catch] block of [handleCallback]. *)
Definition callback_failed (error : JsError) : M (UserInfo * AuthSession) :=
  (retrievePKCEVerifier ;;;
   retrieveOAuthState ;;;
   throw (Error ("Callback handling failed: " +:+ message error)))%js.

(** The service after a successful [initialize]: every field is set. *)
Definition ready (svc : Service) : Prop :=
  initialized svc = true /\ is_Some (svc_endpoints svc) /\
  is_Some (svc_clientId svc) /\ is_Some (svc_redirectUri svc) /\
  truthy_opt (svc_scope svc) = true.





(** The world at a later time [now], with the same [localStorage]. *)
Definition at_time (now : Z) (w : World) : World :=
  {| storage := storage w; clock := now; requests := requests w |}.

(** The rule of the discovery cache for the authorities that satisfy [P]:
    after a call that fetched the configuration and succeeded, a call for
    the same authority at most 24 hours later, on the store the first call
    left, returns the same endpoint set and sends nothing. *)
Definition cached_for_24h (P : wstring -> Prop) : Prop :=
  forall net authority w endpoints w1,
    P authority ->
    discoverOIDCEndpoints net authority w = (Ok endpoints, w1) ->
    requests w1 <> requests w ->
    forall net' w2,
      storage w2 = storage w1 ->
      clock w2 - clock w1 <= CACHE_DURATION ->
      discoverOIDCEndpoints net' authority w2 = (Ok endpoints, w2).

(** The discovery request fails: the fetch rejects, the status is not ok,
    the body is not JSON, or a required endpoint is missing. *)
Definition discovery_failure (resp : FetchResult OIDCConfiguration) : Prop :=
  match resp with
  | NetworkError _ => True
  | Response ok _ _ _ json =>
      ok = false \/
      match json with
      | inl _ => True
      | inr config =>
          truthy (authorization_endpoint config) = false \/
          truthy (token_endpoint config) = false
      end
  end.

(** The [id_token_hint] parameter of the logout URL: present when the
    session has a non-empty ID token. *)
Definition id_token_hint (session : option AuthSession) : list (string * string) :=
  match session with
  | Some s =>
      match idToken s with
      | Some token => if truthy token then [("id_token_hint", token)] else []
      | None => []
      end
  | None => []
  end.

(** The world after [setCachedConfiguration(authority, config)]. *)
Definition with_cache (authority : string) (config : OIDCConfiguration) (w : World)
  : World :=
  {| storage := set_oidc_manifest
                  (<[cache_key authority := Json {| config := config; timestamp := clock w |}]>
                     (oidc_manifest (storage w))) (storage w);
     clock := clock w; requests := requests w |}.

(** The world with the cache entry of [authority] removed. *)
Definition without_cache (authority : string) (w : World) : World :=
  {| storage := set_oidc_manifest
                  (delete (cache_key authority) (oidc_manifest (storage w))) (storage w);
     clock := clock w; requests := requests w |}.

(** The characters of [toISOString]: digits and [- T : . Z +]. *)
Definition iso_char (c : ascii) : bool :=
  is_digit c || Ascii.eqb c "-" || Ascii.eqb c "T" || Ascii.eqb c ":"
  || Ascii.eqb c "." || Ascii.eqb c "Z" || Ascii.eqb c "+".

(** The role history as [getHistory] reads it from the store. *)
Definition stored_roles (w : World) : list RoleArnHistoryItem :=
  match aws_role_arn_history (storage w) with
  | Some (Json history) => roles history
  | _ => []
  end.

(** The second half of C8 read literally: every string that does not match
    [AWS_ROLE_ARN_PATTERN] makes [addRoleArn] throw and leaves the world as
    it is. *)
Definition rejects_every_non_matching_string : Prop :=
  forall this a w,
    AWS_ROLE_ARN_PATTERN_test a = false ->
    exists e, addRoleArn this a w = (Throw e, w).

(** No two entries of a history have the same ARN. *)
Definition unique_arns (l : list RoleArnHistoryItem) : Prop := NoDup (map arn l).

(** Most recently used first. *)
Definition recent_first (l : list RoleArnHistoryItem) : Prop :=
  StronglySorted (fun x y => lastUsed y <= lastUsed x) l.

(** The first value of a parameter in a list of name/value pairs
    ([URLSearchParams.get]). *)
Fixpoint param (key : string) (l : list (string * string)) : option string :=
  match l with
  | [] => None
  | (k, v) :: r => if bool_decide (k = key) then Some v else param key r
  end.

(** The characters of a form-urlencoded value: none of [&], [=], [?],
    [#] or the space is among them. *)
Definition form_encoded_char (c : ascii) : bool :=
  form_safe c || Ascii.eqb c "+" || Ascii.eqb c "%".

(** The request that [assumeRoleWithWebIdentity] sends to STS. *)
Definition sts_request (cfg : AWSConfig) (roleArn webIdentityToken sessionName : string)
           (durationSeconds : option Z) : Request :=
  StsAssumeRoleWithWebIdentity roleArn sessionName webIdentityToken
    (default (defaultDurationSeconds cfg) durationSeconds).

(** The history without the entries of an ARN. *)
Definition without_arn (a : string) (l : list RoleArnHistoryItem)
  : list RoleArnHistoryItem :=
  List.filter (fun role => negb (bool_decide (arn role = a))) l.

(** The entry of an ARN in a history, if any. *)
Definition entry_of (a : string) (l : list RoleArnHistoryItem)
  : option RoleArnHistoryItem :=
  find (fun role => bool_decide (arn role = a)) l.

(** The value of a character of the base64 alphabet. *)
Definition b64value (c : ascii) : N :=
  let n := JS.code c in
  (if is_upper c then n - 65
   else if is_lower c then n - 97 + 26
   else if is_digit c then n - 48 + 52
   else if n =? 43 then 62 else 63)%N.

(** A left inverse of [btoa] (what [atob] computes on the output of
    [btoa]): four characters give three code units, a padded group gives
    one or two. *)
Fixpoint decode_base64 (s : string) : string :=
  match s with
  | String c1 (String c2 (String c3 (String c4 r))) =>
      let a := ascii_of_N (b64value c1 * 4 + b64value c2 / 16) in
      let b := ascii_of_N ((b64value c2 mod 16) * 16 + b64value c3 / 4) in
      let c := ascii_of_N ((b64value c3 mod 4) * 64 + b64value c4) in
      if Ascii.eqb c3 "=" then String a EmptyString
      else if Ascii.eqb c4 "=" then String a (String b EmptyString)
      else String a (String b (String c (decode_base64 r)))
  | _ => EmptyString
  end.

(** The 256 code units. *)
Definition all_ascii : list ascii := map ascii_of_nat (seq 0 256).

End Spec.

(* ===================================================================== *)
(** ** A provider, an application and a login, for the examples *)
(* ===================================================================== *)

Module Demo.
Import JS Types Env SessionManager OidcDiscovery OAuth2Service AWSService RoleArnStorage.

Definition idp_configuration : OIDCConfiguration :=
  {| issuer := "https://idp.example";
     authorization_endpoint := "https://idp.example/authorize";
     token_endpoint := "https://idp.example/token";
     userinfo_endpoint := Some "https://idp.example/userinfo";
     end_session_endpoint := None;
     scopes_supported := Some ["openid"; "profile"];
     response_types_supported := Some ["code"];
     code_challenge_methods_supported := Some ["S256"] |}.

Definition octocat : UserInfo :=
  {| sub := Some "583231"; email := Some "octocat@github.com"; email_verified := None;
     name := Some "The Octocat"; given_name := None; family_name := None;
     preferred_username := None; picture := None; locale := None; zoneinfo := None;
     login := Some "octocat"; avatar_url := None; authenticated := None;
     ui_error := None |}.

Definition token_response (expires : option Z) : TokenResponse :=
  {| access_token := "gho_access"; refresh_token := None;
     id_token := Some "eyJhbGciOi.e30.sig"; token_type := Some "bearer";
     expires_in := expires; tr_scope := None; tr_error := None;
     error_description := None |}.

Definition sts_output : StsOutput :=
  {| out_Credentials :=
       Some {| sts_AccessKeyId := "ASIAEXAMPLE"; sts_SecretAccessKey := "secret";
               sts_SessionToken := "token"; sts_Expiration := Some 1793600880000 |};
     out_AssumedRoleUser := None |}.

(** A provider whose token responses carry [expires_in = expires] and whose
    userinfo endpoint answers when [userinfo_up] is set. *)
Definition idp (expires : option Z) (userinfo_up : bool) : Network :=
  {| fetch_openid_configuration := fun _ => Response true 200 "OK" EmptyString (inr idp_configuration);
     fetch_token := fun _ => Response true 200 "OK" EmptyString (inr (token_response expires));
     fetch_userinfo := fun _ =>
       if userinfo_up then Response true 200 "OK" EmptyString (inr octocat)
       else Response false 503 "Service Unavailable" EmptyString (inl (Error "Unexpected end of JSON input"));
     sts_send := fun _ => inr sts_output;
     elapsed := fun _ => 120 |}.

(** A provider that is down. *)
Definition offline : Network :=
  {| fetch_openid_configuration := fun _ => NetworkError (Error "Failed to fetch");
     fetch_token := fun _ => NetworkError (Error "Failed to fetch");
     fetch_userinfo := fun _ => NetworkError (Error "Failed to fetch");
     sts_send := fun _ => inl (Error "Failed to fetch");
     elapsed := fun _ => 30000 |}.

(** An authority with two code units above 255 and a trailing slash. *)
Definition wide_authority : wstring :=
  of_latin1 "https://" ++ [20363%N; 12360%N] ++ of_latin1 ".example/".

Definition app_config : OAuthConfig :=
  {| cfg_authority := "https://idp.example/"; cfg_clientId := "abc";
     cfg_scope := "openid profile"; cfg_redirectUri := None |}.

(** Monday 2 November 2026, 05:28:00 UTC. *)
Definition start : World :=
  {| storage := empty_storage; clock := 1793597280000; requests := [] |}.

Definition initialized_app : Result OIDCEndpoints * Service * World :=
  initialize new_service (idp (Some 3600) true) "https://app.example" app_config start.

Definition app : Service := snd (fst initialized_app).

(** The store after [login()] wrote its verifier and state. *)
Definition pending_login : World :=
  let w0 := snd initialized_app in
  let w1 := snd (storePKCEVerifier "dBjftJeZ4CVP-mB92K27uhbUJU1p1r_wW1gFWFOEjXk" w0) in
  snd (storeOAuthState "af0ifjsldkj" w1).

(** [login()] with the bytes 0..31 for the verifier and 0..15 for the
    state: where the browser is sent, and the store it leaves. *)
Definition login_navigation : Navigation :=
  match fst (loginFlow app (fun _ => true) (map Z.of_nat (seq 0 32))
               (map Z.of_nat (seq 0 16)) (snd initialized_app)) with
  | Ok nav => nav
  | Throw _ => {| nav_url := EmptyString; nav_params := [] |}
  end.

Definition after_login : World :=
  snd (loginFlow app (fun _ => true) (map Z.of_nat (seq 0 32))
         (map Z.of_nat (seq 0 16)) (snd initialized_app)).

(** The page the provider sends the browser back to: the application is
    loaded again and its service initialized anew, this time with the
    address of the callback page as redirect URI. *)
Definition callback_load : Result OIDCEndpoints * Service * World :=
  initialize new_service (idp (Some 3600) true) "https://app.example"
    {| cfg_authority := "https://idp.example/"; cfg_clientId := "abc";
       cfg_scope := "openid profile";
       cfg_redirectUri :=
         Some "https://app.example/?code=xyz&state=AAECAwQFBgcICQoLDA0ODw" |}
    after_login.

Definition callback_app : Service := snd (fst callback_load).

Definition callback_page : World := snd callback_load.

(** A provider that also names an end-session endpoint, and the application
    initialized against it. *)
Definition sso_configuration : OIDCConfiguration :=
  {| issuer := "https://idp.example";
     authorization_endpoint := "https://idp.example/authorize";
     token_endpoint := "https://idp.example/token";
     userinfo_endpoint := Some "https://idp.example/userinfo";
     end_session_endpoint := Some "https://idp.example/logout";
     scopes_supported := Some ["openid"; "profile"];
     response_types_supported := Some ["code"];
     code_challenge_methods_supported := Some ["S256"] |}.

Definition sso : Network :=
  {| fetch_openid_configuration :=
       fun _ => Response true 200 "OK" EmptyString (inr sso_configuration);
     fetch_token := fetch_token (idp (Some 3600) true);
     fetch_userinfo := fetch_userinfo (idp (Some 3600) true);
     sts_send := sts_send (idp (Some 3600) true);
     elapsed := elapsed (idp (Some 3600) true) |}.

Definition sso_app : Service :=
  snd (fst (initialize new_service sso "https://app.example" app_config start)).

Definition my_role : string := "arn:aws:iam::123456789012:role/MyRole".

(** An export edited by hand: the same role twice. *)
Definition duplicated_import : list RoleArnHistoryItem :=
  [ {| arn := my_role; role_name := "MyRole"; accountId := "123456789012";
       lastUsed := 1793597280000; useCount := 3 |};
    {| arn := my_role; role_name := "MyRole"; accountId := "123456789012";
       lastUsed := 1793510880000; useCount := 1 |} ].

(** A [JSON.parse] that reads the text of that export, abbreviated here to
    ["duplicated"], and rejects every other text. *)
Definition parse_duplicated (text : string) : JsError + ImportedHistory :=
  if bool_decide (text = "duplicated")
  then inr {| imp_roles := Some duplicated_import |}
  else inl {| err_name := "SyntaxError"; message := "Unexpected token"; code := None |}.

(** A session as [handleCallback] builds it, created at [created]. *)
Definition a_session (created : Z) : AuthSession :=
  {| accessToken := "gho_access"; refreshToken := None;
     idToken := Some "eyJhbGciOi.e30.sig"; tokenType := "bearer";
     scope := "openid profile"; expiresAt := 1793600880000; createdAt := created;
     user := octocat |}.

(** The store of a signed-in user. *)
Definition signed_in : World :=
  {| storage := set_auth_session (Some (Json (a_session 1793597280000))) empty_storage;
     clock := 1793597300000; requests := [] |}.

(** The callback of [pending_login] as the provider answers it. *)
Definition callback_result : UserInfo * AuthSession :=
  match fst (handleCallback app (idp (Some 3600) true) "xyz" "af0ifjsldkj" pending_login) with
  | Ok result => result
  | Throw _ => (octocat, a_session 0)
  end.

(** The federation endpoint, answering with a sign-in token. *)
Definition signin (rq : Request) : FetchResult AWSConsoleFederationResponse :=
  Response true 200 "OK" EmptyString (inr {| SigninToken := "Vx3-Tok/en=" |}).

Definition temporary_credentials : AWSCredentials :=
  {| AccessKeyId := "ASIAEXAMPLE"; SecretAccessKey := "secret";
     SessionToken := "token"; Expiration := 1793600880000 |}.

(** STS refusing the role. *)
Definition sts_denied : Network :=
  {| fetch_openid_configuration := fetch_openid_configuration offline;
     fetch_token := fetch_token offline;
     fetch_userinfo := fetch_userinfo offline;
     sts_send := fun _ =>
       inl {| err_name := "AccessDenied";
              message := "Not authorized to perform sts:AssumeRoleWithWebIdentity";
              code := None |};
     elapsed := fun _ => 80 |}.

(** A history that holds [my_role], used three times. *)
Definition with_my_role : World :=
  {| storage :=
       set_aws_role_arn_history
         (Some (Json {| roles := [ {| arn := my_role; role_name := "MyRole";
                                      accountId := "123456789012";
                                      lastUsed := 1793510880000; useCount := 3 |} ];
                        maxItems := 10 |}))
         empty_storage;
     clock := 1793597280000; requests := [] |}.

End Demo.

(* ===================================================================== *)
(** ** Properties *)
(* ===================================================================== *)

Import JS.

Example sha256_constants :
  nth 0 K256 0 = 0x428a2f98 /\ nth 63 K256 0 = 0xc67178f2 /\ length K256 = 64%nat /\
  ha H0 = 0x6a09e667 /\ hh H0 = 0x5be0cd19.
Proof. repeat split. Qed.

Example sha256_abc :
  sha256 (utf8_encode "abc") =
  [186; 120; 22; 191; 143; 1; 207; 234; 65; 65; 64; 222; 93; 174; 34; 35;
   176; 3; 97; 163; 150; 23; 122; 156; 180; 16; 255; 97; 242; 0; 21; 173].
Proof. vm_compute. reflexivity. Qed.

Example generateCodeChallenge_rfc7636 :
  PkceUtils.generateCodeChallenge "dBjftJeZ4CVP-mB92K27uhbUJU1p1r_wW1gFWFOEjXk"
  = "E9Melhoa2OwvFrEMTJguCHaoeK1t8URWbuGJSstw-cM"%string.
Proof. vm_compute. reflexivity. Qed.

Example btoa_examples :
  btoa "hello" = "aGVsbG8="%string /\ btoa "hi" = "aGk="%string /\
  btoa "a" = "YQ=="%string /\ btoa (fromCharCode [255; 254; 253]) = "//79"%string /\
  OidcDiscovery.cache_key "https://idp.example"
  = "oidc-manifest-aHR0cHM6Ly9pZHAuZXhhbXBsZQ=="%string.
Proof. vm_compute. repeat split. Qed.

Example generateCodeVerifier_example :
  PkceUtils.generateCodeVerifier (map Z.of_nat (seq 0 32))
  = "AAECAwQFBgcICQoLDA0ODxAREhMUFRYXGBkaGxwdHh8"%string.
Proof. reflexivity. Qed.

Example trim_examples :
  trim "  arn:aws:iam::123456789012:role/MyRole
" = "arn:aws:iam::123456789012:role/MyRole"%string /\
  trim "not an arn" = "not an arn"%string /\
  OidcDiscovery.strip_trailing_slash "https://idp.example/" = "https://idp.example"%string /\
  OidcDiscovery.strip_trailing_slash "https://idp.example" = "https://idp.example"%string.
Proof. repeat split. Qed.

Example toISOString_examples :
  toISOString 0 = "1970-01-01T00:00:00.000Z"%string /\
  toISOString 1793597280123 = "2026-11-02T05:28:00.123Z"%string /\
  toISOString 951782400000 = "2000-02-29T00:00:00.000Z"%string /\
  toISOString (-1) = "1969-12-31T23:59:59.999Z"%string /\
  toISOString 8640000000000000 = "+275760-09-13T00:00:00.000Z"%string /\
  toISOString (-62198755200000) = "-000001-01-01T00:00:00.000Z"%string.
Proof. repeat split. Qed.

Example role_arn_pattern_examples :
  Types.AWS_ROLE_ARN_PATTERN_test "arn:aws:iam::123456789012:role/MyRole" = true /\
  Types.AWS_ROLE_ARN_PATTERN_test "arn:aws:iam::12345678901:role/MyRole" = false /\
  Types.AWS_ROLE_ARN_PATTERN_test "arn:aws:iam::1234567890123:role/MyRole" = false /\
  Types.AWS_ROLE_ARN_PATTERN_test "arn:aws:iam::123456789012:role/" = false /\
  Types.AWS_ROLE_ARN_PATTERN_test "arn:aws:iam::123456789012:role/path/MyRole" = false /\
  Types.AWS_ROLE_ARN_PATTERN_test "arn:aws:iam::123456789012:user/Me" = false /\
  Types.AWS_ROLE_ARN_PATTERN_test "not-an-arn" = false.
Proof. repeat split. Qed.

(* --------------------------------------------------------------------- *)
(** *** Strings *)

Lemma str_app_nil t : EmptyString +:+ t = t.
Proof. reflexivity. Qed.

Lemma str_app_cons c r t : String c r +:+ t = String c (r +:+ t).
Proof. reflexivity. Qed.

Lemma str_map_length f s : String.length (str_map f s) = String.length s.
Proof. induction s as [|c r IH]; simpl; congruence. Qed.

Lemma str_map_app f s t : str_map f (s +:+ t) = str_map f s +:+ str_map f t.
Proof.
  induction s as [|c r IH]; simpl; [reflexivity|].
  rewrite ?str_app_cons; simpl; congruence.
Qed.

Lemma str_filter_app p s t :
  str_filter p (s +:+ t) = str_filter p s +:+ str_filter p t.
Proof.
  induction s as [|c r IH]; simpl; [reflexivity|].
  rewrite ?str_app_cons; simpl; destruct (p c); rewrite ?str_app_cons; congruence.
Qed.

Lemma str_all_app p s t : str_all p (s +:+ t) = str_all p s && str_all p t.
Proof.
  induction s as [|c r IH]; simpl; [reflexivity|].
  rewrite ?str_app_cons; simpl; rewrite IH; apply andb_assoc.
Qed.

Lemma str_all_impl (p q : ascii -> bool) s :
  (forall c, p c = true -> q c = true) -> str_all p s = true -> str_all q s = true.
Proof.
  intros Hpq. induction s as [|c r IH]; simpl; [reflexivity|].
  rewrite !andb_true_iff. intros [Hc Hr]. split; auto.
Qed.

Lemma str_filter_all p s : str_all p s = true -> str_filter p s = s.
Proof.
  induction s as [|c r IH]; simpl; [reflexivity|].
  rewrite andb_true_iff. intros [Hc Hr]. rewrite Hc, IH; auto.
Qed.

Lemma str_all_map p f s : str_all p (str_map f s) = str_all (fun c => p (f c)) s.
Proof. induction s as [|c r IH]; simpl; congruence. Qed.

Lemma str_all_filter p q s :
  (forall c, q c = true -> p c = true) -> str_all p (str_filter q s) = true.
Proof.
  intros Hqp. induction s as [|c r IH]; simpl; [reflexivity|].
  destruct (q c) eqn:E; simpl; [rewrite (Hqp _ E)|]; auto.
Qed.

Lemma app_length_str s t :
  String.length (s +:+ t) = (String.length s + String.length t)%nat.
Proof.
  induction s as [|c r IH]; [reflexivity|].
  rewrite ?str_app_cons; simpl; congruence.
Qed.

Lemma fromCharCode_length l : String.length (fromCharCode l) = length l.
Proof. induction l as [|b r IH]; simpl; congruence. Qed.

(* --------------------------------------------------------------------- *)
(** *** Base64 *)

Lemma code_ascii_of_N n : (n < 256)%N -> code (ascii_of_N n) = n.
Proof. apply N_ascii_embedding. Qed.

Lemma b64char_alphabet n : is_b64_char (b64char n) = true.
Proof.
  unfold b64char.
  destruct (N.ltb_spec n 26); [|destruct (N.ltb_spec n 52); [|destruct (N.ltb_spec n 62);
    [|destruct (N.eqb_spec n 62)]]]; try reflexivity.
  - unfold is_b64_char, is_alnum, is_upper. rewrite code_ascii_of_N by lia.
    replace (65 <=? 65 + n)%N with true by (symmetry; apply N.leb_le; lia).
    replace (65 + n <=? 90)%N with true by (symmetry; apply N.leb_le; lia).
    simpl. now rewrite orb_true_r.
  - unfold is_b64_char, is_alnum, is_lower. rewrite code_ascii_of_N by lia.
    replace (97 <=? 97 + (n - 26))%N with true by (symmetry; apply N.leb_le; lia).
    replace (97 + (n - 26) <=? 122)%N with true by (symmetry; apply N.leb_le; lia).
    simpl. now rewrite !orb_true_r.
  - unfold is_b64_char, is_alnum, is_digit. rewrite code_ascii_of_N by lia.
    replace (48 <=? 48 + (n - 52))%N with true by (symmetry; apply N.leb_le; lia).
    replace (48 + (n - 52) <=? 57)%N with true by (symmetry; apply N.leb_le; lia).
    reflexivity.
Qed.

(** Input of length [3n+2]: [4n+3] alphabet characters and one ['=']. *)
Lemma btoa_two_left n : forall s,
  String.length s = (3 * n + 2)%nat ->
  exists cs, btoa s = cs +:+ "=" /\ String.length cs = (4 * n + 3)%nat /\
             str_all is_b64_char cs = true.
Proof.
  induction n as [|n IH]; intros s Hlen.
  - destruct s as [|a [|b [|c r]]]; simpl in Hlen; try lia.
    eexists (String _ (String _ (String _ EmptyString))). simpl.
    split; [reflexivity|]. split; [reflexivity|].
    now rewrite !b64char_alphabet.
  - destruct s as [|a [|b [|c r]]]; simpl in Hlen; try lia.
    destruct (IH r) as (cs & Hcs & Hl & Hall); [lia|].
    destruct r as [|d r']; [simpl in Hlen; lia|].
    exists (String (b64char (sextet1 (code a)))
        (String (b64char (sextet2 (code a) (code b)))
           (String (b64char (sextet3 (code b) (code c)))
              (String (b64char (sextet4 (code c))) cs)))).
    split; [|split].
    + change (btoa (String a (String b (String c (String d r')))))
        with (String (b64char (sextet1 (code a)))
               (String (b64char (sextet2 (code a) (code b)))
                 (String (b64char (sextet3 (code b) (code c)))
                   (String (b64char (sextet4 (code c))) (btoa (String d r')))))).
      rewrite Hcs. reflexivity.
    + simpl. lia.
    + simpl. now rewrite !b64char_alphabet, Hall.
Qed.

(** The three replacements leave none of ['+'], ['/'], ['=']. *)
Lemma base64url_no_reserved s : str_all not_plus_slash_eq (base64url s) = true.
Proof.
  unfold base64url, remove_char, replace_char.
  induction s as [|c r IH]; simpl; [reflexivity|].
  destruct (Ascii.eqb_spec c "+") as [->|Hp]; simpl; [exact IH|].
  destruct (Ascii.eqb_spec c "/") as [->|Hs]; simpl; [exact IH|].
  destruct (Ascii.eqb_spec c "=") as [->|He]; simpl; [exact IH|].
  unfold not_plus_slash_eq at 1.
  destruct (Ascii.eqb_spec c "+"), (Ascii.eqb_spec c "/"), (Ascii.eqb_spec c "=");
    try contradiction.
  exact IH.
Qed.

Lemma base64url_app s t : base64url (s +:+ t) = base64url s +:+ base64url t.
Proof.
  unfold base64url, remove_char, replace_char.
  now rewrite !str_map_app, str_filter_app.
Qed.

Lemma is_alnum_not_reserved c :
  is_alnum c = true -> c <> "+"%char /\ c <> "/"%char /\ c <> "="%char.
Proof.
  intros H. repeat split; intros ->; vm_compute in H; discriminate.
Qed.

Lemma base64url_alphabet cs :
  str_all is_b64_char cs = true ->
  String.length (base64url cs) = String.length cs /\
  str_all is_base64url_char (base64url cs) = true.
Proof.
  unfold base64url, remove_char, replace_char.
  induction cs as [|c r IH]; simpl; [auto|].
  rewrite andb_true_iff. intros [Hc Hr]. destruct (IH Hr) as [IHl IHa].
  unfold is_b64_char in Hc.
  destruct (Ascii.eqb_spec c "+") as [->|Hp]; [simpl; rewrite IHl, IHa; auto|].
  destruct (Ascii.eqb_spec c "/") as [->|Hs]; [simpl; rewrite IHl, IHa; auto|].
  rewrite !orb_false_r in Hc.
  destruct (is_alnum_not_reserved c Hc) as (_ & _ & He).
  destruct (Ascii.eqb_spec c "="); [contradiction|]. simpl.
  rewrite IHl, IHa. unfold is_base64url_char. rewrite Hc. auto.
Qed.

Lemma sha256_length msg : length (sha256 msg) = 32%nat.
Proof. reflexivity. Qed.

(* --------------------------------------------------------------------- *)
(** *** pkceUtils *)

(** C5. [generateCodeChallenge(v)] is a function of [v] alone (two runs on
    the same verifier give the same challenge), and for every verifier its
    output has exactly 43 characters, all of them in the base64url alphabet
    [A-Za-z0-9-_], so none of them is ['+'], ['/'] or ['=']. *)
Theorem generateCodeChallenge_deterministic_43_base64url :
  (forall v v' : string,
      v = v' -> PkceUtils.generateCodeChallenge v = PkceUtils.generateCodeChallenge v') /\
  (forall v : string,
      String.length (PkceUtils.generateCodeChallenge v) = 43%nat /\
      str_all is_base64url_char (PkceUtils.generateCodeChallenge v) = true /\
      str_all not_plus_slash_eq (PkceUtils.generateCodeChallenge v) = true).
Proof.
  split; [intros v v' ->; reflexivity|].
  intros v. unfold PkceUtils.generateCodeChallenge.
  destruct (btoa_two_left 10 (fromCharCode (sha256 (utf8_encode v)))) as (cs & Hcs & Hl & Hall).
  { rewrite fromCharCode_length. apply sha256_length. }
  destruct (base64url_alphabet cs Hall) as [Hlen Halpha].
  split; [|split].
  - rewrite Hcs, base64url_app. change (base64url "=") with EmptyString.
    rewrite app_length_str, Hlen, Hl. reflexivity.
  - rewrite Hcs, base64url_app. change (base64url "=") with EmptyString.
    rewrite str_all_app, Halpha. reflexivity.
  - apply base64url_no_reserved.
Qed.

(* --------------------------------------------------------------------- *)
(** *** Running computations *)

Import Types Env SessionManager OidcDiscovery OAuth2Service AWSService RoleArnStorage Spec.

Ltac unfold_monad :=
  unfold bind, try_catch, ret, throw, Date_now, get_storage, modify_storage,
    fetch, send in *.

Ltac run_step :=
  match goal with
  | H : (_, _) = (_, _) |- _ => inversion H; clear H; subst
  | H : Ok _ = Ok _ |- _ => inversion H; clear H; subst
  | H : Throw _ = Throw _ |- _ => inversion H; clear H; subst
  | H : Ok _ = Throw _ |- _ => discriminate H
  | H : Throw _ = Ok _ |- _ => discriminate H
  | H : context [match ?x with _ => _ end] |- _ => destruct x eqn:?
  | |- context [match ?x with _ => _ end] => destruct x eqn:?
  end.

Ltac run := unfold_monad; repeat (simpl in *; run_step); simpl in *.

Lemma truthy_opt_false (o : option string) :
  truthy_opt o = false -> o = None \/ o = Some EmptyString.
Proof. destruct o as [[|c s]|]; simpl; intros; (discriminate || auto). Qed.


(** [retrieveOAuthState] and [retrievePKCEVerifier] return what is stored and
    leave nothing truthy behind. *)
Lemma retrieveOAuthState_spec w :
  exists w',
    retrieveOAuthState w = (Ok (oauth_state (storage w)), w') /\
    truthy_opt (oauth_state (storage w')) = false /\
    (oauth_state (storage w) <> Some EmptyString -> oauth_state (storage w') = None) /\
    pkce_verifier (storage w') = pkce_verifier (storage w) /\
    requests w' = requests w /\ clock w' = clock w.
Proof.
  unfold retrieveOAuthState. unfold_monad. simpl.
  destruct (truthy_opt (oauth_state (storage w))) eqn:E; simpl.
  - eexists; split; [reflexivity|]. simpl. tauto.
  - eexists; split; [reflexivity|]. simpl. repeat split; auto.
    destruct (truthy_opt_false _ E); congruence.
Qed.

Lemma retrievePKCEVerifier_spec w :
  exists w',
    retrievePKCEVerifier w = (Ok (pkce_verifier (storage w)), w') /\
    truthy_opt (pkce_verifier (storage w')) = false /\
    (pkce_verifier (storage w) <> Some EmptyString -> pkce_verifier (storage w') = None) /\
    oauth_state (storage w') = oauth_state (storage w) /\
    requests w' = requests w /\ clock w' = clock w.
Proof.
  unfold retrievePKCEVerifier. unfold_monad. simpl.
  destruct (truthy_opt (pkce_verifier (storage w))) eqn:E; simpl.
  - eexists; split; [reflexivity|]. simpl. tauto.
  - eexists; split; [reflexivity|]. simpl. repeat split; auto.
    destruct (truthy_opt_false _ E); congruence.
Qed.

(* --------------------------------------------------------------------- *)
(** *** oauth2Service: [initialize] *)

(** A successful [initialize] leaves the service ready, with the endpoints
    it returns. *)
Lemma initialize_ready svc net origin config w endpoints svc' w' :
  initialize svc net origin config w = (Ok endpoints, svc', w') ->
  ready svc' /\ svc_endpoints svc' = Some endpoints.
Proof.
  unfold initialize, ready.
  destruct (wtruthy (cfg_authority config)), (truthy (cfg_clientId config)),
    (truthy (cfg_scope config)) eqn:Hscope; simpl; try discriminate.
  destruct (discoverOIDCEndpoints net _ w) as [[eps|e] w1]; [|discriminate].
  intros H. inversion H; subst. simpl. rewrite Hscope. repeat split; eauto.
Qed.

(** A ready service stays ready whatever a later [initialize] does. *)
Lemma initialize_keeps_ready svc net origin config w r svc' w' :
  ready svc ->
  initialize svc net origin config w = (r, svc', w') ->
  ready svc'.
Proof.
  unfold initialize, ready. intros (Hi & He & Hc & Hr & Hs).
  destruct (wtruthy (cfg_authority config)), (truthy (cfg_clientId config)),
    (truthy (cfg_scope config)) eqn:Hscope; simpl;
    try (intros H; inversion H; subst; tauto).
  destruct (discoverOIDCEndpoints net _ w) as [[eps|e] w1];
    intros H; inversion H; subst; simpl; rewrite Hscope; repeat split; eauto.
Qed.

Example app_is_ready :
  ready Demo.app /\
  svc_endpoints Demo.app = Some (extract_endpoints Demo.idp_configuration) /\
  svc_authority Demo.app = Some (of_latin1 "https://idp.example") /\
  requests (snd Demo.initialized_app) =
    [HttpRequest "GET" "https://idp.example/.well-known/openid-configuration"
       [("Accept", "application/json")] []]%string.
Proof. vm_compute. repeat split; eauto. Qed.

(** Without the required fields [initialize] fails before any request. *)
Lemma initialize_requires_fields svc net origin config w :
  wtruthy (cfg_authority config) = false \/ truthy (cfg_clientId config) = false \/
  truthy (cfg_scope config) = false ->
  exists e, initialize svc net origin config w = (Throw e, svc, w).
Proof.
  unfold initialize. intros [H | [H | H]]; rewrite H; simpl; rewrite ?orb_true_r; simpl; eauto.
Qed.

(* --------------------------------------------------------------------- *)
(** *** oauth2Service: [handleCallback] *)

Lemma keeps_pkce_bind {A B} (m : M A) (k : A -> M B) :
  keeps_pkce m -> (forall a, keeps_pkce (k a)) -> keeps_pkce (bind m k).
Proof.
  intros Hm Hk w r w'. unfold bind.
  destruct (m w) as [[a|e] w1] eqn:E; intros H.
  - destruct (Hm _ _ _ E) as [H1 H2]. destruct (Hk _ _ _ _ H) as [H3 H4].
    split; congruence.
  - inversion H; subst. eapply Hm; eauto.
Qed.

Lemma keeps_pkce_try {A} (m : M A) (h : JsError -> M A) :
  keeps_pkce m -> (forall e, keeps_pkce (h e)) -> keeps_pkce (try_catch m h).
Proof.
  intros Hm Hh w r w'. unfold try_catch.
  destruct (m w) as [[a|e] w1] eqn:E; intros H.
  - inversion H; subst. eapply Hm; eauto.
  - destruct (Hm _ _ _ E) as [H1 H2]. destruct (Hh _ _ _ _ H) as [H3 H4].
    split; congruence.
Qed.

Lemma keeps_pkce_ret {A} (a : A) : keeps_pkce (ret a).
Proof. intros w r w' H. inversion H; subst. auto. Qed.

Lemma keeps_pkce_throw {A} e : keeps_pkce (@throw A e).
Proof. intros w r w' H. inversion H; subst. auto. Qed.

Lemma keeps_pkce_now : keeps_pkce Date_now.
Proof. intros w r w' H. inversion H; subst. auto. Qed.

Lemma keeps_pkce_send {A} delay (server : Request -> A) rq :
  keeps_pkce (send delay server rq).
Proof. intros w r w' H. inversion H; subst. auto. Qed.

Lemma keeps_pkce_non_null {A} (o : option A) : keeps_pkce (non_null o).
Proof. destruct o; [apply keeps_pkce_ret | apply keeps_pkce_throw]. Qed.

Lemma keeps_pkce_set_session v :
  keeps_pkce (modify_storage (set_auth_session v)).
Proof. intros w r w' H. inversion H; subst. auto. Qed.

Create HintDb keeps discriminated.
#[local] Hint Resolve keeps_pkce_ret keeps_pkce_throw keeps_pkce_now
  keeps_pkce_send keeps_pkce_non_null keeps_pkce_set_session : keeps.

Ltac keeps :=
  repeat match goal with
    | |- keeps_pkce (bind _ _) => apply keeps_pkce_bind; [|intro]
    | |- keeps_pkce (try_catch _ _) => apply keeps_pkce_try; [|intro]
    | |- keeps_pkce (match ?x with _ => _ end) => destruct x
    | |- keeps_pkce _ => solve [auto with keeps]
    end.

Lemma keeps_pkce_storeSession s : keeps_pkce (storeSession s).
Proof. unfold storeSession. keeps. Qed.

Lemma keeps_pkce_exchange svc net code verifier :
  keeps_pkce (exchangeCodeForTokens svc net code verifier).
Proof. unfold exchangeCodeForTokens, fetch. keeps. Qed.

Lemma keeps_pkce_fetchUserInfo svc net token :
  keeps_pkce (fetchUserInfo svc net token).
Proof. unfold fetchUserInfo, fetch. keeps. Qed.

#[local] Hint Resolve keeps_pkce_storeSession keeps_pkce_exchange
  keeps_pkce_fetchUserInfo : keeps.

Lemma keeps_pkce_complete svc net code verifier :
  keeps_pkce (complete_callback svc net code verifier).
Proof. unfold complete_callback. keeps. Qed.

Lemma callback_failed_spec error w :
  exists w',
    callback_failed error w =
      (Throw (Error ("Callback handling failed: " +:+ message error)), w') /\
    truthy_opt (pkce_verifier (storage w')) = false /\
    truthy_opt (oauth_state (storage w')) = false /\
    (pkce_verifier (storage w) <> Some EmptyString -> pkce_verifier (storage w') = None) /\
    (oauth_state (storage w) <> Some EmptyString -> oauth_state (storage w') = None) /\
    requests w' = requests w.
Proof.
  unfold callback_failed, bind.
  destruct (retrievePKCEVerifier_spec w) as (w1 & -> & Hv & Hv' & Hs & Hr & _).
  destruct (retrieveOAuthState_spec w1) as (w2 & -> & Hs2 & Hs2' & Hv2 & Hr2 & _).
  exists w2. unfold throw. split; [reflexivity|].
  rewrite Hv2, Hr2, Hr. repeat split; auto.
  intros H. apply Hs2'. congruence.
Qed.

(** [handleCallback], by cases on what is stored. *)
Lemma handleCallback_unfold svc net code state w :
  initialized svc = true ->
  handleCallback svc net code state w =
  let '(_, w1) := retrieveOAuthState w in
  if negb (truthy_opt (oauth_state (storage w)))
     || negb (bool_decide (oauth_state (storage w) = Some state))
  then callback_failed (Error "Invalid state parameter - possible CSRF attack") w1
  else
    let '(_, w2) := retrievePKCEVerifier w1 in
    if negb (truthy_opt (pkce_verifier (storage w1)))
    then callback_failed (Error "PKCE code verifier not found") w2
    else
      match complete_callback svc net code (default EmptyString (pkce_verifier (storage w1))) w2 with
      | (Ok a, w3) => (Ok a, w3)
      | (Throw e, w3) => callback_failed e w3
      end.
Proof.
  intros Hinit. unfold handleCallback, ensureInitialized. rewrite Hinit. simpl.
  unfold bind at 1. unfold ret at 1. unfold try_catch. unfold bind at 1.
  destruct (retrieveOAuthState_spec w) as (w1 & -> & _).
  destruct (negb (truthy_opt (oauth_state (storage w)))
            || negb (bool_decide (oauth_state (storage w) = Some state))) eqn:E.
  - unfold throw at 1. reflexivity.
  - unfold bind at 1.
    destruct (retrievePKCEVerifier_spec w1) as (w2 & -> & _).
    destruct (negb (truthy_opt (pkce_verifier (storage w1)))) eqn:E2.
    + unfold throw at 1. reflexivity.
    + reflexivity.
Qed.

(** A callback whose state is not the stored one is refused before any
    request is sent. *)
Lemma handleCallback_mismatch svc net code state w :
  initialized svc = true ->
  oauth_state (storage w) <> Some state \/ truthy_opt (oauth_state (storage w)) = false ->
  exists w',
    handleCallback svc net code state w = (Throw csrf_error, w') /\
    requests w' = requests w /\
    truthy_opt (pkce_verifier (storage w')) = false /\
    truthy_opt (oauth_state (storage w')) = false /\
    (pkce_verifier (storage w) <> Some EmptyString -> pkce_verifier (storage w') = None) /\
    (oauth_state (storage w) <> Some EmptyString -> oauth_state (storage w') = None).
Proof.
  intros Hinit Hne. rewrite handleCallback_unfold by assumption.
  destruct (retrieveOAuthState_spec w) as (w1 & -> & Hs1 & Hs1' & Hv1 & Hr1 & _).
  assert (negb (truthy_opt (oauth_state (storage w)))
          || negb (bool_decide (oauth_state (storage w) = Some state)) = true) as ->.
  { destruct Hne as [Hne| ->]; [|reflexivity].
    rewrite bool_decide_eq_false_2 by assumption. apply orb_true_r. }
  destruct (callback_failed_spec (Error "Invalid state parameter - possible CSRF attack") w1)
    as (w2 & -> & Hv2 & Hs2 & Hv2' & Hs2' & Hr2).
  exists w2. split; [reflexivity|]. rewrite Hr2, Hr1. repeat split; auto.
  - intros H. apply Hv2'. congruence.
  - intros H. apply Hs2'. rewrite (Hs1' H). discriminate.
Qed.

(** Whatever the outcome, nothing truthy is left of the pair. *)
Lemma handleCallback_purges svc net code state w r w' :
  initialized svc = true ->
  handleCallback svc net code state w = (r, w') ->
  truthy_opt (pkce_verifier (storage w')) = false /\
  truthy_opt (oauth_state (storage w')) = false /\
  (pkce_verifier (storage w) <> Some EmptyString ->
   oauth_state (storage w) <> Some EmptyString ->
   pkce_verifier (storage w') = None /\ oauth_state (storage w') = None).
Proof.
  intros Hinit Hrun.
  destruct (negb (truthy_opt (oauth_state (storage w)))
            || negb (bool_decide (oauth_state (storage w) = Some state))) eqn:E.
  - destruct (handleCallback_mismatch svc net code state w Hinit)
      as (w2 & Heq & _ & Hv & Hs & Hv' & Hs').
    { apply orb_true_iff in E as [E|E].
      - right. now apply negb_true_iff in E.
      - left. apply negb_true_iff in E. now apply bool_decide_eq_false in E. }
    rewrite Heq in Hrun. inversion Hrun; subst. auto.
  - rewrite handleCallback_unfold in Hrun by assumption. rewrite E in Hrun.
    apply orb_false_iff in E as [E1 E2]. apply negb_false_iff in E1.
    destruct (retrieveOAuthState_spec w) as (w1 & Hw1 & Hs1 & Hs1' & Hv1 & Hr1 & _).
    rewrite Hw1 in Hrun.
    destruct (retrievePKCEVerifier_spec w1) as (w2 & Hw2 & Hv2 & Hv2' & Hs2 & Hr2 & _).
    rewrite Hw2 in Hrun.
    assert (oauth_state (storage w1) = None) as Hs1n.
    { apply Hs1'. intros H. rewrite H in E1. discriminate. }
    destruct (negb (truthy_opt (pkce_verifier (storage w1)))) eqn:E3.
    + destruct (callback_failed_spec (Error "PKCE code verifier not found") w2)
        as (w3 & Hw3 & Hv3 & Hs3 & Hv3' & Hs3' & _).
      rewrite Hw3 in Hrun. inversion Hrun; subst. repeat split; auto.
      * apply Hv3'. rewrite Hv2'; [discriminate|congruence].
      * apply Hs3'. rewrite Hs2, Hs1n. discriminate.
    + apply negb_false_iff in E3.
      assert (pkce_verifier (storage w2) = None) as Hv2n.
      { apply Hv2'. intros H. rewrite H in E3. discriminate. }
      destruct (complete_callback svc net code (default EmptyString (pkce_verifier (storage w1))) w2)
        as [[a|e] w3] eqn:Ec;
        destruct (keeps_pkce_complete _ _ _ _ _ _ _ Ec) as [Hk1 Hk2].
      * inversion Hrun; subst. rewrite Hk1, Hk2, Hv2n, Hs2, Hs1n. auto.
      * destruct (callback_failed_spec e w3) as (w4 & Hw4 & Hv4 & Hs4 & Hv4' & Hs4' & _).
        rewrite Hw4 in Hrun. inversion Hrun; subst. repeat split; auto.
        -- apply Hv4'. rewrite Hk1, Hv2n. discriminate.
        -- apply Hs4'. rewrite Hk2, Hs2, Hs1n. discriminate.
Qed.

(** C1 as worded, read on the services that satisfy [P]: a state that
    differs from the stored one is answered by the CSRF error without a
    request, and on every outcome nothing usable is left of the stored
    verifier and state. It fails when [P] admits a service that is not
    initialized: [ensureInitialized] throws before the [try] block, so the
    error is not the CSRF error and the verifier and the state stay in the
    store, where a later callback finds them. *)
Lemma csrf_and_purge_uninitialized_fails : ~ csrf_and_purge_on (fun _ => True).
Proof.
  intros Hclaim.
  assert (handleCallback new_service Demo.offline "xyz" "forged" Demo.pending_login
          = (Throw not_initialized, Demo.pending_login)) as Hrun by reflexivity.
  destruct (Hclaim new_service Demo.offline "xyz"%string "forged"%string
              Demo.pending_login _ _ I Hrun) as (Hcsrf & Hverifier & Hstate).
  vm_compute in Hverifier. discriminate.
Qed.

(** C1, amended. With the service initialized, [handleCallback(code, state)]
    rejects with the CSRF error whenever the supplied state is not the
    stored one (or none is stored), and then sends no request. On every
    outcome, match or mismatch, nothing usable is left of the stored
    verifier and state: what remains under the two keys is falsy, and the
    keys are absent altogether when the store held no empty string under
    them (the store functions refuse to write one). So any later
    [handleCallback] is refused with the CSRF error, again without a
    request. A service that is not initialized refuses every callback with
    the not-initialized error and leaves the store, the verifier and the
    state included, as it is. *)
Theorem handleCallback_csrf_and_single_use svc net code state w r w' :
  initialized svc = true ->
  handleCallback svc net code state w = (r, w') ->
  (oauth_state (storage w) <> Some state ->
   r = Throw csrf_error /\ requests w' = requests w) /\
  truthy_opt (pkce_verifier (storage w')) = false /\
  truthy_opt (oauth_state (storage w')) = false /\
  (pkce_verifier (storage w) <> Some EmptyString ->
   oauth_state (storage w) <> Some EmptyString ->
   pkce_verifier (storage w') = None /\ oauth_state (storage w') = None) /\
  (forall net' code' state', exists w'',
      handleCallback svc net' code' state' w' = (Throw csrf_error, w'') /\
      requests w'' = requests w') /\
  (forall svc0 net0 code0 state0 w0,
      initialized svc0 = false ->
      handleCallback svc0 net0 code0 state0 w0 = (Throw not_initialized, w0)).
Proof.
  intros Hinit Hrun.
  destruct (handleCallback_purges _ _ _ _ _ _ _ Hinit Hrun) as (Hpv & Hps & Hnone).
  split; [|split; [assumption|split; [assumption|split; [assumption|split]]]].
  - intros Hne.
    destruct (handleCallback_mismatch svc net code state w Hinit (or_introl Hne))
      as (w2 & Heq & Hr & _).
    rewrite Heq in Hrun. inversion Hrun; subst. auto.
  - intros net' code' state'.
    destruct (handleCallback_mismatch svc net' code' state' w' Hinit (or_intror Hps))
      as (w2 & Heq & Hr & _).
    exists w2. auto.
  - intros svc0 net0 code0 state0 w0 Hnot.
    unfold handleCallback, ensureInitialized. rewrite Hnot. reflexivity.
Qed.

(** The store functions never write an empty verifier or state. *)
Lemma storeOAuthState_nonempty state w r w' :
  oauth_state (storage w) <> Some EmptyString ->
  storeOAuthState state w = (r, w') ->
  oauth_state (storage w') <> Some EmptyString.
Proof.
  intros H. unfold storeOAuthState. unfold_monad.
  destruct state; simpl; intros Heq; inversion Heq; subst; simpl; [assumption|discriminate].
Qed.

Lemma storePKCEVerifier_nonempty verifier w r w' :
  pkce_verifier (storage w) <> Some EmptyString ->
  storePKCEVerifier verifier w = (r, w') ->
  pkce_verifier (storage w') <> Some EmptyString.
Proof.
  intros H. unfold storePKCEVerifier. unfold_monad.
  destruct verifier; simpl; intros Heq; inversion Heq; subst; simpl; [assumption|discriminate].
Qed.

Lemma handleCallback_csrf_and_single_use_witness :
  let w := Demo.pending_login in
  let res := handleCallback Demo.app (Demo.idp (Some 3600) true) "xyz" "forged" w in
  fst res = Throw csrf_error /\ requests (snd res) = requests w /\
  pkce_verifier (storage (snd res)) = None /\
  oauth_state (storage (snd res)) = None /\
  (forall net' code' state', exists w'',
      handleCallback Demo.app net' code' state' (snd res) = (Throw csrf_error, w'') /\
      requests w'' = requests (snd res)).
Proof.
  intros w res.
  destruct (handleCallback_csrf_and_single_use Demo.app (Demo.idp (Some 3600) true)
              "xyz" "forged" Demo.pending_login (fst res) (snd res) eq_refl
              (surjective_pairing res))
    as (Hcsrf & _ & _ & Hnone & Hlater & _).
  destruct Hcsrf as [Hr Hq]; [vm_compute; discriminate|].
  destruct Hnone as [Hv Hs]; [vm_compute; discriminate|vm_compute; discriminate|].
  repeat split; assumption.
Defined.

(** A successful token exchange: one request to the token endpoint,
    answered by a document that carries an access token. *)
Lemma exchangeCodeForTokens_ok svc net code verifier w tr w1 :
  exchangeCodeForTokens svc net code verifier w = (Ok tr, w1) ->
  truthy (access_token tr) = true /\
  storage w1 = storage w /\
  exists rq status statusText text,
    fetch_token net rq = Response true status statusText text (inr tr) /\
    requests w1 = requests w ++ [rq] /\
    clock w1 = clock w + elapsed net rq.
Proof.
  unfold exchangeCodeForTokens, non_null. intros H. run.
  match goal with H : negb (truthy _) = false |- _ => apply negb_false_iff in H end.
  match goal with H : negb ?ok = false |- _ => apply negb_false_iff in H; subst end.
  repeat split; auto. eauto 10.
Qed.


(** [fetchUserInfo] never throws. *)
Lemma fetchUserInfo_total svc net token w :
  exists u w', fetchUserInfo svc net token w = (Ok u, w') /\ storage w' = storage w.
Proof.
  unfold fetchUserInfo, non_null. unfold_monad.
  destruct (svc_endpoints svc) as [endpoints|]; simpl;
    [|do 2 eexists; split; reflexivity].
  destruct (negb (truthy_opt (userinfoEndpoint endpoints))); simpl;
    [do 2 eexists; split; reflexivity|].
  match goal with |- context [fetch_userinfo net ?rq] =>
    destruct (fetch_userinfo net rq) as [e|ok st stt txt [e|u]] end;
    simpl; try destruct ok; simpl; do 2 eexists; split; reflexivity.
Qed.


(** The session that [complete_callback] builds and stores. *)
Lemma complete_callback_ok svc net code verifier w u s w' :
  complete_callback svc net code verifier w = (Ok (u, s), w') ->
  exists tr w1 w2,
    exchangeCodeForTokens svc net code verifier w = (Ok tr, w1) /\
    fetchUserInfo svc net (access_token tr) w1 = (Ok u, w2) /\
    user s = u /\
    accessToken s = access_token tr /\
    createdAt s = clock w2 /\
    expiresAt s = clock w2 + num_or (expires_in tr) 3600 * 1000 /\
    clock w' = clock w2 /\
    requests w' = requests w2 /\
    storage w' = set_auth_session (Some (Json s)) (storage w2).
Proof.
  unfold complete_callback. unfold bind at 1.
  destruct (exchangeCodeForTokens svc net code verifier w) as [[tr|e] w1] eqn:Eex;
    [|discriminate].
  unfold bind at 1.
  destruct (fetchUserInfo svc net (access_token tr) w1) as [[u'|e] w2] eqn:Eui;
    [|discriminate].
  destruct (exchangeCodeForTokens_ok _ _ _ _ _ _ _ Eex) as (Hat & _).
  unfold storeSession, non_null. intros H.
  exists tr, w1, w2. split; [reflexivity|].
  unfold_monad. simpl in H. rewrite Hat in H. simpl in H.
  destruct (or_else (tr_scope tr) (svc_scope svc)) as [sc|]; simpl in H;
    try rewrite Hat in H; simpl in H; try discriminate.
  destruct (num_truthy (clock w2)); simpl in H; inversion H; subst; simpl;
    repeat split; (reflexivity || assumption).
Qed.

(** A successful callback, end to end. *)
Lemma handleCallback_ok svc net code state w u s w' :
  initialized svc = true ->
  handleCallback svc net code state w = (Ok (u, s), w') ->
  exists tr,
    (exists rq status statusText text,
        fetch_token net rq = Response true status statusText text (inr tr)) /\
    truthy (access_token tr) = true /\
    accessToken s = access_token tr /\
    user s = u /\
    createdAt s = clock w' /\
    expiresAt s = clock w' + num_or (expires_in tr) 3600 * 1000 /\
    auth_session (storage w') = Some (Json s).
Proof.
  intros Hinit Hrun. rewrite handleCallback_unfold in Hrun by assumption.
  destruct (retrieveOAuthState_spec w) as (w1 & Hw1 & _). rewrite Hw1 in Hrun.
  destruct (callback_failed_spec (Error "Invalid state parameter - possible CSRF attack") w1)
    as (wa & Hwa & _).
  destruct (negb (truthy_opt (oauth_state (storage w)))
            || negb (bool_decide (oauth_state (storage w) = Some state)));
    [rewrite Hwa in Hrun; discriminate|].
  destruct (retrievePKCEVerifier_spec w1) as (w2 & Hw2 & _). rewrite Hw2 in Hrun.
  destruct (callback_failed_spec (Error "PKCE code verifier not found") w2)
    as (wb & Hwb & _).
  destruct (negb (truthy_opt (pkce_verifier (storage w1))));
    [rewrite Hwb in Hrun; discriminate|].
  destruct (complete_callback svc net code (default EmptyString (pkce_verifier (storage w1))) w2)
    as [[[u' s'] |e] w3] eqn:Ec.
  - inversion Hrun; subst.
    destruct (complete_callback_ok _ _ _ _ _ _ _ _ Ec)
      as (tr & wx & wy & Hex & Hui & Hu & Hat & Hc & He & Hcl & Hrq & Hst).
    destruct (exchangeCodeForTokens_ok _ _ _ _ _ _ _ Hex)
      as (Htr & _ & rq & st & stt & txt & Hrq' & _).
    exists tr. rewrite Hcl, Hst. simpl. repeat split; eauto 10.
  - destruct (callback_failed_spec e w3) as (wc & Hwc & _).
    rewrite Hwc in Hrun. discriminate.
Qed.









(** End to end: after the callback the current user is the one the provider
    described, and the session is valid. *)
Example login_end_to_end :
  let res := handleCallback Demo.app (Demo.idp (Some 3600) true) "xyz" "af0ifjsldkj"
               Demo.pending_login in
  fst (getCurrentUser (snd res)) = Ok (Some Demo.octocat) /\
  fst (isAuthenticated (snd res)) = Ok true /\
  length (requests (snd res)) = 3%nat.
Proof. vm_compute. repeat split. Qed.

(* --------------------------------------------------------------------- *)
(** *** oidcDiscovery: the 24-hour cache *)

(** [btoa] accepts exactly the strings of Latin-1 code units. *)
Lemma to_latin1_of_latin1 (s : string) : to_latin1 s = Some s.
Proof.
  induction s as [|c s IH]; [reflexivity|]. simpl.
  assert (JS.code c < 256)%N as Hlt by apply N_ascii_bounded.
  apply N.ltb_lt in Hlt. rewrite Hlt, IH. unfold JS.code.
  now rewrite ascii_N_embedding.
Qed.

Lemma to_latin1_some (s : wstring) (t : string) : to_latin1 s = Some t -> s = t.
Proof.
  revert t. induction s as [|n s IH]; intros t; simpl.
  - intros H. inversion H. reflexivity.
  - destruct (n <? 256)%N eqn:Hlt; [|discriminate].
    destruct (to_latin1 s) as [r|]; [|discriminate].
    intros H. inversion H; subst. simpl. apply N.ltb_lt in Hlt.
    unfold JS.code. rewrite N_ascii_embedding by assumption.
    now rewrite (IH r eq_refl).
Qed.

Lemma wtruthy_of_latin1 (s : string) : wtruthy s = truthy s.
Proof. destruct s; reflexivity. Qed.

Lemma wtruthy_wide (authority : wstring) :
  to_latin1 authority = None -> wtruthy authority = true.
Proof. destruct authority; [discriminate|reflexivity]. Qed.

Lemma cacheKey_eq (authority : string) w :
  cacheKey authority w = (Ok (cache_key authority), w).
Proof. unfold cacheKey, btoa_of. now rewrite to_latin1_of_latin1. Qed.

Lemma cacheKey_wide (authority : wstring) w :
  to_latin1 authority = None ->
  cacheKey authority w = (Throw InvalidCharacterError, w).
Proof. intros H. unfold cacheKey, btoa_of. now rewrite H. Qed.

(** The cache of an authority that [btoa] accepts. *)
Lemma getCachedConfiguration_eq (authority : string) w :
  getCachedConfiguration authority w =
  match oidc_manifest (storage w) !! cache_key authority with
  | Some (Json entry) =>
      if clock w - timestamp entry >? CACHE_DURATION
      then (Ok None, without_cache authority w)
      else (Ok (Some (config entry)), w)
  | _ => (Ok None, w)
  end.
Proof.
  unfold getCachedConfiguration, try_catch. unfold bind at 1. rewrite cacheKey_eq.
  unfold_monad. simpl.
  destruct (oidc_manifest (storage w) !! cache_key authority) as [[t|entry]|];
    try reflexivity.
  - destruct (truthy t); reflexivity.
  - simpl. destruct (clock w - timestamp entry >? CACHE_DURATION); [|reflexivity].
    rewrite cacheKey_eq. reflexivity.
Qed.

Lemma setCachedConfiguration_eq (authority : string) config w :
  setCachedConfiguration authority config w = (Ok tt, with_cache authority config w).
Proof.
  unfold setCachedConfiguration, try_catch. unfold bind at 1. unfold Date_now.
  unfold bind at 1. rewrite cacheKey_eq. reflexivity.
Qed.

(** An authority with a code unit above 255 has no cache: [btoa] throws,
    reading answers [null] and writing does nothing. *)
Lemma getCachedConfiguration_wide (authority : wstring) w :
  to_latin1 authority = None ->
  getCachedConfiguration authority w = (Ok None, w).
Proof.
  intros H. unfold getCachedConfiguration, try_catch. unfold bind at 1.
  now rewrite cacheKey_wide.
Qed.

Lemma setCachedConfiguration_wide (authority : wstring) config w :
  to_latin1 authority = None ->
  setCachedConfiguration authority config w = (Ok tt, w).
Proof.
  intros H. unfold setCachedConfiguration, try_catch. unfold bind at 1. unfold Date_now.
  unfold bind at 1. now rewrite cacheKey_wide.
Qed.

(** A configuration is fetched with exactly one request and leaves the store
    as it is. *)
Lemma fetchOIDCConfiguration_ok net authority w config w' :
  fetchOIDCConfiguration net authority w = (Ok config, w') ->
  storage w' = storage w /\ exists rq, requests w' = requests w ++ [rq].
Proof.
  unfold fetchOIDCConfiguration, validateOIDCConfiguration.
  destruct (negb (wtruthy authority)); [discriminate|].
  unfold_monad. simpl.
  match goal with |- context [fetch_openid_configuration net ?rq] =>
    destruct (fetch_openid_configuration net rq) as [e|ok st stt txt [e|c]] end;
    simpl; try discriminate; destruct (negb ok); simpl; try discriminate.
  destruct (truthy (authorization_endpoint c)), (truthy (token_endpoint c));
    simpl; try discriminate.
  intros H. inversion H; subst. simpl. eauto.
Qed.

Lemma fetchOIDCConfiguration_failure net authority w :
  (forall rq, discovery_failure (fetch_openid_configuration net rq)) ->
  exists e w',
    fetchOIDCConfiguration net authority w = (Throw e, w') /\ storage w' = storage w.
Proof.
  intros Hfail. unfold fetchOIDCConfiguration, validateOIDCConfiguration.
  destruct (negb (wtruthy authority)); [unfold throw; eauto|].
  unfold_monad. simpl.
  match goal with |- context [fetch_openid_configuration net ?rq] =>
    specialize (Hfail rq);
    destruct (fetch_openid_configuration net rq) as [e|ok st stt txt [e|c]] end;
    simpl in *; eauto.
  - destruct ok; simpl; eauto.
  - destruct Hfail as [->|[Ha|Ht]]; simpl; eauto.
    + destruct ok; simpl; eauto. rewrite Ha. simpl.
      destruct (truthy (token_endpoint c)); simpl; eauto.
    + destruct ok; simpl; eauto. rewrite Ht. simpl.
      destruct (truthy (authorization_endpoint c)); simpl; eauto.
Qed.

(** [discoverOIDCEndpoints], step by step. *)
Lemma discover_eq net (authority : string) w :
  truthy authority = true ->
  discoverOIDCEndpoints net authority w =
  match getCachedConfiguration authority w with
  | (Ok (Some config), w1) => (Ok (extract_endpoints config), w1)
  | (Ok None, w1) =>
      match fetchOIDCConfiguration net authority w1 with
      | (Ok config, w2) => (Ok (extract_endpoints config), with_cache authority config w2)
      | (Throw e, w2) => (Throw e, w2)
      end
  | (Throw e, w1) => (Throw e, w1)
  end.
Proof.
  intros Ha. unfold discoverOIDCEndpoints. rewrite wtruthy_of_latin1, Ha. simpl.
  unfold bind at 1.
  destruct (getCachedConfiguration authority w) as [[[c|]|e] w1]; try reflexivity.
  unfold bind at 1. unfold bind at 1.
  destruct (fetchOIDCConfiguration net authority w1) as [[c|e] w2]; [|reflexivity].
  unfold bind at 1. rewrite setCachedConfiguration_eq. reflexivity.
Qed.

(** With an authority that [btoa] refuses every call fetches, and nothing is
    written. *)
Lemma discover_wide net (authority : wstring) w :
  to_latin1 authority = None ->
  discoverOIDCEndpoints net authority w =
  match fetchOIDCConfiguration net authority w with
  | (Ok config, w1) => (Ok (extract_endpoints config), w1)
  | (Throw e, w1) => (Throw e, w1)
  end.
Proof.
  intros Hwide. unfold discoverOIDCEndpoints. rewrite (wtruthy_wide _ Hwide). simpl.
  unfold bind at 1. rewrite getCachedConfiguration_wide by assumption.
  unfold bind at 1. unfold bind at 1.
  destruct (fetchOIDCConfiguration net authority w) as [[c|e] w1]; [|reflexivity].
  unfold bind at 1. rewrite setCachedConfiguration_wide by assumption. reflexivity.
Qed.

(** An expired entry is treated as absent. *)
Lemma discover_expired net (authority : string) w entry :
  truthy authority = true ->
  oidc_manifest (storage w) !! cache_key authority = Some (Json entry) ->
  clock w - timestamp entry > CACHE_DURATION ->
  discoverOIDCEndpoints net authority w =
  discoverOIDCEndpoints net authority (without_cache authority w).
Proof.
  intros Ha Hentry Hold. rewrite !discover_eq by assumption.
  rewrite !getCachedConfiguration_eq, Hentry.
  replace (clock w - timestamp entry >? CACHE_DURATION) with true
    by (symmetry; apply Z.gtb_lt; lia).
  simpl. rewrite lookup_delete_eq. reflexivity.
Qed.

(** A fresh entry answers without a request. *)
Lemma discover_hit net (authority : string) w entry :
  truthy authority = true ->
  oidc_manifest (storage w) !! cache_key authority = Some (Json entry) ->
  clock w - timestamp entry <= CACHE_DURATION ->
  discoverOIDCEndpoints net authority w = (Ok (extract_endpoints (config entry)), w).
Proof.
  intros Ha Hentry Hfresh. rewrite discover_eq by assumption.
  rewrite getCachedConfiguration_eq, Hentry.
  replace (clock w - timestamp entry >? CACHE_DURATION) with false
    by (symmetry; rewrite Z.gtb_ltb; apply Z.ltb_ge; lia).
  reflexivity.
Qed.

(** A successful call that sent a request leaves an entry stamped with the
    time of its completion. *)
Lemma discover_fetched net (authority : string) w endpoints w1 :
  discoverOIDCEndpoints net authority w = (Ok endpoints, w1) ->
  requests w1 <> requests w ->
  truthy authority = true /\
  exists config,
    endpoints = extract_endpoints config /\
    oidc_manifest (storage w1) !! cache_key authority =
      Some (Json {| config := config; timestamp := clock w1 |}).
Proof.
  intros Hrun Hreq.
  assert (truthy authority = true) as Ha.
  { unfold discoverOIDCEndpoints in Hrun. rewrite wtruthy_of_latin1 in Hrun.
    destruct (truthy authority); [reflexivity|]. simpl in Hrun. discriminate. }
  split; [assumption|].
  rewrite discover_eq, getCachedConfiguration_eq in Hrun by assumption.
  assert (forall w0, requests w0 = requests w ->
            match fetchOIDCConfiguration net authority w0 with
            | (Ok config, w2) =>
                (Ok (extract_endpoints config), with_cache authority config w2)
            | (Throw e, w2) => (Throw e, w2)
            end = (Ok endpoints, w1) ->
            exists config,
              endpoints = extract_endpoints config /\
              oidc_manifest (storage w1) !! cache_key authority =
                Some (Json {| config := config; timestamp := clock w1 |})) as Hfetch.
  { intros w0 _ H.
    destruct (fetchOIDCConfiguration net authority w0) as [[c|e] w2]; [|discriminate].
    inversion H; subst. exists c. split; [reflexivity|]. simpl. apply lookup_insert_eq. }
  destruct (oidc_manifest (storage w) !! cache_key authority) as [[t|entry]|];
    try (apply (Hfetch w eq_refl Hrun)).
  destruct (clock w - timestamp entry >? CACHE_DURATION).
  - apply (Hfetch (without_cache authority w) eq_refl Hrun).
  - inversion Hrun; subst. contradiction.
Qed.

(** A fetch for a non-empty authority sends exactly one request, to the
    discovery document of the authority, and leaves the store as it is. *)
Lemma fetchOIDCConfiguration_request net (authority : wstring) w r w' :
  wtruthy authority = true ->
  fetchOIDCConfiguration net authority w = (r, w') ->
  storage w' = storage w /\
  requests w' = requests w ++
    [HttpRequest "GET"
       (strip_trailing_slash authority
        ++ of_latin1 "/.well-known/openid-configuration")%list
       [("Accept", "application/json")] []]%string.
Proof.
  intros Ha. unfold fetchOIDCConfiguration, validateOIDCConfiguration. rewrite Ha.
  unfold_monad. simpl.
  match goal with |- context [fetch_openid_configuration net ?rq] =>
    destruct (fetch_openid_configuration net rq) as [e|ok st stt txt [e|c]] end;
    simpl; try destruct ok; simpl;
    try (intros H; inversion H; split; reflexivity).
  destruct (truthy (authorization_endpoint c)), (truthy (token_endpoint c));
    simpl; intros H; inversion H; split; reflexivity.
Qed.

(** C4 as worded, read on the authorities that satisfy [P]: within 24
    hours of a call that fetched and succeeded, a call for the same
    authority is answered from the cache. It fails when [P] admits an
    authority with a code unit above 255: [btoa] throws on it, the error is
    caught, nothing is cached, and the second call fetches again. *)
Lemma cached_for_24h_wide_fails : ~ cached_for_24h (fun _ => True).
Proof.
  intros Hclaim.
  set (first := discoverOIDCEndpoints (Demo.idp (Some 3600) true) Demo.wide_authority
                  Demo.start).
  assert (first = (Ok (extract_endpoints Demo.idp_configuration), snd first)) as Hfirst
    by (vm_compute; reflexivity).
  assert (requests (snd first) <> requests Demo.start) as Hsent
    by (vm_compute; discriminate).
  assert (clock (snd first) - clock (snd first) <= CACHE_DURATION) as Hsoon
    by (unfold CACHE_DURATION; lia).
  pose proof (Hclaim _ _ _ _ _ I Hfirst Hsent (Demo.idp (Some 3600) true) (snd first)
                eq_refl Hsoon) as Hsecond.
  apply (f_equal (fun p => length (requests (snd p)))) in Hsecond.
  vm_compute in Hsecond. discriminate.
Qed.

(** C4, amended. For an authority that [btoa] accepts (every code unit below
    256): after a call of [discoverOIDCEndpoints] that fetched the
    configuration and succeeded at time [T], any call for the same authority
    at a time [T' <= T + 24h], on a store that still holds the entry that
    call wrote ([logout], [clearAllAuthData] and [clearOIDCCache] remove
    it), returns the same endpoint set and leaves the world as it is: no
    request is sent, whatever the network would answer. An entry older than
    24 hours is treated as absent: the call behaves as if the entry were not
    in the store; in particular, when the fetch then fails, discovery fails
    and the old entry is gone. For an authority with a code unit above 255
    nothing is ever cached: every call sends the discovery request and
    leaves the store as it is. *)
Theorem discoverOIDCEndpoints_cache_24h net (authority : string) w endpoints w1 :
  discoverOIDCEndpoints net authority w = (Ok endpoints, w1) ->
  requests w1 <> requests w ->
  (forall net' w2,
      oidc_manifest (storage w2) !! cache_key authority
      = oidc_manifest (storage w1) !! cache_key authority ->
      clock w2 - clock w1 <= CACHE_DURATION ->
      discoverOIDCEndpoints net' authority w2 = (Ok endpoints, w2)) /\
  (forall net' w2,
      oidc_manifest (storage w2) !! cache_key authority
      = oidc_manifest (storage w1) !! cache_key authority ->
      clock w2 - clock w1 > CACHE_DURATION ->
      discoverOIDCEndpoints net' authority w2 =
        discoverOIDCEndpoints net' authority (without_cache authority w2) /\
      ((forall rq, discovery_failure (fetch_openid_configuration net' rq)) ->
       exists e w3,
         discoverOIDCEndpoints net' authority w2 = (Throw e, w3) /\
         oidc_manifest (storage w3) !! cache_key authority = None)) /\
  (forall (wide : wstring) net' w2,
      to_latin1 wide = None ->
      exists r w3,
        discoverOIDCEndpoints net' wide w2 = (r, w3) /\
        storage w3 = storage w2 /\
        requests w3 = requests w2 ++
          [HttpRequest "GET"
             (strip_trailing_slash wide
              ++ of_latin1 "/.well-known/openid-configuration")%list
             [("Accept", "application/json")] []]%string).
Proof.
  intros Hrun Hreq.
  destruct (discover_fetched _ _ _ _ _ Hrun Hreq) as (Ha & config & -> & Hentry).
  split; [|split].
  - intros net' w2 Hst Hfresh.
    rewrite (discover_hit net' authority w2 {| config := config; timestamp := clock w1 |});
      auto. now rewrite Hst.
  - intros net' w2 Hst Hold.
    assert (discoverOIDCEndpoints net' authority w2 =
            discoverOIDCEndpoints net' authority (without_cache authority w2)) as Heq.
    { apply (discover_expired net' authority w2 {| config := config; timestamp := clock w1 |});
        auto. now rewrite Hst. }
    split; [exact Heq|].
    intros Hfail. rewrite Heq, discover_eq, getCachedConfiguration_eq by assumption.
    simpl. rewrite lookup_delete_eq.
    destruct (fetchOIDCConfiguration_failure net' authority (without_cache authority w2) Hfail)
      as (e & w3 & -> & Hst3).
    exists e, w3. split; [reflexivity|]. rewrite Hst3. simpl. apply lookup_delete_eq.
  - intros wide net' w2 Hwide. rewrite discover_wide by assumption.
    destruct (fetchOIDCConfiguration net' wide w2) as [[c|e] w3] eqn:Hfetch;
      destruct (fetchOIDCConfiguration_request _ _ _ _ _ (wtruthy_wide _ Hwide) Hfetch)
        as [Hst3 Hrq3];
      do 2 eexists; split; try reflexivity; split; assumption.
Qed.

Lemma discoverOIDCEndpoints_cache_24h_witness :
  let first := discoverOIDCEndpoints (Demo.idp (Some 3600) true)
                 "https://idp.example" Demo.start in
  let endpoints := extract_endpoints Demo.idp_configuration in
  fst first = Ok endpoints /\
  (let w2 := at_time (clock (snd first) + CACHE_DURATION) (snd first) in
   discoverOIDCEndpoints Demo.offline "https://idp.example" w2 = (Ok endpoints, w2)) /\
  (let w2 := at_time (clock (snd first) + CACHE_DURATION + 1) (snd first) in
   exists e w3,
     discoverOIDCEndpoints Demo.offline "https://idp.example" w2 = (Throw e, w3) /\
     oidc_manifest (storage w3) !! cache_key "https://idp.example" = None).
Proof.
  intros first endpoints.
  assert (first = (Ok endpoints, snd first)) as Hfirst by (vm_compute; reflexivity).
  destruct (discoverOIDCEndpoints_cache_24h (Demo.idp (Some 3600) true)
              "https://idp.example" Demo.start endpoints (snd first) Hfirst)
    as (Hhit & Hexpired & _).
  { vm_compute. discriminate. }
  split; [rewrite Hfirst; reflexivity|]. split.
  - apply Hhit; [reflexivity|]. simpl. lia.
  - apply Hexpired; [reflexivity| simpl; lia |].
    intros rq. exact I.
Defined.

(* --------------------------------------------------------------------- *)
(** *** awsService: [assumeRoleWithWebIdentity] *)

(** C6. A duration below 900 or above 43200 seconds makes
    [assumeRoleWithWebIdentity] reject with an [AWSError] and leaves the
    world as it is: no request reaches STS. A duration within
    [[900, 43200]] passes the validation: with the three required arguments
    present, the request is sent to STS with that duration. *)
Theorem assumeRoleWithWebIdentity_duration_bounds
        cfg net roleArn webIdentityToken sessionName duration w :
  let d := default (defaultDurationSeconds cfg) duration in
  (d < MIN_DURATION_SECONDS \/ MAX_DURATION_SECONDS < d ->
   exists e,
     assumeRoleWithWebIdentity cfg net roleArn webIdentityToken sessionName duration w
       = (Throw e, w) /\
     err_name e = "AWSError"%string /\
     (truthy roleArn = true -> truthy webIdentityToken = true ->
      truthy sessionName = true ->
      message e = "Duration must be between 900 and 43200 seconds"%string)) /\
  (MIN_DURATION_SECONDS <= d <= MAX_DURATION_SECONDS ->
   truthy roleArn = true -> truthy webIdentityToken = true ->
   truthy sessionName = true ->
   exists r w',
     assumeRoleWithWebIdentity cfg net roleArn webIdentityToken sessionName duration w
       = (r, w') /\
     requests w' =
       requests w ++ [StsAssumeRoleWithWebIdentity roleArn sessionName webIdentityToken d]).
Proof.
  intros d. unfold assumeRoleWithWebIdentity. fold d. split.
  - intros Hout.
    assert ((d <? MIN_DURATION_SECONDS) || (d >? MAX_DURATION_SECONDS) = true) as Hchk.
    { apply orb_true_iff. destruct Hout; [left; apply Z.ltb_lt|right; apply Z.gtb_lt]; lia. }
    unfold_monad. rewrite Hchk.
    destruct (negb (truthy roleArn) || negb (truthy webIdentityToken)
              || negb (truthy sessionName)) eqn:E; simpl.
    + eexists. split; [reflexivity|]. split; [reflexivity|].
      intros H1 H2 H3. rewrite H1, H2, H3 in E. discriminate.
    + eexists. split; [reflexivity|]. split; reflexivity.
  - intros Hin H1 H2 H3.
    assert ((d <? MIN_DURATION_SECONDS) || (d >? MAX_DURATION_SECONDS) = false) as Hchk.
    { apply orb_false_iff. split; [apply Z.ltb_ge|rewrite Z.gtb_ltb; apply Z.ltb_ge]; lia. }
    unfold_monad. rewrite Hchk, H1, H2, H3. simpl.
    destruct (sts_send net _) as [e|output]; simpl;
      [do 2 eexists; split; reflexivity|].
    destruct (out_Credentials output) as [c|]; simpl;
      [|do 2 eexists; split; reflexivity].
    destruct (truthy (sts_AccessKeyId c)), (truthy (sts_SecretAccessKey c)),
      (truthy (sts_SessionToken c)), (bool_decide (is_Some (sts_Expiration c)));
      simpl; do 2 eexists; split; reflexivity.
Qed.

Lemma assumeRoleWithWebIdentity_duration_bounds_witness :
  (exists e,
      assumeRoleWithWebIdentity (new_AWSService no_config) (Demo.idp None true)
        "arn:aws:iam::123456789012:role/MyRole" "eyJhbGciOi.e30.sig"
        "github-octocat-2026-11-02T05-28-00" (Some 899) Demo.start
      = (Throw e, Demo.start) /\
      message e = "Duration must be between 900 and 43200 seconds"%string) /\
  (exists r w',
      assumeRoleWithWebIdentity (new_AWSService no_config) (Demo.idp None true)
        "arn:aws:iam::123456789012:role/MyRole" "eyJhbGciOi.e30.sig"
        "github-octocat-2026-11-02T05-28-00" None Demo.start
      = (r, w') /\
      requests w' =
        [StsAssumeRoleWithWebIdentity "arn:aws:iam::123456789012:role/MyRole"
           "github-octocat-2026-11-02T05-28-00" "eyJhbGciOi.e30.sig" 3600]).
Proof.
  split.
  - destruct (proj1 (assumeRoleWithWebIdentity_duration_bounds
                       (new_AWSService no_config) (Demo.idp None true)
                       "arn:aws:iam::123456789012:role/MyRole" "eyJhbGciOi.e30.sig"
                       "github-octocat-2026-11-02T05-28-00" (Some 899) Demo.start))
      as (e & Hrun & _ & Hmsg).
    { left. reflexivity. }
    exists e. split; [exact Hrun|]. apply Hmsg; reflexivity.
  - apply (proj2 (assumeRoleWithWebIdentity_duration_bounds
                    (new_AWSService no_config) (Demo.idp None true)
                    "arn:aws:iam::123456789012:role/MyRole" "eyJhbGciOi.e30.sig"
                    "github-octocat-2026-11-02T05-28-00" None Demo.start)).
    + vm_compute. split; discriminate.
    + reflexivity.
    + reflexivity.
    + reflexivity.
Defined.

(* --------------------------------------------------------------------- *)
(** *** awsService: [generateSessionName] *)

Ltac all_ascii c :=
  destruct c as [[] [] [] [] [] [] [] []]; vm_compute; intros;
  first [reflexivity | discriminate | tauto].

Lemma digit_char_is_digit n : is_digit (digit_char n) = true.
Proof.
  unfold is_digit, digit_char.
  pose proof (Z.mod_pos_bound n 10 ltac:(lia)) as Hb.
  rewrite code_ascii_of_N by lia.
  apply andb_true_iff. split; apply N.leb_le; lia.
Qed.

Lemma digits_iso width : forall n acc,
  str_all iso_char acc = true -> str_all iso_char (digits width n acc) = true.
Proof.
  induction width as [|k IH]; intros n acc Hacc; simpl; [assumption|].
  apply IH. simpl. rewrite Hacc. unfold iso_char at 1.
  now rewrite digit_char_is_digit.
Qed.

Lemma str_all_cons p c s : str_all p (String c s) = p c && str_all p s.
Proof. reflexivity. Qed.

Lemma iso_year_iso y : str_all iso_char (iso_year y) = true.
Proof.
  unfold iso_year. destruct ((0 <=? y) && (y <=? 9999)).
  - now apply digits_iso.
  - rewrite str_all_cons, digits_iso by reflexivity. destruct (y <? 0); reflexivity.
Qed.

Lemma toISOString_iso ms : str_all iso_char (toISOString ms) = true.
Proof.
  unfold toISOString. destruct (civil_from_days (ms / 86400000)) as [[y m] d].
  rewrite !str_all_app, iso_year_iso, !digits_iso by reflexivity. reflexivity.
Qed.

Lemma str_all_take p n : forall s,
  str_all p s = true -> str_all p (str_take n s) = true.
Proof.
  induction n as [|n IH]; intros [|c r]; simpl; auto.
  rewrite !andb_true_iff. intros [Hc Hr]. auto.
Qed.

Lemma str_take_length n : forall s, (String.length (str_take n s) <= n)%nat.
Proof.
  induction n as [|n IH]; intros [|c r]; simpl; try lia.
  specialize (IH r). lia.
Qed.

Lemma dashed_iso_char c :
  iso_char c = true ->
  session_name_char (if Ascii.eqb c ":" || Ascii.eqb c "." then "-"%char else c) = true.
Proof. all_ascii c. Qed.

Lemma cleaned_char c :
  session_name_char (if clean_char c then c else "-"%char) = true.
Proof. all_ascii c. Qed.

Lemma timestamp_of_chars now : str_all session_name_char (timestamp_of now) = true.
Proof.
  unfold timestamp_of. apply str_all_take. rewrite str_all_map.
  eapply str_all_impl; [|apply toISOString_iso]. apply dashed_iso_char.
Qed.

Lemma cleaned_chars s :
  str_all session_name_char
    (str_map (fun c => if clean_char c then c else "-"%char) s) = true.
Proof.
  rewrite str_all_map. induction s as [|c r IH]; simpl; [reflexivity|].
  now rewrite cleaned_char.
Qed.

(** A non-empty string of session-name characters stays a session name
    when cut to 64 characters. *)
Lemma session_name_take c s :
  str_all session_name_char (String c s) = true ->
  AWS_SESSION_NAME_PATTERN_test (str_take SESSION_NAME_MAX_LENGTH (String c s)) = true.
Proof.
  intros H. unfold AWS_SESSION_NAME_PATTERN_test.
  rewrite (str_all_take _ _ _ H). reflexivity.
Qed.

(** The decimal form of a number is made of digits and a sign. *)
Lemma pretty_N_char_session d : session_name_char (pretty_N_char d) = true.
Proof.
  unfold pretty_N_char.
  repeat (match goal with |- context [match ?x with _ => _ end] => destruct x end;
          try reflexivity).
Qed.

Lemma pretty_N_go_session x : forall s,
  str_all session_name_char s = true ->
  str_all session_name_char (pretty_N_go x s) = true.
Proof.
  induction (N.lt_wf_0 x) as [x _ IH]. intros s Hs.
  destruct (N.eq_dec x 0%N) as [->|Hx]; [now rewrite pretty_N_go_0|].
  rewrite pretty_N_go_step by lia. apply IH.
  - apply N.div_lt; lia.
  - rewrite str_all_cons, pretty_N_char_session. exact Hs.
Qed.

Lemma pretty_Z_session (z : Z) : str_all session_name_char (pretty z) = true.
Proof.
  assert (forall p : positive, str_all session_name_char (pretty p) = true) as Hpos.
  { intros p. unfold pretty, pretty_positive, pretty, pretty_N.
    destruct (decide (N.pos p = 0%N)); [reflexivity|]. now apply pretty_N_go_session. }
  destruct z as [|p|p]; unfold pretty, pretty_Z; [reflexivity|apply Hpos|].
  rewrite str_all_app, Hpos. reflexivity.
Qed.

(** C7. For every [UserInfo], whatever its [login], [preferred_username],
    [email] and [sub] are (missing, empty or arbitrary), [generateSessionName]
    returns, does not throw, and its result has at most 64 characters and
    matches [AWS_SESSION_NAME_PATTERN]; the names it would fall back to,
    [github-user-<timestamp>] and [github-session-<now>], match the pattern
    as well. *)
Theorem generateSessionName_safe (githubUser : UserInfo) (w : World) :
  (exists sessionName,
      generateSessionName githubUser w = (Ok sessionName, w) /\
      (String.length sessionName <= 64)%nat /\
      AWS_SESSION_NAME_PATTERN_test sessionName = true) /\
  (forall fallback,
      fallback =
        str_take SESSION_NAME_MAX_LENGTH ("github-user-" +:+ timestamp_of (clock w)) \/
      fallback =
        str_take SESSION_NAME_MAX_LENGTH ("github-session-" +:+ pretty (clock w)) ->
      (String.length fallback <= 64)%nat /\
      AWS_SESSION_NAME_PATTERN_test fallback = true).
Proof.
  split.
  - unfold generateSessionName. unfold_monad. cbv beta iota zeta.
    set (name := ("github-" +:+ _)%string).
    assert (AWS_SESSION_NAME_PATTERN_test (str_take SESSION_NAME_MAX_LENGTH name) = true)
      as Hok.
    { subst name.
      match goal with |- context [("github-" +:+ ?rest)%string] =>
        change ("github-" +:+ rest)%string with (String "g" ("ithub-" +:+ rest))
      end.
      apply session_name_take.
      rewrite str_all_cons, !str_all_app, cleaned_chars, timestamp_of_chars.
      reflexivity. }
    rewrite Hok. cbv beta iota zeta. simpl negb. cbv beta iota zeta.
    eexists. split; [reflexivity|]. split; [|exact Hok].
    apply str_take_length.
  - intros fallback [->| ->]; (split; [apply str_take_length|]).
    + match goal with |- context [("github-user-" +:+ ?rest)%string] =>
        change ("github-user-" +:+ rest)%string with (String "g" ("ithub-user-" +:+ rest))
      end.
      apply session_name_take.
      rewrite str_all_cons, !str_all_app, timestamp_of_chars. reflexivity.
    + match goal with |- context [("github-session-" +:+ ?rest)%string] =>
        change ("github-session-" +:+ rest)%string
          with (String "g" ("ithub-session-" +:+ rest))
      end.
      apply session_name_take.
      rewrite str_all_cons, !str_all_app, pretty_Z_session. reflexivity.
Qed.

Example generateSessionName_octocat :
  fst (generateSessionName Demo.octocat Demo.start)
  = Ok "github-octocat-2026-11-02T05-28-00"%string.
Proof. vm_compute. reflexivity. Qed.

Example generateSessionName_email :
  fst (generateSessionName
         {| sub := Some "auth0|5f7c8ec7"; email := Some "jane_doe@example.org";
            email_verified := None; name := None; given_name := None;
            family_name := None; preferred_username := Some EmptyString; picture := None;
            locale := None; zoneinfo := None; login := None; avatar_url := None;
            authenticated := None; ui_error := None |} Demo.start)
  = Ok "github-jane-doe-2026-11-02T05-28-00"%string.
Proof. vm_compute. reflexivity. Qed.

(* --------------------------------------------------------------------- *)
(** *** roleArnStorage *)

Example my_role_is_valid : isValidRoleArn Demo.my_role = true.
Proof. reflexivity. Qed.

Example my_role_parts :
  extractRoleName Demo.my_role = "MyRole"%string /\
  extractAccountId Demo.my_role = "123456789012"%string.
Proof. split; reflexivity. Qed.

Example not_an_arn_is_invalid : isValidRoleArn (trim "not-an-arn") = false.
Proof. reflexivity. Qed.

Lemma getHistory_eq this w :
  getHistory this w =
  (Ok {| roles := stored_roles w; maxItems := svc_maxItems this |}, w).
Proof.
  unfold getHistory, stored_roles, empty_history. unfold_monad. simpl.
  destruct (aws_role_arn_history (storage w)) as [[t|h]|]; reflexivity.
Qed.

(** A string whose trimmed form is not a role ARN is refused and nothing is
    written. *)
Lemma addRoleArn_invalid this a w :
  isValidRoleArn (trim a) = false ->
  exists e, addRoleArn this a w = (Throw e, w).
Proof.
  intros Hbad. unfold addRoleArn. destruct (negb (truthy a)); [unfold throw; eauto|].
  rewrite Hbad. unfold throw. simpl. eauto.
Qed.

Lemma valid_trim_truthy a : isValidRoleArn (trim a) = true -> truthy a = true.
Proof. destruct a; [discriminate|reflexivity]. Qed.

(** What a successful [addRoleArn] writes. *)
Lemma addRoleArn_valid this a w :
  isValidRoleArn (trim a) = true ->
  exists w',
    addRoleArn this a w = (Ok tt, w') /\
    clock w' = clock w /\ requests w' = requests w /\
    stored_roles w' =
      trim_to (svc_maxItems this)
        match findIndex (trim a) (stored_roles w) with
        | Some i =>
            match stored_roles w !! i with
            | Some existingRole =>
                {| arn := arn existingRole; role_name := role_name existingRole;
                   accountId := accountId existingRole; lastUsed := clock w;
                   useCount := useCount existingRole + 1 |}
                :: (take i (stored_roles w) ++ drop (S i) (stored_roles w))
            | None => stored_roles w
            end
        | None =>
            {| arn := trim a; role_name := extractRoleName (trim a);
               accountId := extractAccountId (trim a); lastUsed := clock w;
               useCount := 1 |} :: stored_roles w
        end.
Proof.
  intros Hok. unfold addRoleArn. rewrite (valid_trim_truthy a Hok), Hok. simpl.
  unfold bind at 1. rewrite getHistory_eq. unfold saveHistory. unfold_monad. simpl.
  eexists. split; [reflexivity|]. repeat split.
Qed.

(** C8 as stated fails: a role ARN with a leading blank does not match the
    pattern, yet [addRoleArn] trims it, accepts it and writes the history. *)
Lemma rejects_every_non_matching_string_fails : ~ rejects_every_non_matching_string.
Proof.
  intros Hclaim.
  destruct (Hclaim roleArnStorage " arn:aws:iam::123456789012:role/MyRole"%string
              Demo.start eq_refl) as [e He].
  vm_compute in He. discriminate.
Qed.

Example addRoleArn_leading_blank :
  AWS_ROLE_ARN_PATTERN_test " arn:aws:iam::123456789012:role/MyRole" = false /\
  exists w',
    addRoleArn roleArnStorage " arn:aws:iam::123456789012:role/MyRole" Demo.start
      = (Ok tt, w') /\
    map arn (stored_roles w') = [Demo.my_role].
Proof. split; [reflexivity|]. eexists. split; vm_compute; reflexivity. Qed.

(** C8, amended. With room for at least one entry, calling [addRoleArn]
    twice with the same string whose trimmed form is a role ARN, starting
    from an empty history, leaves exactly one entry: that ARN, with
    [useCount = 2], first (and only) in the list, last used at the time of
    the second call. And every string whose trimmed form does not match the
    role ARN pattern makes [addRoleArn] throw and leaves the world, hence the
    persisted history, unchanged. *)
Theorem addRoleArn_twice_and_invalid this a :
  (1 <= svc_maxItems this ->
   isValidRoleArn (trim a) = true ->
   forall w r1 w1 later r2 w2,
     stored_roles w = [] ->
     addRoleArn this a w = (r1, w1) ->
     addRoleArn this a (at_time later w1) = (r2, w2) ->
     r1 = Ok tt /\ r2 = Ok tt /\
     stored_roles w2 =
       [ {| arn := trim a; role_name := extractRoleName (trim a);
            accountId := extractAccountId (trim a); lastUsed := later;
            useCount := 2 |} ]) /\
  (isValidRoleArn (trim a) = false ->
   forall w, exists e, addRoleArn this a w = (Throw e, w)).
Proof.
  split; [|intros Hbad w; now apply addRoleArn_invalid].
  intros Hmax Hok w r1 w1 later r2 w2 Hempty Hrun1 Hrun2.
  assert (forall x : RoleArnHistoryItem, trim_to (svc_maxItems this) [x] = [x]) as Htrim.
  { intros x. unfold trim_to.
    replace (Z.of_nat (length [x]) >? svc_maxItems this) with false; [reflexivity|].
    symmetry. rewrite Z.gtb_ltb. apply Z.ltb_ge. simpl. lia. }
  destruct (addRoleArn_valid this a w Hok) as (w1' & Heq1 & _ & _ & Hroles1).
  rewrite Heq1 in Hrun1. inversion Hrun1; subst r1 w1'. clear Hrun1.
  rewrite Hempty in Hroles1. simpl in Hroles1. rewrite Htrim in Hroles1.
  destruct (addRoleArn_valid this a (at_time later w1) Hok)
    as (w2' & Heq2 & _ & _ & Hroles2).
  rewrite Heq2 in Hrun2. inversion Hrun2; subst r2 w2'. clear Hrun2.
  change (stored_roles (at_time later w1)) with (stored_roles w1) in Hroles2.
  rewrite Hroles1 in Hroles2. simpl in Hroles2.
  rewrite bool_decide_eq_true_2 in Hroles2 by reflexivity.
  simpl in Hroles2. rewrite Htrim in Hroles2.
  repeat split; assumption.
Qed.

Lemma addRoleArn_twice_and_invalid_witness :
  (let first := addRoleArn roleArnStorage Demo.my_role Demo.start in
   let second := addRoleArn roleArnStorage Demo.my_role
                   (at_time 1793597290000 (snd first)) in
   fst first = Ok tt /\ fst second = Ok tt /\
   stored_roles (snd second) =
     [ {| arn := Demo.my_role; role_name := "MyRole"; accountId := "123456789012";
          lastUsed := 1793597290000; useCount := 2 |} ]) /\
  (exists e, addRoleArn roleArnStorage "not-an-arn" Demo.start = (Throw e, Demo.start)).
Proof.
  split.
  - intros first second.
    apply (proj1 (addRoleArn_twice_and_invalid roleArnStorage Demo.my_role)
             ltac:(vm_compute; discriminate) eq_refl
             Demo.start (fst first) (snd first) 1793597290000 (fst second) (snd second)
             eq_refl); apply surjective_pairing.
  - apply (proj2 (addRoleArn_twice_and_invalid roleArnStorage "not-an-arn") eq_refl).
Defined.

(** [importHistory] on a refused import: nothing is written. *)
Lemma importHistory_refused this JSON_parse jsonData w :
  (exists e, JSON_parse jsonData = inl e) \/
  (exists imported, JSON_parse jsonData = inr imported /\
     (imp_roles imported = None \/
      exists l role, imp_roles imported = Some l /\ In role l /\
                     isValidRoleArn (arn role) = false)) ->
  exists e, importHistory this JSON_parse jsonData w = (Throw e, w).
Proof.
  unfold importHistory. unfold_monad.
  intros [[e ->]|(imported & -> & [->|(l & role & -> & Hin & Hbad)])]; simpl; eauto.
  destruct (first_invalid l) as [bad|] eqn:E; simpl; eauto.
  unfold first_invalid in E.
  pose proof (find_none _ _ E role Hin) as Hnone. simpl in Hnone.
  rewrite Hbad in Hnone. rewrite orb_true_r in Hnone. discriminate.
Qed.

(** [importHistory] on an accepted import: the store receives the merge,
    sorted and cut. *)
Lemma importHistory_accepted this JSON_parse jsonData w l :
  JSON_parse jsonData = inr {| imp_roles := Some l |} ->
  (forall role, In role l -> isValidRoleArn (arn role) = true) ->
  exists w',
    importHistory this JSON_parse jsonData w = (Ok tt, w') /\
    stored_roles w' =
      slice0 (svc_maxItems this) (sort_by_lastUsed (merge_roles l (stored_roles w))).
Proof.
  intros Hparse Hvalid. unfold importHistory. rewrite Hparse. simpl.
  assert (first_invalid l = None) as ->.
  { unfold first_invalid. destruct (find _ l) as [bad|] eqn:E; [|reflexivity].
    apply find_some in E as [Hin Hbad]. rewrite (Hvalid _ Hin) in Hbad.
    assert (truthy (arn bad) = true) as Ht.
    { specialize (Hvalid _ Hin). destruct (arn bad); [discriminate|reflexivity]. }
    rewrite Ht in Hbad. discriminate. }
  unfold try_catch, bind. rewrite getHistory_eq. unfold saveHistory. unfold_monad.
  simpl. eexists. split; reflexivity.
Qed.

(** C10 fails on the code: an import that lists the same ARN twice is
    accepted and both entries are written, so the stored history is not
    deduplicated by ARN. *)
Theorem importHistory_keeps_imported_duplicates :
  exists w',
    importHistory roleArnStorage Demo.parse_duplicated "duplicated" Demo.start
      = (Ok tt, w') /\
    stored_roles w' = Demo.duplicated_import /\
    map arn (stored_roles w') = [Demo.my_role; Demo.my_role] /\
    ~ unique_arns (stored_roles w').
Proof.
  eexists. split; [vm_compute; reflexivity|]. split; [reflexivity|].
  split; [reflexivity|].
  unfold unique_arns. simpl. intros H. apply NoDup_cons_1_1 in H. apply H. left.
Qed.

(** The merge, the sort and the cut, one by one. *)
Lemma has_arn_false a l : has_arn a l = false <-> ~ In a (map arn l).
Proof.
  unfold has_arn. induction l as [|r l IH]; simpl; [tauto|].
  rewrite orb_false_iff, IH. destruct (bool_decide_reflect (arn r = a)); split.
  - intros [H _]. discriminate.
  - intros H. exfalso. apply H. left. assumption.
  - intros [_ H] [?|?]; [contradiction|]. apply H. assumption.
  - intros H. split; [reflexivity|]. intros Hin. apply H. right. assumption.
Qed.

Lemma merge_roles_unique current : forall imported,
  unique_arns imported -> unique_arns (merge_roles imported current).
Proof.
  unfold merge_roles, unique_arns.
  induction current as [|c current IH]; intros imported Hu; simpl; [assumption|].
  apply IH. destruct (has_arn (arn c) imported) eqn:E; simpl; [assumption|].
  rewrite map_app. simpl. apply NoDup_app. split; [assumption|]. split.
  - intros x Hx Hc. apply list_elem_of_In in Hx. apply list_elem_of_In in Hc.
    destruct Hc as [<-|[]]. apply has_arn_false in E. contradiction.
  - apply NoDup_singleton.
Qed.

Lemma insert_by_lastUsed_perm x l : Permutation (insert_by_lastUsed x l) (x :: l).
Proof.
  induction l as [|y r IH]; simpl; [reflexivity|].
  destruct (lastUsed y <=? lastUsed x); [reflexivity|].
  rewrite IH. apply perm_swap.
Qed.

Lemma sort_by_lastUsed_perm l : Permutation (sort_by_lastUsed l) l.
Proof.
  induction l as [|x l IH]; simpl; [reflexivity|].
  rewrite insert_by_lastUsed_perm. now apply perm_skip.
Qed.

Lemma insert_by_lastUsed_sorted x l :
  recent_first l -> recent_first (insert_by_lastUsed x l).
Proof.
  unfold recent_first. induction l as [|y r IH]; intros Hs; simpl.
  - repeat constructor.
  - inversion Hs as [|? ? Hr Hy]; subst.
    destruct (Z.leb_spec (lastUsed y) (lastUsed x)).
    + constructor; [assumption|]. constructor; [assumption|].
      eapply Forall_impl; [exact Hy|]. simpl. intros; lia.
    + constructor; [now apply IH|].
      rewrite insert_by_lastUsed_perm. constructor; [lia|assumption].
Qed.

Lemma sort_by_lastUsed_sorted l : recent_first (sort_by_lastUsed l).
Proof.
  induction l as [|x l IH]; simpl; [constructor|].
  now apply insert_by_lastUsed_sorted.
Qed.

Lemma slice0_take {A} n (l : list A) : exists k, slice0 n l = take k l.
Proof. unfold slice0. destruct (n <? 0); eauto. Qed.

Lemma In_take {A} k : forall (l : list A) x, In x (take k l) -> In x l.
Proof.
  induction k as [|k IH]; intros [|a l] x; simpl; try tauto.
  intros [->|H]; auto.
Qed.

Lemma take_sorted k : forall l, recent_first l -> recent_first (take k l).
Proof.
  unfold recent_first. induction k as [|k IH]; intros [|x l] Hs; simpl; try constructor.
  - inversion Hs; subst. now apply IH.
  - inversion Hs as [|? ? _ Hx]; subst.
    apply List.Forall_forall. intros y Hy. rewrite List.Forall_forall in Hx.
    apply Hx. eapply In_take; eassumption.
Qed.

(** When the imported entries are valid and pairwise distinct by ARN, the
    stored history is the merge: unique by ARN, most recent first, and no
    longer than a non-negative [maxItems]. *)
Lemma importHistory_merge this JSON_parse jsonData w l :
  JSON_parse jsonData = inr {| imp_roles := Some l |} ->
  (forall role, In role l -> isValidRoleArn (arn role) = true) ->
  unique_arns l ->
  exists w',
    importHistory this JSON_parse jsonData w = (Ok tt, w') /\
    unique_arns (stored_roles w') /\
    recent_first (stored_roles w') /\
    (0 <= svc_maxItems this ->
     Z.of_nat (length (stored_roles w')) <= svc_maxItems this).
Proof.
  intros Hparse Hvalid Hu.
  destruct (importHistory_accepted this JSON_parse jsonData w l Hparse Hvalid)
    as (w' & Hrun & Hroles).
  exists w'. split; [assumption|]. rewrite Hroles.
  destruct (slice0_take (svc_maxItems this)
              (sort_by_lastUsed (merge_roles l (stored_roles w)))) as [k Hk].
  split; [|split].
  - rewrite Hk. unfold unique_arns. rewrite <- firstn_map.
    eapply sublist_NoDup; [|apply sublist_take].
    change (NoDup (map arn (sort_by_lastUsed (merge_roles l (stored_roles w))))).
    rewrite sort_by_lastUsed_perm. now apply merge_roles_unique.
  - rewrite Hk. apply take_sorted, sort_by_lastUsed_sorted.
  - intros Hmax. unfold slice0.
    destruct (Z.ltb_spec (svc_maxItems this) 0); [lia|].
    rewrite length_take. lia.
Qed.

(* ===================================================================== *)
(** ** Further properties of the services *)
(* ===================================================================== *)

(* --------------------------------------------------------------------- *)
(** *** pkceUtils: verifier and state *)

Lemma str_app_nil_r s : s +:+ EmptyString = s.
Proof.
  induction s as [|c r IH]; [reflexivity|].
  rewrite str_app_cons. congruence.
Qed.

(** [btoa]: characters of the alphabet, followed by the padding, which the
    base64url replacements remove. *)
Lemma btoa_shape n : forall s,
  (String.length s <= n)%nat ->
  exists cs pad,
    btoa s = cs +:+ pad /\ str_all is_b64_char cs = true /\
    base64url pad = EmptyString /\
    (3 * String.length cs <= 4 * String.length s + 2 < 3 * String.length cs + 3)%nat.
Proof.
  induction n as [|n IH]; intros s Hlen.
  - destruct s; simpl in Hlen; [|lia].
    exists EmptyString, EmptyString. simpl. repeat split; lia.
  - destruct s as [|a [|b [|c r]]].
    + exists EmptyString, EmptyString. simpl. repeat split; lia.
    + exists (String (b64char (sextet1 (JS.code a)))
                (String (b64char (sextet2 (JS.code a) 0)) EmptyString)), "=="%string.
      simpl. rewrite !b64char_alphabet. repeat split; lia.
    + exists (String (b64char (sextet1 (JS.code a)))
                (String (b64char (sextet2 (JS.code a) (JS.code b)))
                   (String (b64char (sextet3 (JS.code b) 0)) EmptyString))), "="%string.
      simpl. rewrite !b64char_alphabet. repeat split; lia.
    + destruct (IH r) as (cs & pad & Hcs & Hall & Hpad & Hl); [simpl in Hlen; lia|].
      exists (String (b64char (sextet1 (JS.code a)))
                (String (b64char (sextet2 (JS.code a) (JS.code b)))
                   (String (b64char (sextet3 (JS.code b) (JS.code c)))
                      (String (b64char (sextet4 (JS.code c))) cs)))), pad.
      split; [|split; [|split]].
      * simpl. rewrite Hcs. reflexivity.
      * simpl. now rewrite !b64char_alphabet, Hall.
      * exact Hpad.
      * simpl. simpl in Hl. lia.
Qed.

(** The base64url form of [n] bytes has [ceil(4n/3)] characters of
    [A-Za-z0-9-_]. *)
Lemma base64url_btoa s :
  String.length (base64url (btoa s)) = ((4 * String.length s + 2) / 3)%nat /\
  str_all is_base64url_char (base64url (btoa s)) = true.
Proof.
  destruct (btoa_shape (String.length s) s) as (cs & pad & Hcs & Hall & Hpad & Hl);
    [lia|].
  destruct (base64url_alphabet cs Hall) as [Hlen Halpha].
  rewrite Hcs, base64url_app, Hpad, str_app_nil_r, Hlen, Halpha.
  split; [|reflexivity].
  apply (Nat.div_unique _ 3 _ (4 * String.length s + 2 - 3 * String.length cs)); lia.
Qed.

Lemma base64url_char_unreserved c :
  is_base64url_char c = true -> PkceUtils.unreserved_char c = true.
Proof.
  unfold is_base64url_char, PkceUtils.unreserved_char.
  destruct (is_alnum c), (Ascii.eqb c "-"), (Ascii.eqb c "_"), (Ascii.eqb c ".");
    simpl; auto; discriminate.
Qed.

(** X1. [isValidCodeVerifier] accepts the output of [generateCodeVerifier]
    exactly when between 32 and 96 random bytes are drawn: the 32 bytes of
    the code give the shortest verifier (43 characters) that RFC 7636
    allows, 31 bytes would give a verifier that is refused. *)
Theorem generateCodeVerifier_valid_iff (randomBytes : list Z) :
  PkceUtils.isValidCodeVerifier (PkceUtils.generateCodeVerifier randomBytes) = true
  <-> (32 <= length randomBytes <= 96)%nat.
Proof.
  unfold PkceUtils.isValidCodeVerifier, PkceUtils.generateCodeVerifier.
  destruct (base64url_btoa (fromCharCode randomBytes)) as [Hl Ha].
  rewrite fromCharCode_length in Hl.
  pose proof (Nat.div_mod_eq (4 * length randomBytes + 2) 3) as Hd.
  pose proof (Nat.mod_upper_bound (4 * length randomBytes + 2) 3) as Hm.
  set (out := base64url (btoa (fromCharCode randomBytes))) in *.
  apply (str_all_impl _ _ _ base64url_char_unreserved) in Ha.
  rewrite Ha, andb_true_r.
  destruct (truthy out) eqn:Ht; simpl.
  - destruct (Nat.ltb_spec (String.length out) 43); simpl.
    + split; [discriminate|lia].
    + destruct (Nat.ltb_spec 128 (String.length out)); simpl.
      * split; [discriminate|lia].
      * split; [lia|reflexivity].
  - assert (String.length out = 0%nat) as H0 by (destruct out; [reflexivity|discriminate]).
    split; [discriminate|lia].
Qed.

(* --------------------------------------------------------------------- *)
(** *** sessionManager: the stored session *)

(** X2. A session with an access token and a non-zero expiry is stored and
    read back as it was given, with [createdAt] set to the current time
    when it was 0; nothing else in the store changes, no request is sent. *)
Theorem storeSession_getSession (session : AuthSession) (w : World) :
  truthy (accessToken session) = true ->
  expiresAt session <> 0 ->
  exists stored w1,
    storeSession session w = (Ok tt, w1) /\
    getSession w1 = (Ok (Some stored), w1) /\
    accessToken stored = accessToken session /\
    refreshToken stored = refreshToken session /\
    idToken stored = idToken session /\
    tokenType stored = tokenType session /\
    scope stored = scope session /\
    expiresAt stored = expiresAt session /\
    user stored = user session /\
    createdAt stored = (if createdAt session =? 0 then clock w else createdAt session) /\
    w1 = {| storage := set_auth_session (Some (Json stored)) (storage w);
            clock := clock w; requests := requests w |}.
Proof.
  intros Htok Hexp.
  assert (num_truthy (expiresAt session) = true) as Hn.
  { unfold num_truthy. destruct (Z.eqb_spec (expiresAt session) 0); [contradiction|reflexivity]. }
  set (stored := {| accessToken := accessToken session;
                    refreshToken := refreshToken session;
                    idToken := idToken session; tokenType := tokenType session;
                    scope := scope session; expiresAt := expiresAt session;
                    createdAt := if createdAt session =? 0 then clock w
                                 else createdAt session;
                    user := user session |}).
  exists stored,
    {| storage := set_auth_session (Some (Json stored)) (storage w);
       clock := clock w; requests := requests w |}.
  split; [|split].
  - unfold storeSession. unfold_monad. rewrite Htok. unfold num_truthy. subst stored.
    destruct (createdAt session =? 0); reflexivity.
  - unfold getSession. unfold_monad. simpl. rewrite Htok, Hn. reflexivity.
  - simpl. repeat split; reflexivity.
Qed.

Lemma storeSession_getSession_witness :
  exists stored w1,
    storeSession (Demo.a_session 0) Demo.start = (Ok tt, w1) /\
    getSession w1 = (Ok (Some stored), w1) /\
    accessToken stored = "gho_access"%string /\
    createdAt stored = 1793597280000.
Proof.
  destruct (storeSession_getSession (Demo.a_session 0) Demo.start)
    as (stored & w1 & H1 & H2 & H3 & _ & _ & _ & _ & _ & _ & H4 & _);
    [reflexivity | discriminate |].
  exists stored, w1. repeat split; assumption.
Defined.

(** [getSession], by cases on what is stored. *)
Lemma getSession_spec (w : World) :
  exists r w1,
    getSession w = (Ok r, w1) /\
    clock w1 = clock w /\ requests w1 = requests w /\
    pkce_verifier (storage w1) = pkce_verifier (storage w) /\
    oauth_state (storage w1) = oauth_state (storage w) /\
    oidc_manifest (storage w1) = oidc_manifest (storage w) /\
    aws_role_arn_history (storage w1) = aws_role_arn_history (storage w) /\
    match r with
    | Some s =>
        w1 = w /\ auth_session (storage w) = Some (Json s) /\
        truthy (accessToken s) = true /\ expiresAt s <> 0
    | None =>
        auth_session (storage w1) = None \/
        auth_session (storage w1) = Some (Malformed EmptyString)
    end.
Proof.
  unfold getSession. unfold_monad. simpl.
  destruct (auth_session (storage w)) as [[text|s]|] eqn:E.
  - destruct (truthy text) eqn:Ht; simpl.
    + do 2 eexists. split; [reflexivity|]. simpl. repeat split; auto.
    + destruct text; [|discriminate].
      do 2 eexists. split; [reflexivity|]. rewrite E. simpl. repeat split; auto.
  - destruct (truthy (accessToken s)) eqn:Ht; simpl.
    + destruct (num_truthy (expiresAt s)) eqn:Hn; simpl.
      * do 2 eexists. split; [reflexivity|]. simpl.
        repeat split; auto.
        unfold num_truthy in Hn. intros H0. rewrite H0 in Hn. discriminate.
      * do 2 eexists. split; [reflexivity|]. simpl. repeat split; auto.
    + do 2 eexists. split; [reflexivity|]. simpl. repeat split; auto.
  - do 2 eexists. split; [reflexivity|]. rewrite E. repeat split; auto.
Qed.

(** X3. [getSession] never throws and sends nothing. A session it returns
    is the stored document, has an access token and a non-zero expiry, and
    the store is untouched; when it returns [null], nothing readable is
    left under the session key (a text that does not parse, or a document
    without token or expiry, has been removed). In both cases reading
    again gives the same answer and changes nothing. *)
Theorem getSession_total_and_self_healing (w : World) :
  exists r w1,
    getSession w = (Ok r, w1) /\
    clock w1 = clock w /\ requests w1 = requests w /\
    pkce_verifier (storage w1) = pkce_verifier (storage w) /\
    oauth_state (storage w1) = oauth_state (storage w) /\
    oidc_manifest (storage w1) = oidc_manifest (storage w) /\
    aws_role_arn_history (storage w1) = aws_role_arn_history (storage w) /\
    match r with
    | Some s =>
        w1 = w /\ auth_session (storage w) = Some (Json s) /\
        truthy (accessToken s) = true /\ expiresAt s <> 0
    | None =>
        auth_session (storage w1) = None \/
        auth_session (storage w1) = Some (Malformed EmptyString)
    end /\
    getSession w1 = (Ok r, w1).
Proof.
  destruct (getSession_spec w) as (r & w1 & Hg & H1 & H2 & H3 & H4 & H5 & H6 & Hr).
  exists r, w1. repeat (split; [assumption|]).
  destruct r as [s|].
  - destruct Hr as (-> & _). exact Hg.
  - unfold getSession. unfold_monad. simpl.
    destruct Hr as [-> | ->]; reflexivity.
Qed.

(** X4. [isSessionValid] and [getSessionTimeRemaining] agree: run on the
    same store at the same time, the first answers [true] exactly when the
    second is positive; the time remaining is never negative. *)
Theorem isSessionValid_iff_time_remaining (w : World) :
  exists valid w1 remaining w2,
    isSessionValid w = (Ok valid, w1) /\
    getSessionTimeRemaining w = (Ok remaining, w2) /\
    0 <= remaining /\
    (valid = true <-> 0 < remaining).
Proof.
  unfold isSessionValid, getSessionTimeRemaining.
  destruct (getSession_spec w) as (r & w1 & Hg & Hc & _).
  unfold bind. rewrite Hg.
  destruct r as [s|].
  - unfold_monad. simpl. rewrite Hc.
    destruct (Z.geb_spec (clock w) (expiresAt s)); simpl;
      do 4 eexists; (split; [reflexivity|]); (split; [reflexivity|]); split; try lia;
      split; intros; (discriminate || lia || reflexivity).
  - unfold_monad. do 4 eexists. split; [reflexivity|]. split; [reflexivity|].
    split; [lia|]. split; intros; (discriminate || lia).
Qed.

(** X5. The PKCE verifier is kept for one reading: after
    [storePKCEVerifier(v)] the first [retrievePKCEVerifier] returns [v] and
    removes it, the second returns [null]; the session, the state, the
    discovery cache and the role history are as before. An empty verifier
    is refused and nothing is written. *)
Theorem storePKCEVerifier_read_once (verifier : string) (w : World) :
  verifier <> EmptyString ->
  exists w1 w2,
    storePKCEVerifier verifier w = (Ok tt, w1) /\
    retrievePKCEVerifier w1 = (Ok (Some verifier), w2) /\
    retrievePKCEVerifier w2 = (Ok None, w2) /\
    w2 = {| storage := set_pkce_verifier None (storage w);
            clock := clock w; requests := requests w |} /\
    storePKCEVerifier EmptyString w = (Throw (Error "PKCE verifier is required"), w).
Proof.
  intros Hv. destruct verifier as [|c r]; [contradiction|].
  unfold storePKCEVerifier, retrievePKCEVerifier. unfold_monad. simpl.
  do 2 eexists. split; [reflexivity|]. simpl. split; [reflexivity|]. simpl.
  split; [reflexivity|]. split; reflexivity.
Qed.

Lemma storePKCEVerifier_read_once_witness :
  exists w1 w2,
    storePKCEVerifier "dBjftJeZ4CVP-mB92K27uhbUJU1p1r_wW1gFWFOEjXk" Demo.start = (Ok tt, w1) /\
    retrievePKCEVerifier w1
    = (Ok (Some "dBjftJeZ4CVP-mB92K27uhbUJU1p1r_wW1gFWFOEjXk"%string), w2) /\
    retrievePKCEVerifier w2 = (Ok None, w2).
Proof.
  destruct (storePKCEVerifier_read_once "dBjftJeZ4CVP-mB92K27uhbUJU1p1r_wW1gFWFOEjXk"
              Demo.start) as (w1 & w2 & H1 & H2 & H3 & _); [discriminate|].
  exists w1, w2. repeat split; assumption.
Defined.

Lemma startsWith_app p s : startsWith (p +:+ s) p = true.
Proof.
  unfold startsWith. induction p as [|c r IH]; [destruct s; reflexivity|].
  rewrite str_app_cons. simpl. destruct (ascii_dec c c); [exact IH|contradiction].
Qed.

Lemma cache_key_startsWith authority : startsWith (cache_key authority) CACHE_KEY = true.
Proof. unfold cache_key. apply startsWith_app. Qed.

Lemma remove_keys_cache (p : string -> bool)
      (m : gmap string (JsonText OIDCCacheEntry)) authority :
  p (cache_key authority) = true ->
  filter (fun entry => p (fst entry) = false) m !! cache_key authority = None.
Proof.
  intros Hp. apply map_lookup_filter_None. right. intros x _. simpl. congruence.
Qed.

(** The store after [clearAllAuthData]. *)
Lemma clearAllAuthData_spec (w : World) :
  exists w1,
    clearAllAuthData w = (Ok tt, w1) /\
    auth_session (storage w1) = None /\
    pkce_verifier (storage w1) = None /\
    oauth_state (storage w1) = None /\
    (forall authority, oidc_manifest (storage w1) !! cache_key authority = None) /\
    aws_role_arn_history (storage w1) = aws_role_arn_history (storage w) /\
    clock w1 = clock w /\ requests w1 = requests w.
Proof.
  unfold clearAllAuthData. unfold_monad. simpl.
  eexists. split; [reflexivity|]. simpl. repeat split.
  intros authority.
  apply (remove_keys_cache
           (fun key => startsWith key "oidc-manifest" || startsWith key "auth-"
                       || startsWith key "oauth-")).
  pose proof (cache_key_startsWith authority) as H. unfold CACHE_KEY in H.
  now rewrite H.
Qed.

(** X6. [clearAllAuthData] never throws, sends nothing, and leaves no
    authentication data: afterwards [getSession], [retrievePKCEVerifier]
    and [retrieveOAuthState] return [null], [isSessionValid] is [false],
    and no discovery document is cached for any authority. The role ARN
    history is not authentication data and stays. *)
Theorem clearAllAuthData_clears (w : World) :
  exists w1,
    clearAllAuthData w = (Ok tt, w1) /\
    getSession w1 = (Ok None, w1) /\
    isSessionValid w1 = (Ok false, w1) /\
    retrievePKCEVerifier w1 = (Ok None, w1) /\
    retrieveOAuthState w1 = (Ok None, w1) /\
    (forall authority, getCachedConfiguration authority w1 = (Ok None, w1)) /\
    aws_role_arn_history (storage w1) = aws_role_arn_history (storage w) /\
    clock w1 = clock w /\ requests w1 = requests w.
Proof.
  destruct (clearAllAuthData_spec w) as (w1 & Hrun & Hs & Hv & Ho & Hc & Hh & Ht & Hr).
  exists w1. split; [exact Hrun|].
  assert (getSession w1 = (Ok None, w1)) as Hg
    by (unfold getSession; unfold_monad; simpl; rewrite Hs; reflexivity).
  split; [exact Hg|].
  split; [unfold isSessionValid, bind; rewrite Hg; reflexivity|].
  split; [unfold retrievePKCEVerifier; unfold_monad; simpl; rewrite Hv; reflexivity|].
  split; [unfold retrieveOAuthState; unfold_monad; simpl; rewrite Ho; reflexivity|].
  split; [|auto].
  intros authority. destruct (to_latin1 authority) as [a|] eqn:Ha.
  - apply to_latin1_some in Ha. subst authority.
    rewrite getCachedConfiguration_eq, Hc. reflexivity.
  - now apply getCachedConfiguration_wide.
Qed.



(** Without a readable session [updateSessionUser] throws. *)
Lemma updateSessionUser_no_session userInfo w w1 :
  getSession w = (Ok None, w1) ->
  updateSessionUser userInfo w = (Throw (Error "No active session to update"), w1).
Proof. intros Hg. unfold updateSessionUser, bind. rewrite Hg. reflexivity. Qed.

(* --------------------------------------------------------------------- *)
(** *** oidcDiscovery: cache keys, validation, clearing *)

Lemma in_all_ascii a : In a all_ascii.
Proof.
  unfold all_ascii. rewrite <- (ascii_nat_embedding a).
  apply in_map, in_seq. pose proof (nat_ascii_bounded a). lia.
Qed.

Lemma forall_ascii (P : ascii -> bool) :
  forallb P all_ascii = true -> forall a, P a = true.
Proof. intros H a. rewrite forallb_forall in H. apply H, in_all_ascii. Qed.

Lemma forall_ascii2 (P : ascii -> ascii -> bool) :
  forallb (fun a => forallb (P a) all_ascii) all_ascii = true ->
  forall a b, P a b = true.
Proof.
  intros H a b. apply forall_ascii with (P := P a).
  exact (forall_ascii (fun a => forallb (P a) all_ascii) H a).
Qed.

(** The bits of the first code unit, and the high bits of the second, are
    recovered from the first two characters of a group. *)
Lemma decode_first a b :
  ascii_of_N (b64value (b64char (sextet1 (JS.code a))) * 4
              + b64value (b64char (sextet2 (JS.code a) (JS.code b))) / 16) = a /\
  (b64value (b64char (sextet2 (JS.code a) (JS.code b))) mod 16 = JS.code b / 16)%N.
Proof.
  assert (forall a b,
    Ascii.eqb (ascii_of_N (b64value (b64char (sextet1 (JS.code a))) * 4
                 + b64value (b64char (sextet2 (JS.code a) (JS.code b))) / 16)) a
    && (b64value (b64char (sextet2 (JS.code a) (JS.code b))) mod 16 =? JS.code b / 16)%N
    = true) as H.
  { apply forall_ascii2. vm_compute. reflexivity. }
  specialize (H a b). apply andb_true_iff in H. destruct H as [H1 H2].
  split; [now apply Ascii.eqb_eq | now apply N.eqb_eq].
Qed.

(** The low bits of the second code unit and the high bits of the third
    are recovered from the third character. *)
Lemma decode_third b c :
  (b64value (b64char (sextet3 (JS.code b) (JS.code c))) / 4 = JS.code b mod 16)%N /\
  (b64value (b64char (sextet3 (JS.code b) (JS.code c))) mod 4 = JS.code c / 64)%N.
Proof.
  assert (forall b c,
    (b64value (b64char (sextet3 (JS.code b) (JS.code c))) / 4 =? JS.code b mod 16)%N
    && (b64value (b64char (sextet3 (JS.code b) (JS.code c))) mod 4 =? JS.code c / 64)%N
    = true) as H.
  { apply forall_ascii2. vm_compute. reflexivity. }
  specialize (H b c). apply andb_true_iff in H. destruct H as [H1 H2].
  split; now apply N.eqb_eq.
Qed.

Lemma decode_fourth c :
  (b64value (b64char (sextet4 (JS.code c))) = JS.code c mod 64)%N /\
  ascii_of_N (JS.code c / 64 * 64 + JS.code c mod 64) = c /\
  ascii_of_N (JS.code c / 16 * 16 + JS.code c mod 16) = c.
Proof.
  assert (forall c,
    (b64value (b64char (sextet4 (JS.code c))) =? JS.code c mod 64)%N
    && Ascii.eqb (ascii_of_N (JS.code c / 64 * 64 + JS.code c mod 64)) c
    && Ascii.eqb (ascii_of_N (JS.code c / 16 * 16 + JS.code c mod 16)) c = true) as H.
  { apply forall_ascii. vm_compute. reflexivity. }
  specialize (H c). rewrite !andb_true_iff in H. destruct H as [[H1 H2] H3].
  split; [now apply N.eqb_eq|]. split; now apply Ascii.eqb_eq.
Qed.

Lemma b64char_not_pad n : Ascii.eqb (b64char n) "=" = false.
Proof.
  pose proof (b64char_alphabet n) as H.
  destruct (Ascii.eqb_spec (b64char n) "=") as [E|]; [|reflexivity].
  rewrite E in H. vm_compute in H. discriminate.
Qed.

(** [btoa] loses nothing: the text is recovered from its encoding. *)
Lemma decode_base64_btoa n : forall s,
  (String.length s <= n)%nat -> decode_base64 (btoa s) = s.
Proof.
  induction n as [|n IH]; intros s Hlen.
  - destruct s; [reflexivity|simpl in Hlen; lia].
  - destruct s as [|a [|b [|c r]]].
    + reflexivity.
    + simpl. destruct (decode_first a "000"%char) as [H1 _].
      change (JS.code "000") with 0%N in H1. now rewrite H1.
    + simpl. rewrite b64char_not_pad.
      destruct (decode_first a b) as [H1 H2].
      destruct (decode_third b "000"%char) as [H3 _].
      change (JS.code "000") with 0%N in H3.
      destruct (decode_fourth b) as (_ & _ & H4).
      now rewrite H1, H2, H3, H4.
    + simpl. rewrite !b64char_not_pad.
      destruct (decode_first a b) as [H1 H2].
      destruct (decode_third b c) as [H3 H5].
      destruct (decode_fourth b) as (_ & _ & H4).
      destruct (decode_fourth c) as (H6 & H7 & _).
      rewrite H1, H2, H3, H4, H5, H6, H7, IH; [reflexivity|].
      simpl in Hlen. lia.
Qed.

Lemma btoa_injective s t : btoa s = btoa t -> s = t.
Proof.
  intros H.
  rewrite <- (decode_base64_btoa (String.length s) s), <- (decode_base64_btoa (String.length t) t)
    by lia.
  now rewrite H.
Qed.

Lemma str_app_inj_l p s t : p +:+ s = p +:+ t -> s = t.
Proof.
  induction p as [|c r IH]; [auto|].
  rewrite !str_app_cons. intros H. inversion H. auto.
Qed.

Lemma cache_key_injective a b : cache_key a = cache_key b -> a = b.
Proof.
  unfold cache_key. intros H.
  apply str_app_inj_l, str_app_inj_l in H. now apply btoa_injective.
Qed.

(** Fetching the configuration does not write to the store. *)
Lemma fetchOIDCConfiguration_storage net authority w r w' :
  fetchOIDCConfiguration net authority w = (r, w') -> storage w' = storage w.
Proof.
  unfold fetchOIDCConfiguration, validateOIDCConfiguration.
  destruct (negb (wtruthy authority)); [intros H; inversion H; reflexivity|].
  unfold_monad. simpl.
  match goal with |- context [fetch_openid_configuration net ?rq] =>
    destruct (fetch_openid_configuration net rq) as [e|ok st stt txt [e|c]] end;
    simpl; try destruct ok; simpl;
    try (intros H; inversion H; reflexivity).
  destruct (truthy (authorization_endpoint c)), (truthy (token_endpoint c));
    simpl; intros H; inversion H; reflexivity.
Qed.

(** X8. The cache entry of one authority is not touched by a discovery
    for another: whatever the call for [authority] does (cache hit, fetch,
    failure, removal of its expired entry), the store holds for every other
    authority exactly what it held before, because distinct authorities
    have distinct cache keys. *)
Theorem discoverOIDCEndpoints_other_authority
        (net : Network) (authority other : string) (w w1 : World)
        (r : Result OIDCEndpoints) :
  other <> authority ->
  discoverOIDCEndpoints net authority w = (r, w1) ->
  cache_key other <> cache_key authority /\
  oidc_manifest (storage w1) !! cache_key other
  = oidc_manifest (storage w) !! cache_key other.
Proof.
  intros Hne Hrun.
  assert (cache_key other <> cache_key authority) as Hk
    by (intros H; apply Hne; now apply cache_key_injective).
  split; [exact Hk|].
  destruct (truthy authority) eqn:Ha.
  - rewrite discover_eq, getCachedConfiguration_eq in Hrun by assumption.
    assert (forall w0, storage w0 = storage w \/ w0 = without_cache authority w ->
              match fetchOIDCConfiguration net authority w0 with
              | (Ok config, w2) =>
                  (Ok (extract_endpoints config), with_cache authority config w2)
              | (Throw e, w2) => (Throw e, w2)
              end = (r, w1) ->
              oidc_manifest (storage w1) !! cache_key other
              = oidc_manifest (storage w) !! cache_key other) as Hfetch.
    { intros w0 Hw0 H.
      assert (oidc_manifest (storage w0) !! cache_key other
              = oidc_manifest (storage w) !! cache_key other) as H0.
      { destruct Hw0 as [->| ->]; [reflexivity|]. simpl.
        now rewrite lookup_delete_ne by auto. }
      destruct (fetchOIDCConfiguration net authority w0) as [[c|e] w2] eqn:Ef;
        apply fetchOIDCConfiguration_storage in Ef;
        inversion H; subst; simpl; rewrite ?lookup_insert_ne by auto;
        now rewrite Ef. }
    destruct (oidc_manifest (storage w) !! cache_key authority) as [[t|entry]|];
      try (apply (Hfetch w); [now left | exact Hrun]).
    destruct (clock w - timestamp entry >? CACHE_DURATION).
    + apply (Hfetch (without_cache authority w)); [now right | exact Hrun].
    + inversion Hrun; subst. reflexivity.
  - unfold discoverOIDCEndpoints in Hrun. rewrite wtruthy_of_latin1, Ha in Hrun.
    simpl in Hrun. inversion Hrun; subst. reflexivity.
Qed.

Lemma discoverOIDCEndpoints_other_authority_witness :
  cache_key "https://other.example" <> cache_key "https://idp.example" /\
  oidc_manifest (storage (snd (discoverOIDCEndpoints (Demo.idp (Some 3600) true)
                                 "https://idp.example" Demo.start)))
    !! cache_key "https://other.example"
  = oidc_manifest (storage Demo.start) !! cache_key "https://other.example".
Proof.
  apply (discoverOIDCEndpoints_other_authority (Demo.idp (Some 3600) true)
           "https://idp.example" "https://other.example" Demo.start _
           (fst (discoverOIDCEndpoints (Demo.idp (Some 3600) true)
                   "https://idp.example" Demo.start))).
  - discriminate.
  - apply surjective_pairing.
Defined.

(** X9. [clearOIDCCache] forgets the configuration of every authority
    (the next discovery has to fetch) and nothing else: the session, the
    PKCE verifier, the OAuth state and the role history stay. *)
Theorem clearOIDCCache_forgets (w : World) :
  exists w1,
    clearOIDCCache w = (Ok tt, w1) /\
    (forall authority, getCachedConfiguration authority w1 = (Ok None, w1)) /\
    auth_session (storage w1) = auth_session (storage w) /\
    pkce_verifier (storage w1) = pkce_verifier (storage w) /\
    oauth_state (storage w1) = oauth_state (storage w) /\
    aws_role_arn_history (storage w1) = aws_role_arn_history (storage w) /\
    clock w1 = clock w /\ requests w1 = requests w.
Proof.
  unfold clearOIDCCache. unfold_monad. eexists. split; [reflexivity|].
  split; [|simpl; repeat split].
  intros authority. destruct (to_latin1 authority) as [a|] eqn:Ha.
  - apply to_latin1_some in Ha. subst authority.
    rewrite getCachedConfiguration_eq. simpl.
    rewrite (remove_keys_cache (fun key => startsWith key CACHE_KEY))
      by apply cache_key_startsWith.
    reflexivity.
  - now apply getCachedConfiguration_wide.
Qed.

(** X10. What a discovery that has to fetch asks and accepts, for any
    authority, also one with code units above 255: with no entry for the
    authority, one GET request goes to the authority (without its trailing
    slash) followed by [/.well-known/openid-configuration]; a document that
    names an authorization endpoint and a token endpoint is returned; it is
    cached under the key of the authority when [btoa] accepts the authority
    (all code units below 256), and the store stays as it was when [btoa]
    refuses it; a document that lacks one of the two endpoints makes the
    call throw [OIDC discovery failed: ...] with the store unchanged. *)
Theorem discoverOIDCEndpoints_validates
        (net : Network) (authority : wstring) (w : World)
        (status : Z) (statusText text : string) (config : OIDCConfiguration) :
  wtruthy authority = true ->
  (forall a, to_latin1 authority = Some a ->
             oidc_manifest (storage w) !! cache_key a = None) ->
  (forall rq, fetch_openid_configuration net rq
              = Response true status statusText text (inr config)) ->
  exists r w1,
    discoverOIDCEndpoints net authority w = (r, w1) /\
    requests w1 = requests w ++
      [HttpRequest "GET"
         (strip_trailing_slash authority
          ++ of_latin1 "/.well-known/openid-configuration")%list
         [("Accept", "application/json")] []]%string /\
    if truthy (authorization_endpoint config) && truthy (token_endpoint config)
    then r = Ok (extract_endpoints config) /\
         truthy (authorizationEndpoint (extract_endpoints config)) = true /\
         truthy (tokenEndpoint (extract_endpoints config)) = true /\
         match to_latin1 authority with
         | Some a =>
             oidc_manifest (storage w1) =
               <[cache_key a := Json {| config := config; timestamp := clock w1 |}]>
                 (oidc_manifest (storage w))
         | None => storage w1 = storage w
         end
    else storage w1 = storage w /\
         exists missing,
           r = Throw (Error ("OIDC discovery failed: OIDC configuration missing "
                             +:+ "required endpoints: " +:+ missing)) /\
           missing =
             (if truthy (authorization_endpoint config) then "token_endpoint"
              else if truthy (token_endpoint config) then "authorization_endpoint"
              else "authorization_endpoint, token_endpoint")%string.
Proof.
  intros Ha Hmiss Hresp.
  assert (exists r w1,
            fetchOIDCConfiguration net authority w = (r, w1) /\
            storage w1 = storage w /\
            requests w1 = requests w ++
              [HttpRequest "GET"
                 (strip_trailing_slash authority
                  ++ of_latin1 "/.well-known/openid-configuration")%list
                 [("Accept", "application/json")] []]%string /\
            if truthy (authorization_endpoint config) && truthy (token_endpoint config)
            then r = Ok config
            else exists missing,
                r = Throw (Error ("OIDC discovery failed: OIDC configuration missing "
                                  +:+ "required endpoints: " +:+ missing)) /\
                missing =
                  (if truthy (authorization_endpoint config) then "token_endpoint"
                   else if truthy (token_endpoint config) then "authorization_endpoint"
                   else "authorization_endpoint, token_endpoint")%string) as Hfetch.
  { unfold fetchOIDCConfiguration, validateOIDCConfiguration. rewrite Ha.
    unfold_monad. simpl. rewrite Hresp. simpl.
    destruct (truthy (authorization_endpoint config)) eqn:E1,
      (truthy (token_endpoint config)) eqn:E2; simpl;
      do 2 eexists; (split; [reflexivity|]); simpl; repeat (split; [reflexivity|]);
      try reflexivity; eexists; split; reflexivity. }
  destruct Hfetch as (r0 & w0 & Hrun & Hst & Hreq & Hr0).
  destruct (to_latin1 authority) as [a|] eqn:Hlatin.
  - pose proof (to_latin1_some _ _ Hlatin) as ->.
    rewrite wtruthy_of_latin1 in Ha.
    rewrite discover_eq, getCachedConfiguration_eq, (Hmiss a eq_refl), Hrun by assumption.
    destruct (truthy (authorization_endpoint config) && truthy (token_endpoint config))
      eqn:Hboth.
    + subst r0. do 2 eexists. split; [reflexivity|]. simpl. split; [exact Hreq|].
      apply andb_true_iff in Hboth as [H1 H2]. rewrite Hst. auto.
    + destruct Hr0 as (missing & -> & Hm). do 2 eexists. split; [reflexivity|].
      split; [exact Hreq|]. split; [exact Hst|]. eauto.
  - rewrite discover_wide, Hrun by assumption.
    destruct (truthy (authorization_endpoint config) && truthy (token_endpoint config))
      eqn:Hboth.
    + subst r0. do 2 eexists. split; [reflexivity|]. split; [exact Hreq|].
      apply andb_true_iff in Hboth as [H1 H2]. auto.
    + destruct Hr0 as (missing & -> & Hm). do 2 eexists. split; [reflexivity|].
      split; [exact Hreq|]. split; [exact Hst|]. eauto.
Qed.

Lemma discoverOIDCEndpoints_validates_witness :
  exists r w1,
    discoverOIDCEndpoints (Demo.idp (Some 3600) true) Demo.wide_authority Demo.start
    = (r, w1) /\
    requests w1 =
      [HttpRequest "GET"
         (of_latin1 "https://" ++ [20363%N; 12360%N]
          ++ of_latin1 ".example/.well-known/openid-configuration")%list
         [("Accept", "application/json")] []]%string /\
    r = Ok (extract_endpoints Demo.idp_configuration) /\
    storage w1 = storage Demo.start.
Proof.
  destruct (discoverOIDCEndpoints_validates (Demo.idp (Some 3600) true)
              Demo.wide_authority Demo.start 200 "OK" EmptyString
              Demo.idp_configuration) as (r & w1 & H1 & H2 & H3 & _ & _ & H4);
    [reflexivity | discriminate | reflexivity |].
  exists r, w1. repeat split; assumption.
Defined.

(* --------------------------------------------------------------------- *)
(** *** oauth2Service: login, callback, logout, tokens *)

(** The token request: sent once whatever the answer, with the code and
    the verifier it was given. *)
Lemma exchangeCodeForTokens_request svc net code verifier w r w1 endpoints :
  svc_endpoints svc = Some endpoints ->
  exchangeCodeForTokens svc net code verifier w = (r, w1) ->
  storage w1 = storage w /\
  requests w1 = requests w ++
    [HttpRequest "POST" (tokenEndpoint endpoints)
       [("Accept", "application/json");
        ("Content-Type", "application/x-www-form-urlencoded")]
       [("client_id", default "null" (svc_clientId svc)); ("code", code);
        ("code_verifier", verifier);
        ("redirect_uri", default "null" (svc_redirectUri svc));
        ("grant_type", "authorization_code")]]%string.
Proof.
  intros Hep. unfold exchangeCodeForTokens, non_null. rewrite Hep. intros H.
  run; split; reflexivity.
Qed.

Lemma exchangeCodeForTokens_storage svc net code verifier w r w1 :
  exchangeCodeForTokens svc net code verifier w = (r, w1) -> storage w1 = storage w.
Proof.
  destruct (svc_endpoints svc) as [endpoints|] eqn:Hep.
  - intros H. now destruct (exchangeCodeForTokens_request _ _ _ _ _ _ _ _ Hep H).
  - unfold exchangeCodeForTokens, non_null. rewrite Hep. intros H. run. reflexivity.
Qed.

Lemma fetchUserInfo_requests svc net token w r w1 :
  fetchUserInfo svc net token w = (r, w1) ->
  exists l, requests w1 = requests w ++ l /\ (length l <= 1)%nat.
Proof.
  unfold fetchUserInfo, non_null. intros H.
  run; first [ exists []; rewrite app_nil_r; split; [reflexivity|simpl; lia]
             | eexists [_]; split; [reflexivity|simpl; lia] ].
Qed.

(** The steps after the retrievals: a failure leaves the store as it was. *)
Lemma complete_callback_throw svc net code verifier w e w1 :
  complete_callback svc net code verifier w = (Throw e, w1) -> storage w1 = storage w.
Proof.
  unfold complete_callback. unfold bind at 1.
  destruct (exchangeCodeForTokens svc net code verifier w) as [[tr|e0] w2] eqn:Eex;
    apply exchangeCodeForTokens_storage in Eex;
    [|intros H; inversion H; subst; exact Eex].
  unfold bind at 1.
  destruct (fetchUserInfo_total svc net (access_token tr) w2) as (u & w3 & -> & Hst).
  unfold storeSession, non_null. intros H. run; congruence.
Qed.

Lemma complete_callback_requests svc net code verifier w r w1 endpoints :
  svc_endpoints svc = Some endpoints ->
  complete_callback svc net code verifier w = (r, w1) ->
  exists headers body rest,
    requests w1 = requests w ++
                  HttpRequest "POST" (tokenEndpoint endpoints) headers body :: rest /\
    (length rest <= 1)%nat /\
    param "code" body = Some code /\
    param "code_verifier" body = Some verifier /\
    param "grant_type" body = Some "authorization_code"%string /\
    param "client_id" body = Some (default "null"%string (svc_clientId svc)) /\
    param "redirect_uri" body = Some (default "null"%string (svc_redirectUri svc)).
Proof.
  intros Hep. unfold complete_callback. unfold bind at 1.
  destruct (exchangeCodeForTokens svc net code verifier w) as [[tr|e0] w2] eqn:Eex;
    destruct (exchangeCodeForTokens_request _ _ _ _ _ _ _ _ Hep Eex) as [_ Hrq].
  - unfold bind at 1.
    destruct (fetchUserInfo svc net (access_token tr) w2) as [[u|e1] w3] eqn:Eui;
      destruct (fetchUserInfo_requests _ _ _ _ _ _ Eui) as (l & Hl & Hlen).
    + unfold storeSession, non_null. intros H.
      assert (requests w1 = requests w3) as Hsame by (run; reflexivity).
      do 2 eexists. exists l. rewrite Hsame, Hl, Hrq, <- app_assoc.
      split; [reflexivity|]. repeat split; assumption || reflexivity.
    + intros H. inversion H; subst.
      do 2 eexists. exists l. rewrite Hl, Hrq, <- app_assoc.
      split; [reflexivity|]. repeat split; assumption || reflexivity.
  - intros H. inversion H; subst.
    do 2 eexists. exists []. rewrite Hrq.
    split; [reflexivity|]. repeat split; (simpl; lia) || reflexivity.
Qed.

Lemma retrieveOAuthState_storage w r w1 :
  retrieveOAuthState w = (r, w1) ->
  auth_session (storage w1) = auth_session (storage w) /\
  oidc_manifest (storage w1) = oidc_manifest (storage w) /\
  aws_role_arn_history (storage w1) = aws_role_arn_history (storage w).
Proof. unfold retrieveOAuthState. intros H. run; auto. Qed.

Lemma retrievePKCEVerifier_storage w r w1 :
  retrievePKCEVerifier w = (r, w1) ->
  auth_session (storage w1) = auth_session (storage w) /\
  oidc_manifest (storage w1) = oidc_manifest (storage w) /\
  aws_role_arn_history (storage w1) = aws_role_arn_history (storage w).
Proof. unfold retrievePKCEVerifier. intros H. run; auto. Qed.

Lemma callback_failed_storage error w r w1 :
  callback_failed error w = (r, w1) ->
  auth_session (storage w1) = auth_session (storage w) /\
  oidc_manifest (storage w1) = oidc_manifest (storage w) /\
  aws_role_arn_history (storage w1) = aws_role_arn_history (storage w).
Proof.
  unfold callback_failed. unfold bind at 1.
  destruct (retrievePKCEVerifier w) as [[v|e] w2] eqn:E1;
    destruct (retrievePKCEVerifier_storage _ _ _ E1) as (A1 & A2 & A3).
  - unfold bind at 1.
    destruct (retrieveOAuthState w2) as [[v'|e] w3] eqn:E2;
      destruct (retrieveOAuthState_storage _ _ _ E2) as (B1 & B2 & B3);
      intros H; inversion H; subst; repeat split; congruence.
  - intros H; inversion H; subst; auto.
Qed.

(** X11. [handleCallback] stores a session only when it succeeds: on every
    failure (not initialized, state mismatch, no verifier, token exchange
    refused) the session, the discovery cache and the role history are what
    they were before the call; only the verifier and the state are used up. *)
Theorem handleCallback_failure_keeps_session
        (svc : Service) (net : Network) (code state : string)
        (w w1 : World) (e : JsError) :
  handleCallback svc net code state w = (Throw e, w1) ->
  auth_session (storage w1) = auth_session (storage w) /\
  oidc_manifest (storage w1) = oidc_manifest (storage w) /\
  aws_role_arn_history (storage w1) = aws_role_arn_history (storage w).
Proof.
  destruct (initialized svc) eqn:Hinit.
  - rewrite handleCallback_unfold by assumption.
    destruct (retrieveOAuthState w) as [r1 wa] eqn:E1.
    destruct (retrieveOAuthState_storage _ _ _ E1) as (A1 & A2 & A3).
    destruct (negb (truthy_opt (oauth_state (storage w)))
              || negb (bool_decide (oauth_state (storage w) = Some state))).
    { intros H. destruct (callback_failed_storage _ _ _ _ H) as (B1 & B2 & B3).
      repeat split; congruence. }
    destruct (retrievePKCEVerifier wa) as [r2 wb] eqn:E2.
    destruct (retrievePKCEVerifier_storage _ _ _ E2) as (B1 & B2 & B3).
    destruct (negb (truthy_opt (pkce_verifier (storage wa)))).
    { intros H. destruct (callback_failed_storage _ _ _ _ H) as (C1 & C2 & C3).
      repeat split; congruence. }
    destruct (complete_callback svc net code (default EmptyString (pkce_verifier (storage wa))) wb)
      as [[a|e0] wc] eqn:Ec; [discriminate|].
    apply complete_callback_throw in Ec.
    intros H. destruct (callback_failed_storage _ _ _ _ H) as (C1 & C2 & C3).
    rewrite Ec in C1, C2, C3. repeat split; congruence.
  - unfold handleCallback, ensureInitialized. rewrite Hinit. simpl.
    unfold bind, throw. intros H. inversion H; subst. auto.
Qed.

Lemma handleCallback_failure_keeps_session_witness :
  exists e w1,
    handleCallback Demo.app Demo.offline "xyz" "af0ifjsldkj" Demo.pending_login
    = (Throw e, w1) /\
    auth_session (storage w1) = None.
Proof.
  do 2 eexists. split; [vm_compute; reflexivity|].
  apply (handleCallback_failure_keeps_session Demo.app Demo.offline "xyz" "af0ifjsldkj"
           Demo.pending_login _
           (Error "Callback handling failed: Failed to fetch")).
  vm_compute. reflexivity.
Defined.

(** What a successful [login] leaves: the verifier and the state in the
    store, and the navigation to the authorization endpoint. *)
Lemma loginFlow_ok svc valid_URL verifierBytes stateBytes w nav w1 :
  loginFlow svc valid_URL verifierBytes stateBytes w = (Ok nav, w1) ->
  let verifier := PkceUtils.generateCodeVerifier verifierBytes in
  let state := PkceUtils.generateState stateBytes in
  initialized svc = true /\
  truthy verifier = true /\ truthy state = true /\
  (exists endpoints,
      svc_endpoints svc = Some endpoints /\
      nav_url nav = authorizationEndpoint endpoints) /\
  nav_params nav =
    [("client_id", default "null" (svc_clientId svc));
     ("redirect_uri", default "null" (svc_redirectUri svc));
     ("response_type", "code");
     ("scope", default "null" (svc_scope svc));
     ("code_challenge", PkceUtils.generateCodeChallenge verifier);
     ("code_challenge_method", "S256");
     ("state", state)]%string /\
  w1 = {| storage := set_oauth_state (Some state)
                       (set_pkce_verifier (Some verifier) (storage w));
          clock := clock w; requests := requests w |}.
Proof.
  unfold loginFlow, ensureInitialized, storePKCEVerifier, storeOAuthState, non_null,
    new_URL.
  intros H. run.
  repeat match goal with
         | H : negb _ = false |- _ => apply negb_false_iff in H
         end.
  repeat split; eauto.
Qed.

(** X12. PKCE binds the callback to the login that started it, across
    the page load in between. [login()] ends in a navigation, so the
    callback is handled by a service instance [svc'] that was initialized
    anew, on the store that [login()] left. A callback that carries the
    state of the authorization request sends, as its first request, a POST
    to the token endpoint of [svc'] with the authorization code and the
    stored verifier, and that verifier is the one whose SHA-256 challenge
    (method S256) went into the authorization request. Client id and
    redirect URI of the authorization request are those of the instance
    that ran [login()], those of the token request are those of [svc']:
    they agree only if both instances were configured alike. At most one
    more request (userinfo) follows. *)
Theorem loginFlow_then_handleCallback
        (svc svc' : Service) (valid_URL : string -> bool)
        (verifierBytes stateBytes : list Z) (w w1 w1' w2 : World) (nav : Navigation)
        (net : Network) (code : string) (r : Result (UserInfo * AuthSession))
        (endpoints' : OIDCEndpoints) :
  loginFlow svc valid_URL verifierBytes stateBytes w = (Ok nav, w1) ->
  initialized svc' = true ->
  svc_endpoints svc' = Some endpoints' ->
  storage w1' = storage w1 ->
  handleCallback svc' net code (default EmptyString (param "state" (nav_params nav))) w1'
  = (r, w2) ->
  exists endpoints verifier headers body rest,
    svc_endpoints svc = Some endpoints /\
    nav_url nav = authorizationEndpoint endpoints /\
    param "response_type" (nav_params nav) = Some "code"%string /\
    param "code_challenge_method" (nav_params nav) = Some "S256"%string /\
    param "code_challenge" (nav_params nav)
    = Some (PkceUtils.generateCodeChallenge verifier) /\
    requests w2 = requests w1' ++
                  HttpRequest "POST" (tokenEndpoint endpoints') headers body :: rest /\
    (length rest <= 1)%nat /\
    param "code" body = Some code /\
    param "code_verifier" body = Some verifier /\
    param "grant_type" body = Some "authorization_code"%string /\
    param "client_id" (nav_params nav) = Some (default "null"%string (svc_clientId svc)) /\
    param "redirect_uri" (nav_params nav)
    = Some (default "null"%string (svc_redirectUri svc)) /\
    param "client_id" body = Some (default "null"%string (svc_clientId svc')) /\
    param "redirect_uri" body = Some (default "null"%string (svc_redirectUri svc')).
Proof.
  intros Hlogin Hinit' Hep' Hstore Hcb.
  destruct (loginFlow_ok _ _ _ _ _ _ _ Hlogin)
    as (Hinit & Hv & Hs & (endpoints & Hep & Hurl) & Hparams & Hw1).
  set (verifier := PkceUtils.generateCodeVerifier verifierBytes) in *.
  set (state := PkceUtils.generateState stateBytes) in *.
  rewrite Hparams in Hcb. simpl in Hcb.
  rewrite handleCallback_unfold in Hcb by assumption.
  destruct (retrieveOAuthState_spec w1') as (wa & Ha & _ & _ & Hva & Hra & _).
  rewrite Ha in Hcb.
  assert (oauth_state (storage w1') = Some state) as Hst
    by (rewrite Hstore, Hw1; reflexivity).
  assert (pkce_verifier (storage w1') = Some verifier) as Hpv
    by (rewrite Hstore, Hw1; reflexivity).
  rewrite Hst in Hcb. simpl in Hcb. rewrite Hs in Hcb.
  rewrite bool_decide_eq_true_2 in Hcb by reflexivity. simpl in Hcb.
  destruct (retrievePKCEVerifier_spec wa) as (wb & Hb & _ & _ & _ & Hrb & _).
  rewrite Hb, Hva, Hpv in Hcb. simpl in Hcb. rewrite Hv in Hcb. simpl in Hcb.
  destruct (complete_callback svc' net code verifier wb) as [r3 wc] eqn:Ec.
  destruct (complete_callback_requests _ _ _ _ _ _ _ _ Hep' Ec)
    as (headers & body & rest & Hrq & Hlen & P1 & P2 & P3 & P4 & P5).
  assert (requests w2 = requests wc) as Hsame.
  { destruct r3 as [a|e].
    - inversion Hcb; subst. reflexivity.
    - destruct (callback_failed_spec e wc) as (wd & Hd & _ & _ & _ & _ & Hrd).
      rewrite Hd in Hcb. inversion Hcb; subst. exact Hrd. }
  exists endpoints, verifier, headers, body, rest.
  rewrite Hsame, Hrq, Hrb, Hra, Hparams. simpl.
  repeat split; assumption.
Qed.

Lemma loginFlow_then_handleCallback_witness :
  exists endpoints verifier headers body rest,
    svc_endpoints Demo.app = Some endpoints /\
    param "code_challenge" (nav_params Demo.login_navigation)
    = Some (PkceUtils.generateCodeChallenge verifier) /\
    requests (snd (handleCallback Demo.callback_app (Demo.idp (Some 3600) true) "xyz"
                     "AAECAwQFBgcICQoLDA0ODw" Demo.callback_page))
    = requests Demo.callback_page ++
      HttpRequest "POST" "https://idp.example/token" headers body :: rest /\
    param "code" body = Some "xyz"%string /\
    param "code_verifier" body = Some verifier /\
    param "redirect_uri" (nav_params Demo.login_navigation)
    = Some "https://app.example"%string /\
    param "redirect_uri" body
    = Some "https://app.example/?code=xyz&state=AAECAwQFBgcICQoLDA0ODw"%string.
Proof.
  destruct (loginFlow_then_handleCallback Demo.app Demo.callback_app (fun _ => true)
              (map Z.of_nat (seq 0 32)) (map Z.of_nat (seq 0 16))
              (snd Demo.initialized_app) Demo.after_login Demo.callback_page
              (snd (handleCallback Demo.callback_app (Demo.idp (Some 3600) true) "xyz"
                      "AAECAwQFBgcICQoLDA0ODw" Demo.callback_page))
              Demo.login_navigation (Demo.idp (Some 3600) true) "xyz"
              (fst (handleCallback Demo.callback_app (Demo.idp (Some 3600) true) "xyz"
                      "AAECAwQFBgcICQoLDA0ODw" Demo.callback_page))
              (extract_endpoints Demo.idp_configuration))
    as (endpoints & verifier & headers & body & rest & Hep & _ & _ & _ & Hch & Hrq &
        _ & Hc & Hv & _ & _ & Hr1 & _ & Hr2).
  - vm_compute. reflexivity.
  - reflexivity.
  - vm_compute. reflexivity.
  - vm_compute. reflexivity.
  - vm_compute. reflexivity.
  - exists endpoints, verifier, headers, body, rest. repeat split; assumption.
Defined.

(** X13. A failed [initialize] does not make the service usable: the
    [initialized] flag and the endpoints are what they were, so a service
    that was never initialized still refuses [login] and [handleCallback]
    with the not-initialized error, without touching the store (a stored
    state or verifier is not consumed) and without a request. *)
Theorem initialize_failure_keeps_state
        (svc svc' : Service) (net : Network) (origin : string) (config : OAuthConfig)
        (w w' : World) (e : JsError) :
  initialize svc net origin config w = (Throw e, svc', w') ->
  initialized svc' = initialized svc /\
  svc_endpoints svc' = svc_endpoints svc /\
  (initialized svc = false ->
   forall net' valid_URL verifierBytes stateBytes code state w0,
     handleCallback svc' net' code state w0 = (Throw not_initialized, w0) /\
     loginFlow svc' valid_URL verifierBytes stateBytes w0 = (Throw not_initialized, w0)).
Proof.
  unfold initialize. intros H.
  assert (initialized svc' = initialized svc /\ svc_endpoints svc' = svc_endpoints svc)
    as [Hi He].
  { destruct (negb (wtruthy (cfg_authority config)) || negb (truthy (cfg_clientId config))
              || negb (truthy (cfg_scope config))).
    - inversion H; subst. auto.
    - destruct (discoverOIDCEndpoints net _ w) as [[eps|e0] w1]; inversion H; subst; auto. }
  split; [exact Hi|]. split; [exact He|].
  intros Hfalse net' valid_URL verifierBytes stateBytes code state w0.
  unfold handleCallback, loginFlow, ensureInitialized. rewrite Hi, Hfalse. split; reflexivity.
Qed.

Lemma initialize_failure_keeps_state_witness :
  exists e svc' w',
    initialize new_service Demo.offline "https://app.example" Demo.app_config Demo.start
    = (Throw e, svc', w') /\
    initialized svc' = false /\
    handleCallback svc' Demo.offline "xyz" "af0ifjsldkj" Demo.pending_login
    = (Throw not_initialized, Demo.pending_login).
Proof.
  do 3 eexists. split; [vm_compute; reflexivity|].
  destruct (initialize_failure_keeps_state new_service _ Demo.offline "https://app.example"
              Demo.app_config Demo.start _
              (Error "OAuth2 initialization failed: OIDC discovery failed: Failed to fetch")
              ltac:(vm_compute; reflexivity)) as (Hi & _ & Hrefuse).
  split; [exact Hi|].
  apply (Hrefuse eq_refl Demo.offline (fun _ => true) [] [] "xyz"%string
           "af0ifjsldkj"%string Demo.pending_login).
Defined.

Ltac reload_case :=
  try reflexivity; try discriminate;
  repeat match goal with
         | H : Some _ = Some _ |- _ => inversion H; clear H; subst
         end;
  congruence.

(** X14. [logout] never fails and always ends with the authentication
    data gone: no session, no PKCE verifier, no OAuth state, no cached
    discovery document; the role ARN history is kept and no request is
    sent. What happens to the page is decided as follows. When a redirect
    to the provider was asked for, the service knows its endpoints, the
    end-session endpoint is a non-empty string and [new URL] accepts it,
    the browser is sent to that endpoint with the parameters
    [id_token_hint] (the ID token of the session that [getSession] returned
    before the data was cleared, left out when there is no session or no
    ID token) and [post_logout_redirect_uri] (the redirect URI of the
    service), in this order. In every other case the page is reloaded. *)
Theorem logout_always_clears
        (svc : Service) (valid_URL : string -> bool) (redirectToProvider : bool)
        (w : World) :
  exists session w0,
    getSession w = (Ok session, w0) /\
  exists after w1,
    logout svc valid_URL redirectToProvider w = (Ok after, w1) /\
    auth_session (storage w1) = None /\
    pkce_verifier (storage w1) = None /\
    oauth_state (storage w1) = None /\
    (forall authority, oidc_manifest (storage w1) !! cache_key authority = None) /\
    aws_role_arn_history (storage w1) = aws_role_arn_history (storage w) /\
    requests w1 = requests w /\
    (redirectToProvider = false -> after = Reload) /\
    (svc_endpoints svc = None -> after = Reload) /\
    (forall endpoints,
        svc_endpoints svc = Some endpoints ->
        truthy_opt (endSessionEndpoint endpoints) = false -> after = Reload) /\
    (forall endpoints url,
        svc_endpoints svc = Some endpoints ->
        endSessionEndpoint endpoints = Some url ->
        valid_URL url = false -> after = Reload) /\
    (forall endpoints url,
        redirectToProvider = true ->
        svc_endpoints svc = Some endpoints ->
        endSessionEndpoint endpoints = Some url ->
        truthy url = true ->
        valid_URL url = true ->
        after = Redirect
                  {| nav_url := url;
                     nav_params :=
                       id_token_hint session ++
                       [("post_logout_redirect_uri"%string,
                         default "null"%string (svc_redirectUri svc))] |}) /\
    (forall target, after = Redirect target ->
       exists endpoints,
         svc_endpoints svc = Some endpoints /\
         endSessionEndpoint endpoints = Some (nav_url target) /\
         valid_URL (nav_url target) = true /\
         param "post_logout_redirect_uri" (nav_params target)
         = Some (default "null"%string (svc_redirectUri svc))).
Proof.
  unfold logout, try_catch. unfold bind at 1.
  destruct (getSession_spec w) as (r & wa & Hg & _ & Hra & _ & _ & _ & Hha & _).
  rewrite Hg. exists r, wa. split; [reflexivity|].
  unfold bind at 1.
  destruct (clearAllAuthData_spec wa) as (wb & Hb & B1 & B2 & B3 & B4 & B5 & _ & B6).
  rewrite Hb.
  assert (forall w1, storage w1 = storage wb -> requests w1 = requests wb ->
            auth_session (storage w1) = None /\
            pkce_verifier (storage w1) = None /\
            oauth_state (storage w1) = None /\
            (forall authority, oidc_manifest (storage w1) !! cache_key authority = None) /\
            aws_role_arn_history (storage w1) = aws_role_arn_history (storage w) /\
            requests w1 = requests w) as Hclear.
  { intros w1 Hs1 Hr1. rewrite Hs1, Hr1. repeat split; auto; congruence. }
  destruct (Hclear wb eq_refl eq_refl) as (C1 & C2 & C3 & C4 & C5 & C6).
  destruct (svc_endpoints svc) as [endpoints|] eqn:Hep.
  2:{ exists Reload, wb. split; [reflexivity|].
      repeat (split; [assumption|]).
      repeat split; intros; reload_case. }
  destruct redirectToProvider; simpl.
  2:{ exists Reload, wb. split; [reflexivity|].
      repeat (split; [assumption|]).
      repeat split; intros; reload_case. }
  destruct (endSessionEndpoint endpoints) as [url|] eqn:Hend; simpl.
  2:{ exists Reload, wb. split; [reflexivity|].
      repeat (split; [assumption|]).
      repeat split; intros; reload_case. }
  destruct (truthy url) eqn:Hurl; simpl.
  2:{ exists Reload, wb. split; [reflexivity|].
      repeat (split; [assumption|]).
      repeat split; intros; reload_case. }
  unfold new_URL, bind.
  destruct (valid_URL url) eqn:Hvalid.
  - unfold ret. do 2 eexists. split; [reflexivity|].
    repeat (split; [assumption|]).
    assert (forall s : option AuthSession,
              match s with
              | Some s0 =>
                  if truthy_opt (idToken s0)
                  then [("id_token_hint"%string, default EmptyString (idToken s0))]
                  else []
              | None => []
              end = id_token_hint s) as Hhint.
    { intros [s0|]; [|reflexivity]. unfold id_token_hint.
      destruct (idToken s0) as [t|]; reflexivity. }
    rewrite Hhint.
    split; [discriminate|]. split; [discriminate|].
    split; [intros endpoints0 H0 Hf; inversion H0; subst; rewrite Hend in Hf;
            simpl in Hf; congruence|].
    split; [intros endpoints0 url0 H0 H1 Hf; inversion H0; subst; congruence|].
    split.
    + intros endpoints0 url0 _ H0 H1 _ _. inversion H0; subst.
      rewrite Hend in H1. inversion H1; subst. reflexivity.
    + intros target Ht. inversion Ht; subst. simpl.
      exists endpoints. repeat split; auto.
      destruct (id_token_hint r) as [|p l] eqn:Eh; [reflexivity|].
      unfold id_token_hint in Eh.
      destruct r as [s0|]; [|discriminate]. destruct (idToken s0); [|discriminate].
      destruct (truthy s); inversion Eh; subst. reflexivity.
  - unfold throw.
    destruct (clearAllAuthData_spec wb) as (wc & Hc & D1 & D2 & D3 & D4 & D5 & _ & D6).
    rewrite Hc. unfold ret. exists Reload, wc. split; [reflexivity|].
    split; [exact D1|]. split; [exact D2|]. split; [exact D3|]. split; [exact D4|].
    split; [congruence|]. split; [congruence|].
    repeat split; intros; reload_case.
Qed.

Lemma logout_always_clears_witness :
  exists w1,
    logout Demo.sso_app (fun _ => true) true Demo.signed_in
    = (Ok (Redirect
             {| nav_url := "https://idp.example/logout";
                nav_params :=
                  [("id_token_hint", "eyJhbGciOi.e30.sig");
                   ("post_logout_redirect_uri", "https://app.example")]%string |}),
       w1) /\
    auth_session (storage w1) = None.
Proof.
  destruct (logout_always_clears Demo.sso_app (fun _ => true) true Demo.signed_in)
    as (session & w0 & Hg & after & w1 & Hrun & Hs & _ & _ & _ & _ & _ & _ & _ & _ & _ &
        Hredirect & _).
  exists w1. split; [|exact Hs].
  rewrite Hrun.
  rewrite (Hredirect (extract_endpoints Demo.sso_configuration)
             "https://idp.example/logout"%string eq_refl eq_refl eq_refl eq_refl eq_refl).
  assert (getSession Demo.signed_in
          = (Ok (Some (Demo.a_session 1793597280000)), Demo.signed_in)) as Hsession
    by (vm_compute; reflexivity).
  rewrite Hsession in Hg. inversion Hg; subst. reflexivity.
Defined.

(** The ID token of the session is the one of the token response. *)
Lemma complete_callback_idToken svc net code verifier w u s w' :
  complete_callback svc net code verifier w = (Ok (u, s), w') ->
  exists tr w1,
    exchangeCodeForTokens svc net code verifier w = (Ok tr, w1) /\
    accessToken s = access_token tr /\
    idToken s = (if truthy_opt (id_token tr) then id_token tr else None) /\
    refreshToken s = (if truthy_opt (refresh_token tr) then refresh_token tr else None).
Proof.
  unfold complete_callback. unfold bind at 1.
  destruct (exchangeCodeForTokens svc net code verifier w) as [[tr|e] w1] eqn:Eex;
    [|discriminate].
  unfold bind at 1.
  destruct (fetchUserInfo svc net (access_token tr) w1) as [[u'|e] w2] eqn:Eui;
    [|discriminate].
  unfold storeSession, non_null. intros H. exists tr, w1. split; [reflexivity|].
  run; repeat split; reflexivity.
Qed.

Lemma handleCallback_complete svc net code state w u s w' :
  initialized svc = true ->
  handleCallback svc net code state w = (Ok (u, s), w') ->
  exists verifier w0, complete_callback svc net code verifier w0 = (Ok (u, s), w').
Proof.
  intros Hinit Hrun. rewrite handleCallback_unfold in Hrun by assumption.
  destruct (retrieveOAuthState_spec w) as (w1 & Hw1 & _). rewrite Hw1 in Hrun.
  destruct (callback_failed_spec (Error "Invalid state parameter - possible CSRF attack") w1)
    as (wa & Hwa & _).
  destruct (negb (truthy_opt (oauth_state (storage w)))
            || negb (bool_decide (oauth_state (storage w) = Some state)));
    [rewrite Hwa in Hrun; discriminate|].
  destruct (retrievePKCEVerifier_spec w1) as (w2 & Hw2 & _). rewrite Hw2 in Hrun.
  destruct (callback_failed_spec (Error "PKCE code verifier not found") w2)
    as (wb & Hwb & _).
  destruct (negb (truthy_opt (pkce_verifier (storage w1))));
    [rewrite Hwb in Hrun; discriminate|].
  destruct (complete_callback svc net code (default EmptyString (pkce_verifier (storage w1))) w2)
    as [[[u' s'] |e] w3] eqn:Ec.
  - inversion Hrun; subst. eauto.
  - destruct (callback_failed_spec e w3) as (wc & Hwc & _).
    rewrite Hwc in Hrun. discriminate.
Qed.

(** X15. After a successful callback the getters of the service return
    what the provider sent: [getAccessToken] the access token,
    [getIdToken] the ID token of the token response ([null] when it had
    none or an empty one), [getCurrentUser] the user of the callback; the
    getters leave the store as it is. The session must be readable, which
    it is unless its expiry time is exactly 0. *)
Theorem getters_after_callback
        (svc : Service) (net : Network) (code state : string) (w w' : World)
        (u : UserInfo) (s : AuthSession) :
  initialized svc = true ->
  handleCallback svc net code state w = (Ok (u, s), w') ->
  expiresAt s <> 0 ->
  exists tr rq status statusText text,
    fetch_token net rq = Response true status statusText text (inr tr) /\
    getAccessToken w' = (Ok (Some (access_token tr)), w') /\
    getIdToken w' = (Ok (if truthy_opt (id_token tr) then id_token tr else None), w') /\
    getCurrentUser w' = (Ok (Some u), w').
Proof.
  intros Hinit Hrun Hexp.
  destruct (handleCallback_ok _ _ _ _ _ _ _ _ Hinit Hrun)
    as (tr & _ & Htok & Hat & Hu & _ & _ & Hstored).
  destruct (handleCallback_complete _ _ _ _ _ _ _ _ Hinit Hrun) as (verifier & w0 & Hc).
  destruct (complete_callback_idToken _ _ _ _ _ _ _ _ Hc) as (tr' & w1 & Hex & Hat' & Hid & _).
  destruct (exchangeCodeForTokens_ok _ _ _ _ _ _ _ Hex)
    as (Htok' & _ & rq & st & stt & txt & Hrq & _).
  exists tr', rq, st, stt, txt. split; [exact Hrq|].
  assert (num_truthy (expiresAt s) = true) as Hn.
  { unfold num_truthy. destruct (Z.eqb_spec (expiresAt s) 0); [contradiction|reflexivity]. }
  unfold getAccessToken, getIdToken, getCurrentUser, getSession. unfold_monad. simpl.
  rewrite Hstored. simpl.
  assert (truthy (accessToken s) = true) as Hts by (rewrite Hat'; exact Htok').
  rewrite Hts, Hn. simpl. rewrite Hts, Hat', Hid, Hu.
  repeat split.
  unfold or_else. destruct (truthy_opt (id_token tr')) eqn:E; [rewrite E|]; reflexivity.
Qed.

Lemma getters_after_callback_witness :
  exists w',
    snd (handleCallback Demo.app (Demo.idp (Some 3600) true) "xyz" "af0ifjsldkj"
           Demo.pending_login) = w' /\
    getAccessToken w' = (Ok (Some "gho_access"%string), w') /\
    getIdToken w' = (Ok (Some "eyJhbGciOi.e30.sig"%string), w').
Proof.
  eexists. split; [reflexivity|].
  destruct (getters_after_callback Demo.app (Demo.idp (Some 3600) true) "xyz"
              "af0ifjsldkj" Demo.pending_login
              (snd (handleCallback Demo.app (Demo.idp (Some 3600) true) "xyz" "af0ifjsldkj"
                      Demo.pending_login))
              Demo.octocat
              (snd (Demo.callback_result)))
    as (tr & rq & st & stt & txt & Hrq & Ha & Hi & _).
  - reflexivity.
  - vm_compute. reflexivity.
  - vm_compute. discriminate.
  - vm_compute in Hrq. inversion Hrq; subst. split; [exact Ha | exact Hi].
Defined.

(** X16. The token getters do not look at the expiry. With a stored
    session that has expired, [getAccessToken] and [getIdToken] still
    return its tokens and leave it in the store; [isAuthenticated] answers
    [false] and removes the session, and only then do the getters return
    [null]. *)
Theorem token_getters_ignore_expiry (w : World) (s : AuthSession) :
  auth_session (storage w) = Some (Json s) ->
  truthy (accessToken s) = true ->
  expiresAt s <> 0 ->
  expiresAt s <= clock w ->
  getAccessToken w = (Ok (Some (accessToken s)), w) /\
  getIdToken w = (Ok (or_else (idToken s) None), w) /\
  exists w1,
    isAuthenticated w = (Ok false, w1) /\
    auth_session (storage w1) = None /\
    getAccessToken w1 = (Ok None, w1) /\
    getIdToken w1 = (Ok None, w1).
Proof.
  intros Hs Htok Hexp Hpast.
  assert (num_truthy (expiresAt s) = true) as Hn.
  { unfold num_truthy. destruct (Z.eqb_spec (expiresAt s) 0); [contradiction|reflexivity]. }
  unfold getAccessToken, getIdToken, isAuthenticated, isSessionValid, getSession, clearSession.
  unfold_monad. simpl. rewrite Hs, Htok, Hn. simpl. rewrite Htok.
  split; [reflexivity|]. split; [reflexivity|].
  replace (clock w >=? expiresAt s) with true by (symmetry; apply Z.geb_le; lia).
  eexists. split; [reflexivity|]. simpl. repeat split.
Qed.

Lemma token_getters_ignore_expiry_witness :
  getAccessToken (at_time 1793600880000 Demo.signed_in)
  = (Ok (Some "gho_access"%string), at_time 1793600880000 Demo.signed_in) /\
  fst (isAuthenticated (at_time 1793600880000 Demo.signed_in)) = Ok false.
Proof.
  destruct (token_getters_ignore_expiry (at_time 1793600880000 Demo.signed_in)
              (Demo.a_session 1793597280000))
    as (Ha & _ & w1 & Hv & _); [reflexivity | reflexivity | discriminate | simpl; lia |].
  split; [exact Ha|]. rewrite Hv. reflexivity.
Defined.

(* --------------------------------------------------------------------- *)
(** *** awsService: credentials, errors, console URL *)

(** [generateSessionName] never throws and only reads the clock. *)
Lemma generateSessionName_total githubUser w :
  exists sessionName, generateSessionName githubUser w = (Ok sessionName, w).
Proof.
  unfold generateSessionName. unfold_monad. simpl.
  match goal with |- context [if ?c then _ else _] => destruct c end; eauto.
Qed.

Lemma createAWSError_name error context :
  err_name (createAWSError error context) = "AWSError"%string.
Proof. unfold createAWSError. destruct (_ && _); reflexivity. Qed.

(** The outcomes of [assumeRoleWithWebIdentity]. *)
Lemma assumeRoleWithWebIdentity_outcome
      cfg net roleArn webIdentityToken sessionName duration w r w' :
  assumeRoleWithWebIdentity cfg net roleArn webIdentityToken sessionName duration w
  = (r, w') ->
  let rq := sts_request cfg roleArn webIdentityToken sessionName duration in
  storage w' = storage w /\
  match r with
  | Ok (credentials, _) =>
      requests w' = requests w ++ [rq] /\
      MIN_DURATION_SECONDS <= default (defaultDurationSeconds cfg) duration
        <= MAX_DURATION_SECONDS /\
      truthy roleArn = true /\ truthy webIdentityToken = true /\
      truthy sessionName = true /\
      exists output sts,
        sts_send net rq = inr output /\ out_Credentials output = Some sts /\
        truthy (sts_AccessKeyId sts) = true /\
        truthy (sts_SecretAccessKey sts) = true /\
        truthy (sts_SessionToken sts) = true /\
        credentials = {| AccessKeyId := sts_AccessKeyId sts;
                         SecretAccessKey := sts_SecretAccessKey sts;
                         SessionToken := sts_SessionToken sts;
                         Expiration := default 0 (sts_Expiration sts) |} /\
        sts_Expiration sts = Some (Expiration credentials)
  | Throw e =>
      err_name e = "AWSError"%string /\
      (requests w' = requests w \/ requests w' = requests w ++ [rq])
  end.
Proof.
  unfold assumeRoleWithWebIdentity, sts_request. intros H.
  destruct (negb (truthy roleArn) || negb (truthy webIdentityToken)
            || negb (truthy sessionName)) eqn:Eargs.
  { unfold_monad. simpl in H. inversion H; subst. simpl. rewrite ?createAWSError_name. auto. }
  destruct ((default (defaultDurationSeconds cfg) duration <? MIN_DURATION_SECONDS)
            || (default (defaultDurationSeconds cfg) duration >? MAX_DURATION_SECONDS))
    eqn:Edur.
  { unfold_monad. simpl in H. inversion H; subst. simpl. rewrite ?createAWSError_name. auto. }
  apply orb_false_iff in Eargs as [Eargs E3]. apply orb_false_iff in Eargs as [E1 E2].
  apply negb_false_iff in E1, E2, E3.
  apply orb_false_iff in Edur as [D1 D2].
  apply Z.ltb_ge in D1. rewrite Z.gtb_ltb in D2. apply Z.ltb_ge in D2.
  unfold_monad. simpl in H.
  match type of H with context [sts_send net ?rq] =>
    destruct (sts_send net rq) as [e|output] eqn:Esend end; simpl in H;
    [inversion H; subst; simpl; rewrite ?createAWSError_name; auto|].
  destruct (out_Credentials output) as [c|] eqn:Ecred; simpl in H;
    [|inversion H; subst; simpl; rewrite ?createAWSError_name; auto].
  destruct (truthy (sts_AccessKeyId c)) eqn:T1; simpl in H;
    [|inversion H; subst; simpl; rewrite ?createAWSError_name; auto].
  destruct (truthy (sts_SecretAccessKey c)) eqn:T2; simpl in H;
    [|inversion H; subst; simpl; rewrite ?createAWSError_name; auto].
  destruct (truthy (sts_SessionToken c)) eqn:T3; simpl in H;
    [|inversion H; subst; simpl; rewrite ?createAWSError_name; auto].
  destruct (sts_Expiration c) as [expiration|] eqn:T4; simpl in H;
    [|inversion H; subst; simpl; rewrite ?createAWSError_name; auto].
  inversion H; subst; simpl. split; [reflexivity|]. split; [reflexivity|].
  split; [lia|]. repeat (split; [assumption|]).
  exists output, c. rewrite T4. repeat split; auto.
Qed.

(** X17. Credentials returned by [assumeRoleWithWebIdentity] are complete
    and are the ones STS sent: access key id, secret access key and session
    token are non-empty, the expiration is the one of the response; exactly
    one request went to STS, for the given role, session name and token,
    and the store is untouched. *)
Theorem assumeRoleWithWebIdentity_complete_credentials
        (cfg : AWSConfig) (net : Network) (roleArn webIdentityToken sessionName : string)
        (duration : option Z) (w w' : World) (credentials : AWSCredentials)
        (assumed : option AssumedRoleUser) :
  assumeRoleWithWebIdentity cfg net roleArn webIdentityToken sessionName duration w
  = (Ok (credentials, assumed), w') ->
  truthy (AccessKeyId credentials) = true /\
  truthy (SecretAccessKey credentials) = true /\
  truthy (SessionToken credentials) = true /\
  requests w' = requests w ++
    [StsAssumeRoleWithWebIdentity roleArn sessionName webIdentityToken
       (default (defaultDurationSeconds cfg) duration)] /\
  storage w' = storage w /\
  exists output sts,
    sts_send net (StsAssumeRoleWithWebIdentity roleArn sessionName webIdentityToken
                    (default (defaultDurationSeconds cfg) duration)) = inr output /\
    out_Credentials output = Some sts /\
    AccessKeyId credentials = sts_AccessKeyId sts /\
    SecretAccessKey credentials = sts_SecretAccessKey sts /\
    SessionToken credentials = sts_SessionToken sts /\
    sts_Expiration sts = Some (Expiration credentials).
Proof.
  intros H.
  destruct (assumeRoleWithWebIdentity_outcome _ _ _ _ _ _ _ _ _ H)
    as (Hst & Hrq & _ & _ & _ & _ & output & sts & Hsend & Hcred & T1 & T2 & T3 & Hc & Hexp).
  unfold sts_request in *. subst credentials. simpl in *.
  repeat split; auto. exists output, sts. repeat split; auto.
Qed.

Lemma assumeRoleWithWebIdentity_complete_credentials_witness :
  exists credentials w',
    assumeRoleWithWebIdentity (new_AWSService no_config) (Demo.idp None true)
      Demo.my_role "eyJhbGciOi.e30.sig" "github-octocat-2026-11-02T05-28-00" None
      Demo.start = (Ok (credentials, None), w') /\
    truthy (AccessKeyId credentials) = true /\
    truthy (SecretAccessKey credentials) = true /\
    truthy (SessionToken credentials) = true.
Proof.
  do 2 eexists. split; [vm_compute; reflexivity|].
  destruct (assumeRoleWithWebIdentity_complete_credentials
              (new_AWSService no_config) (Demo.idp None true)
              Demo.my_role "eyJhbGciOi.e30.sig" "github-octocat-2026-11-02T05-28-00" None
              Demo.start _ _ None ltac:(vm_compute; reflexivity))
    as (H1 & H2 & H3 & _).
  repeat split; assumption.
Defined.

(** An error of STS, as [assumeRoleWithWebIdentity] throws it. *)
Lemma assumeRoleWithWebIdentity_sts_error
      cfg net roleArn webIdentityToken sessionName duration w error :
  truthy roleArn = true -> truthy webIdentityToken = true ->
  truthy sessionName = true ->
  MIN_DURATION_SECONDS <= default (defaultDurationSeconds cfg) duration
    <= MAX_DURATION_SECONDS ->
  sts_send net (sts_request cfg roleArn webIdentityToken sessionName duration)
  = inl error ->
  truthy (err_name error) = true -> truthy (message error) = true ->
  exists w',
    assumeRoleWithWebIdentity cfg net roleArn webIdentityToken sessionName duration w
    = (Throw {| err_name := "AWSError"; message := message error;
                code := Some (err_name error) |}, w') /\
    requests w' = requests w ++
                  [sts_request cfg roleArn webIdentityToken sessionName duration].
Proof.
  intros H1 H2 H3 Hd Hsend Hn Hm.
  unfold assumeRoleWithWebIdentity, sts_request in *. unfold_monad.
  rewrite H1, H2, H3. simpl.
  replace (default (defaultDurationSeconds cfg) duration <? MIN_DURATION_SECONDS)
    with false by (symmetry; apply Z.ltb_ge; lia).
  replace (default (defaultDurationSeconds cfg) duration >? MAX_DURATION_SECONDS)
    with false by (symmetry; rewrite Z.gtb_ltb; apply Z.ltb_ge; lia).
  simpl. rewrite Hsend. simpl. unfold createAWSError. rewrite Hn, Hm. simpl.
  eexists. split; reflexivity.
Qed.

(** X18. [assumeRoleWithWebIdentity] reports an error of STS under its
    own name: the thrown error is an [AWSError] whose [code] is the name of
    the STS error (for instance [AccessDenied]) and whose message is the
    message of STS. The one request that was sent is in the log and the
    store is untouched. *)
Theorem assumeRoleWithWebIdentity_error_code
        (cfg : AWSConfig) (net : Network) (roleArn webIdentityToken sessionName : string)
        (duration : option Z) (w : World) (error : JsError) :
  truthy roleArn = true -> truthy webIdentityToken = true ->
  truthy sessionName = true ->
  MIN_DURATION_SECONDS <= default (defaultDurationSeconds cfg) duration
    <= MAX_DURATION_SECONDS ->
  sts_send net (sts_request cfg roleArn webIdentityToken sessionName duration)
  = inl error ->
  truthy (err_name error) = true -> truthy (message error) = true ->
  exists w',
    assumeRoleWithWebIdentity cfg net roleArn webIdentityToken sessionName duration w
    = (Throw {| err_name := "AWSError"; message := message error;
                code := Some (err_name error) |}, w') /\
    requests w' = requests w ++
                  [sts_request cfg roleArn webIdentityToken sessionName duration] /\
    storage w' = storage w.
Proof.
  intros H1 H2 H3 Hd Hsend Hn Hm.
  destruct (assumeRoleWithWebIdentity_sts_error cfg net roleArn webIdentityToken
              sessionName duration w error H1 H2 H3 Hd Hsend Hn Hm) as (w' & Hrun & Hrq).
  exists w'. split; [exact Hrun|]. split; [exact Hrq|].
  now destruct (assumeRoleWithWebIdentity_outcome _ _ _ _ _ _ _ _ _ Hrun).
Qed.

Lemma assumeRoleWithWebIdentity_error_code_witness :
  exists w',
    assumeRoleWithWebIdentity (new_AWSService no_config) Demo.sts_denied
      Demo.my_role "eyJhbGciOi.e30.sig" "github-octocat-2026-11-02T05-28-00" None
      Demo.start
    = (Throw {| err_name := "AWSError";
                message := "Not authorized to perform sts:AssumeRoleWithWebIdentity";
                code := Some "AccessDenied"%string |}, w').
Proof.
  destruct (assumeRoleWithWebIdentity_error_code
              (new_AWSService no_config) Demo.sts_denied
              Demo.my_role "eyJhbGciOi.e30.sig" "github-octocat-2026-11-02T05-28-00" None
              Demo.start
              {| err_name := "AccessDenied";
                 message := "Not authorized to perform sts:AssumeRoleWithWebIdentity";
                 code := None |})
    as (w' & H & _);
    [reflexivity | reflexivity | reflexivity | vm_compute; split; discriminate
    | reflexivity | reflexivity | reflexivity |].
  exists w'. exact H.
Defined.

Lemma generateConsoleUrl_throws cfg net federation origin credentials consoleUrl w e w' :
  generateConsoleUrl cfg net federation origin credentials consoleUrl w = (Throw e, w') ->
  err_name e = "AWSError"%string.
Proof.
  unfold generateConsoleUrl. intros H.
  run; first [reflexivity | apply createAWSError_name].
Qed.

(** X19. [assumeRoleAndOpenConsole] hides the error code. Every error it
    throws is an [AWSError]; when the error has a message, its [code] is
    the string [AWSError], whatever went wrong: the name of the STS error
    that [assumeRoleWithWebIdentity] had recorded as [code] is overwritten
    when the error is wrapped a second time. *)
Theorem assumeRoleAndOpenConsole_error_code
        (cfg : AWSConfig) (net : Network)
        (federation : Request -> FetchResult AWSConsoleFederationResponse)
        (origin roleArn : string) (githubUser : UserInfo) (webIdentityToken : string)
        (consoleUrl : option string) (w w' : World) (e : JsError) :
  assumeRoleAndOpenConsole cfg net federation origin roleArn githubUser webIdentityToken
    consoleUrl w = (Throw e, w') ->
  err_name e = "AWSError"%string /\
  (message e <> EmptyString -> code e = Some "AWSError"%string).
Proof.
  unfold assumeRoleAndOpenConsole, try_catch.
  match goal with |- context [match ?m w with _ => _ end] => set (body := m) end.
  assert (forall r w1, body w = (r, w1) ->
            match r with
            | Ok _ => True
            | Throw e0 => err_name e0 = "AWSError"%string
            end) as Hbody.
  { subst body. intros r w1. unfold bind at 1.
    destruct (generateSessionName_total githubUser w) as (sessionName & ->).
    unfold bind at 1.
    destruct (assumeRoleWithWebIdentity cfg net roleArn webIdentityToken sessionName None w)
      as [[[c a]|e0] w2] eqn:Ea.
    - unfold bind at 1. unfold Date_now at 1. unfold bind at 1.
      destruct (generateConsoleUrl cfg net federation origin (fst (c, a)) consoleUrl w2)
        as [[url|e1] w3] eqn:Eg.
      + intros H. inversion H; subst. exact I.
      + intros H. inversion H; subst. eapply generateConsoleUrl_throws; eauto.
    - intros H. inversion H; subst.
      now destruct (assumeRoleWithWebIdentity_outcome _ _ _ _ _ _ _ _ _ Ea) as (_ & ? & _). }
  destruct (body w) as [[a|e0] w1] eqn:Eb; [discriminate|].
  specialize (Hbody _ _ eq_refl). simpl in Hbody.
  unfold throw, createAWSError. rewrite Hbody. simpl.
  destruct (truthy (message e0)) eqn:Em; intros H; inversion H; subst; simpl.
  - auto.
  - split; [reflexivity|]. intros Hne. destruct (message e0); [contradiction|discriminate].
Qed.

Lemma assumeRoleAndOpenConsole_error_code_witness :
  exists e w',
    assumeRoleAndOpenConsole (new_AWSService no_config) Demo.sts_denied Demo.signin
      "https://app.example" Demo.my_role Demo.octocat "eyJhbGciOi.e30.sig" None Demo.start
    = (Throw e, w') /\
    message e = "Not authorized to perform sts:AssumeRoleWithWebIdentity"%string /\
    code e = Some "AWSError"%string.
Proof.
  do 2 eexists. split; [vm_compute; reflexivity|]. split; [reflexivity|].
  apply (assumeRoleAndOpenConsole_error_code (new_AWSService no_config) Demo.sts_denied
           Demo.signin "https://app.example" Demo.my_role Demo.octocat
           "eyJhbGciOi.e30.sig" None Demo.start _ _ ltac:(vm_compute; reflexivity)).
  discriminate.
Defined.

Lemma str_app_assoc (s t u : string) : (s +:+ t) +:+ u = s +:+ (t +:+ u).
Proof.
  induction s as [|c r IH]; [reflexivity|].
  rewrite !str_app_cons. congruence.
Qed.

Lemma urlencode_bytes_app l1 l2 :
  urlencode_bytes (l1 ++ l2) = urlencode_bytes l1 +:+ urlencode_bytes l2.
Proof.
  induction l1 as [|b r IH]; [reflexivity|].
  simpl. rewrite IH, str_app_assoc. reflexivity.
Qed.

(** An encoded value consists of [A-Za-z0-9*-._], ['+'] and ['%']. *)
Lemma urlencode_chars s : str_all form_encoded_char (urlencode s) = true.
Proof.
  assert (forall c, str_all form_encoded_char (urlencode_bytes (utf8_unit c)) = true) as H.
  { apply forall_ascii. vm_compute. reflexivity. }
  unfold urlencode. induction s as [|c r IH]; [reflexivity|].
  simpl. rewrite urlencode_bytes_app, str_all_app, H. exact IH.
Qed.

Lemma split_on_none c s :
  str_all (fun x => negb (Ascii.eqb x c)) s = true -> split_on c s = [s].
Proof.
  induction s as [|x r IH]; [reflexivity|].
  simpl. rewrite andb_true_iff. intros [Hx Hr].
  apply negb_true_iff in Hx. rewrite Hx, (IH Hr). reflexivity.
Qed.

Lemma split_on_app c s t :
  str_all (fun x => negb (Ascii.eqb x c)) s = true ->
  split_on c (s +:+ String c t) = s :: split_on c t.
Proof.
  induction s as [|x r IH].
  - intros _. rewrite str_app_nil. simpl. now rewrite Ascii.eqb_refl.
  - rewrite str_all_cons, andb_true_iff. intros [Hx Hr].
    apply negb_true_iff in Hx. rewrite str_app_cons.
    change (split_on c (String x (r +:+ String c t)))
      with (if Ascii.eqb x c then EmptyString :: split_on c (r +:+ String c t)
            else match split_on c (r +:+ String c t) with
                 | part :: parts => String x part :: parts
                 | [] => [String x EmptyString]
                 end).
    rewrite Hx, (IH Hr). reflexivity.
Qed.

Lemma form_encoded_no_amp s :
  str_all form_encoded_char s = true ->
  str_all (fun x => negb (Ascii.eqb x "&")) s = true.
Proof.
  apply str_all_impl. intros c.
  destruct (Ascii.eqb_spec c "&") as [->|]; [vm_compute; discriminate|reflexivity].
Qed.

(** The one request of a successful [generateConsoleUrl]. *)
Lemma generateConsoleUrl_request
      cfg net federation origin credentials consoleUrl w url w' :
  generateConsoleUrl cfg net federation origin credentials consoleUrl w = (Ok url, w') ->
  storage w' = storage w /\
  exists target,
    requests w' = requests w ++
      [HttpRequest "GET" target [("Accept", "application/json")] []]%string.
Proof.
  unfold generateConsoleUrl. intros H. run; split; eauto.
Qed.

(** X20. The console URL of [generateConsoleUrl]. One GET request asks
    for the sign-in token, at the proxy when one is configured and at the
    federation endpoint otherwise; the answer must carry a non-empty token.
    The URL returned always points to the federation endpoint itself, and
    its query has exactly the four parameters Action, Issuer, Destination
    and SigninToken: the values are form-encoded, so a destination or a
    token that contains ['&'] cannot add a parameter. *)
Theorem generateConsoleUrl_four_parameters
        (cfg : AWSConfig) (net : Network)
        (federation : Request -> FetchResult AWSConsoleFederationResponse)
        (origin : string) (credentials : AWSCredentials) (consoleUrl : option string)
        (w w' : World) (url : string) :
  generateConsoleUrl cfg net federation origin credentials consoleUrl w = (Ok url, w') ->
  exists endpoint session token query,
    endpoint = str_or (federationEndpointProxy cfg) (federationEndpoint cfg) /\
    requests w' = requests w ++
      [HttpRequest "GET" (endpoint +:+ "?Action=getSigninToken&Session=" +:+ session)
         [("Accept", "application/json")] []]%string /\
    storage w' = storage w /\
    token <> EmptyString /\
    url = federationEndpoint cfg +:+ "?" +:+ query /\
    split_on "&" query =
      [ "Action=login";
        "Issuer=" +:+ urlencode origin;
        "Destination=" +:+ urlencode (str_or consoleUrl (consoleBaseUrl cfg));
        "SigninToken=" +:+ urlencode token ]%string.
Proof.
  unfold generateConsoleUrl. intros H.
  unfold_monad. simpl in H.
  match type of H with context [federation ?rq] =>
    destruct (federation rq) as [e|ok st stt txt [e|data]] eqn:Ef end;
    simpl in H; try discriminate;
    destruct ok; simpl in H; try discriminate.
  destruct (truthy (SigninToken data)) eqn:Et; simpl in H; [|discriminate].
  inversion H; subst. simpl.
  eexists _, _, (SigninToken data), _.
  split; [reflexivity|]. split; [reflexivity|]. split; [reflexivity|].
  split; [intros E; rewrite E in Et; discriminate|].
  split; [reflexivity|].
  change (urlencode "Action" +:+ "=" +:+ urlencode "login" +:+ "&" +:+
          urlencode "Issuer" +:+ "=" +:+ urlencode origin +:+ "&" +:+
          urlencode "Destination" +:+ "=" +:+
          urlencode (str_or consoleUrl (consoleBaseUrl cfg)) +:+ "&" +:+
          urlencode "SigninToken" +:+ "=" +:+ urlencode (SigninToken data))%string
    with ("Action=login" +:+
          String "&" (("Issuer=" +:+ urlencode origin) +:+
          String "&" (("Destination=" +:+
                       urlencode (str_or consoleUrl (consoleBaseUrl cfg))) +:+
          String "&" ("SigninToken=" +:+ urlencode (SigninToken data)))))%string.
  rewrite !split_on_app, split_on_none; try reflexivity;
    rewrite str_all_app; apply andb_true_iff; split; try reflexivity;
    apply form_encoded_no_amp, urlencode_chars.
Qed.

Lemma generateConsoleUrl_four_parameters_witness :
  exists url w',
    generateConsoleUrl (new_AWSService no_config) (Demo.idp None true) Demo.signin
      "https://app.example" Demo.temporary_credentials
      (Some "https://console.aws.amazon.com/s3/home?region=eu-west-1&tab=a"%string)
      Demo.start = (Ok url, w') /\
    url = ("https://signin.aws.amazon.com/federation?Action=login"
           +:+ "&Issuer=https%3A%2F%2Fapp.example"
           +:+ "&Destination=https%3A%2F%2Fconsole.aws.amazon.com%2Fs3%2Fhome"
           +:+ "%3Fregion%3Deu-west-1%26tab%3Da"
           +:+ "&SigninToken=Vx3-Tok%2Fen%3D")%string.
Proof.
  do 2 eexists. split; [vm_compute; reflexivity|].
  destruct (generateConsoleUrl_four_parameters (new_AWSService no_config)
              (Demo.idp None true) Demo.signin "https://app.example"
              Demo.temporary_credentials
              (Some "https://console.aws.amazon.com/s3/home?region=eu-west-1&tab=a"%string)
              Demo.start _ _ ltac:(vm_compute; reflexivity))
    as (endpoint & session & token & query & _ & _ & _ & _ & Hurl & _).
  reflexivity.
Defined.

(** X21. A successful [assumeRoleAndOpenConsole] sends exactly two
    requests, in this order: the STS request for the given role and token,
    under the generated session name and with the default duration of the
    configuration, then the sign-in token request. The session information
    it returns names the role and carries complete credentials; the
    [localStorage] is not touched (the role history is not written here). *)
Theorem assumeRoleAndOpenConsole_requests
        (cfg : AWSConfig) (net : Network)
        (federation : Request -> FetchResult AWSConsoleFederationResponse)
        (origin roleArn : string) (githubUser : UserInfo) (webIdentityToken : string)
        (consoleUrl : option string) (w w' : World)
        (info : AWSSessionInfo) (url : string) :
  assumeRoleAndOpenConsole cfg net federation origin roleArn githubUser webIdentityToken
    consoleUrl w = (Ok (info, url), w') ->
  exists federationUrl,
    requests w' = requests w ++
      [StsAssumeRoleWithWebIdentity roleArn (info_sessionName info) webIdentityToken
         (defaultDurationSeconds cfg);
       HttpRequest "GET" federationUrl [("Accept", "application/json")] []]%string /\
    generateSessionName githubUser w = (Ok (info_sessionName info), w) /\
    MIN_DURATION_SECONDS <= defaultDurationSeconds cfg <= MAX_DURATION_SECONDS /\
    info_roleArn info = roleArn /\
    truthy (AccessKeyId (info_credentials info)) = true /\
    truthy (SecretAccessKey (info_credentials info)) = true /\
    truthy (SessionToken (info_credentials info)) = true /\
    gh_sub (info_githubUser info) = sub githubUser /\
    storage w' = storage w.
Proof.
  unfold assumeRoleAndOpenConsole, try_catch.
  unfold bind at 1.
  destruct (generateSessionName_total githubUser w) as (sessionName & Hname).
  rewrite Hname. unfold bind at 1.
  destruct (assumeRoleWithWebIdentity cfg net roleArn webIdentityToken sessionName None w)
    as [[[c a]|e0] w1] eqn:Ea; [|discriminate].
  destruct (assumeRoleWithWebIdentity_outcome _ _ _ _ _ _ _ _ _ Ea)
    as (Hst & Hrq & Hd & _ & _ & _ & output & sts & _ & _ & T1 & T2 & T3 & Hc & _).
  unfold bind at 1. unfold Date_now at 1. unfold bind at 1.
  destruct (generateConsoleUrl cfg net federation origin (fst (c, a)) consoleUrl w1)
    as [[url'|e1] w2] eqn:Eg; [|discriminate].
  destruct (generateConsoleUrl_request _ _ _ _ _ _ _ _ _ Eg) as (Hst2 & target & Hrq2).
  unfold ret. intros H. inversion H; subst. simpl.
  eexists. rewrite Hrq2, Hrq, <- app_assoc. simpl.
  split; [reflexivity|]. split; [reflexivity|]. split; [exact Hd|].
  repeat split; auto. congruence.
Qed.

Lemma assumeRoleAndOpenConsole_requests_witness :
  exists info url w',
    assumeRoleAndOpenConsole (new_AWSService no_config) (Demo.idp None true) Demo.signin
      "https://app.example" Demo.my_role Demo.octocat "eyJhbGciOi.e30.sig" None Demo.start
    = (Ok (info, url), w') /\
    info_sessionName info = "github-octocat-2026-11-02T05-28-00"%string /\
    length (requests w') = 2%nat.
Proof.
  do 3 eexists. split; [vm_compute; reflexivity|]. split; [reflexivity|].
  destruct (assumeRoleAndOpenConsole_requests (new_AWSService no_config)
              (Demo.idp None true) Demo.signin "https://app.example" Demo.my_role
              Demo.octocat "eyJhbGciOi.e30.sig" None Demo.start _ _ _
              ltac:(vm_compute; reflexivity)) as (federationUrl & Hrq & _).
  reflexivity.
Defined.

(* --------------------------------------------------------------------- *)
(** *** roleArnStorage: the history as a bounded move-to-front list *)

Lemma findIndex_entry a l :
  match findIndex a l with
  | Some i => l !! i
  | None => None
  end = entry_of a l.
Proof.
  unfold entry_of. induction l as [|r l IH]; simpl; [reflexivity|].
  destruct (bool_decide (arn r = a)); simpl; [reflexivity|].
  rewrite <- IH. destruct (findIndex a l); reflexivity.
Qed.

Lemma without_arn_absent a l : ~ In a (map arn l) -> without_arn a l = l.
Proof.
  unfold without_arn. induction l as [|r l IH]; simpl; [reflexivity|].
  intros H. destruct (bool_decide_reflect (arn r = a)) as [E|E]; simpl.
  - exfalso. apply H. now left.
  - rewrite IH; [reflexivity|]. intros Hin. apply H. now right.
Qed.

Lemma findIndex_without a l :
  unique_arns l ->
  match findIndex a l with
  | Some i => take i l ++ drop (S i) l
  | None => l
  end = without_arn a l.
Proof.
  unfold unique_arns. induction l as [|r l IH]; simpl; [reflexivity|].
  intros Hu. apply NoDup_cons in Hu as [Hr Hu].
  unfold without_arn. simpl.
  destruct (bool_decide_reflect (arn r = a)) as [E|E]; simpl.
  - subst a. symmetry. apply without_arn_absent.
    intros Hin. apply Hr. now apply list_elem_of_In.
  - specialize (IH Hu). fold (without_arn a l). rewrite <- IH.
    destruct (findIndex a l); reflexivity.
Qed.

Lemma trim_to_take n l : 0 <= n -> trim_to n l = take (Z.to_nat n) l.
Proof.
  intros Hn. unfold trim_to, slice0.
  destruct (Z.ltb_spec n 0); [lia|].
  destruct (Z.gtb_spec (Z.of_nat (length l)) n); [reflexivity|].
  symmetry. apply take_ge. lia.
Qed.

Lemma without_arn_has a l : has_arn a (without_arn a l) = false.
Proof.
  apply has_arn_false. unfold without_arn. intros Hin.
  apply in_map_iff in Hin as (r & Hr & Hin).
  apply filter_In in Hin as [_ Hne].
  rewrite bool_decide_eq_true_2 in Hne by assumption. discriminate.
Qed.

Lemma without_arn_unique a l : unique_arns l -> unique_arns (without_arn a l).
Proof.
  unfold unique_arns, without_arn. induction l as [|r l IH]; simpl; [auto|].
  intros Hu. apply NoDup_cons in Hu as [Hr Hu].
  destruct (negb (bool_decide (arn r = a))); simpl; [|auto].
  apply NoDup_cons. split; [|auto].
  intros Hin. apply Hr. apply list_elem_of_In. apply list_elem_of_In in Hin.
  apply in_map_iff in Hin as (r' & Hr' & Hin). apply filter_In in Hin as [Hin _].
  apply in_map_iff. eauto.
Qed.

(** What [addRoleArn] stores: the entry of the ARN, new or updated, in
    front of the other entries, cut to [maxItems]. *)
Lemma addRoleArn_shape this a w :
  isValidRoleArn (trim a) = true ->
  unique_arns (stored_roles w) ->
  0 <= svc_maxItems this ->
  exists w' entry,
    addRoleArn this a w = (Ok tt, w') /\
    clock w' = clock w /\ requests w' = requests w /\
    stored_roles w' =
      take (Z.to_nat (svc_maxItems this))
        (entry :: without_arn (trim a) (stored_roles w)) /\
    arn entry = trim a /\ lastUsed entry = clock w /\
    match entry_of (trim a) (stored_roles w) with
    | Some old =>
        useCount entry = useCount old + 1 /\ role_name entry = role_name old /\
        accountId entry = accountId old
    | None =>
        useCount entry = 1 /\ role_name entry = extractRoleName (trim a) /\
        accountId entry = extractAccountId (trim a)
    end.
Proof.
  intros Hok Hu Hmax.
  destruct (addRoleArn_valid this a w Hok) as (w' & Hrun & Hc & Hr & Hroles).
  pose proof (findIndex_entry (trim a) (stored_roles w)) as Hentry.
  pose proof (findIndex_without (trim a) (stored_roles w) Hu) as Hwithout.
  rewrite trim_to_take in Hroles by assumption.
  destruct (findIndex (trim a) (stored_roles w)) as [i|] eqn:Ei.
  - destruct (stored_roles w !! i) as [old|] eqn:Eold.
    + exists w'. eexists. split; [exact Hrun|]. split; [exact Hc|]. split; [exact Hr|].
      split; [rewrite Hroles, Hwithout; reflexivity|].
      rewrite <- Hentry. simpl. repeat split.
      unfold entry_of in Hentry. symmetry in Hentry. apply find_some in Hentry as [_ He].
      now apply bool_decide_eq_true in He.
    + exfalso. clear - Ei Eold.
      revert i Ei Eold. induction (stored_roles w) as [|r l IH]; intros i; simpl;
        [discriminate|].
      destruct (bool_decide (arn r = trim a)); [intros [= <-]; discriminate|].
      destruct (findIndex (trim a) l) as [j|] eqn:Ej; simpl; [|discriminate].
      intros [= <-]. simpl. eauto.
  - exists w'. eexists. split; [exact Hrun|]. split; [exact Hc|]. split; [exact Hr|].
    split; [rewrite Hroles, <- Hwithout; reflexivity|].
    rewrite <- Hentry. simpl. repeat split.
Qed.

(** X22. [addRoleArn] keeps the history well formed: when no ARN occurs
    twice before the call, none occurs twice after it, and the history is
    no longer than [maxItems] (for [maxItems >= 0]), whatever its length
    was before. *)
Theorem addRoleArn_keeps_unique_bounded
        (this : RoleArnStorageService) (a : string) (w w' : World) :
  addRoleArn this a w = (Ok tt, w') ->
  unique_arns (stored_roles w) ->
  0 <= svc_maxItems this ->
  unique_arns (stored_roles w') /\
  Z.of_nat (length (stored_roles w')) <= svc_maxItems this.
Proof.
  intros Hrun Hu Hmax.
  destruct (isValidRoleArn (trim a)) eqn:Hok.
  - destruct (addRoleArn_shape this a w Hok Hu Hmax)
      as (w1 & entry & Hrun' & _ & _ & Hroles & Harn & _).
    rewrite Hrun in Hrun'. inversion Hrun'; subst w1. rewrite Hroles.
    split.
    + unfold unique_arns. rewrite <- firstn_map.
      eapply sublist_NoDup; [|apply sublist_take].
      simpl. apply NoDup_cons. split; [|now apply without_arn_unique].
      rewrite Harn. intros Hin. apply list_elem_of_In in Hin.
      pose proof (without_arn_has (trim a) (stored_roles w)) as Hno.
      apply has_arn_false in Hno. contradiction.
    + rewrite length_take. lia.
  - destruct (addRoleArn_invalid this a w Hok) as (e & He).
    rewrite Hrun in He. discriminate.
Qed.

Lemma addRoleArn_keeps_unique_bounded_witness :
  unique_arns (stored_roles (snd (addRoleArn roleArnStorage Demo.my_role Demo.start))) /\
  Z.of_nat (length (stored_roles (snd (addRoleArn roleArnStorage Demo.my_role Demo.start))))
  <= 10.
Proof.
  apply (addRoleArn_keeps_unique_bounded roleArnStorage Demo.my_role Demo.start).
  - reflexivity.
  - apply NoDup_nil_2.
  - vm_compute. discriminate.
Defined.

(** X23. [addRoleArn] moves the role to the front. With a history
    without repeated ARNs and [maxItems >= 1], the stored history after
    [addRoleArn(a)] is the entry of the trimmed ARN followed by the other
    entries in their former order, cut to [maxItems] (so a new role pushes
    out the last entry of a full history). The entry is stamped with the
    current time; an existing entry keeps its name and account and counts
    one more use, a new one counts 1. [hasRoleArn] and [getRoleByArn] then
    find it. *)
Theorem addRoleArn_moves_to_front
        (this : RoleArnStorageService) (a : string) (w : World) :
  isValidRoleArn (trim a) = true ->
  unique_arns (stored_roles w) ->
  1 <= svc_maxItems this ->
  exists w' entry,
    addRoleArn this a w = (Ok tt, w') /\
    stored_roles w' =
      entry :: take (Z.to_nat (svc_maxItems this - 1))
                 (without_arn (trim a) (stored_roles w)) /\
    arn entry = trim a /\ lastUsed entry = clock w /\
    match entry_of (trim a) (stored_roles w) with
    | Some old =>
        useCount entry = useCount old + 1 /\ role_name entry = role_name old /\
        accountId entry = accountId old
    | None =>
        useCount entry = 1 /\ role_name entry = extractRoleName (trim a) /\
        accountId entry = extractAccountId (trim a)
    end /\
    hasRoleArn this a w' = (Ok true, w') /\
    getRoleByArn this a w' = (Ok (Some entry), w').
Proof.
  intros Hok Hu Hmax.
  destruct (addRoleArn_shape this a w Hok Hu) as
    (w' & entry & Hrun & _ & _ & Hroles & Harn & Hused & Hentry); [lia|].
  exists w', entry. split; [exact Hrun|].
  assert (stored_roles w' =
          entry :: take (Z.to_nat (svc_maxItems this - 1))
                     (without_arn (trim a) (stored_roles w))) as Hcons.
  { rewrite Hroles. replace (Z.to_nat (svc_maxItems this))
      with (S (Z.to_nat (svc_maxItems this - 1))) by lia. reflexivity. }
  split; [exact Hcons|]. split; [exact Harn|]. split; [exact Hused|].
  split; [exact Hentry|].
  unfold hasRoleArn, getRoleByArn. rewrite (valid_trim_truthy a Hok). simpl.
  unfold bind. rewrite getHistory_eq. unfold ret. simpl. rewrite Hcons. simpl.
  rewrite bool_decide_eq_true_2 by assumption. split; reflexivity.
Qed.

Lemma addRoleArn_moves_to_front_witness :
  exists w' entry,
    addRoleArn roleArnStorage Demo.my_role Demo.start = (Ok tt, w') /\
    stored_roles w' = [entry] /\ useCount entry = 1 /\
    role_name entry = "MyRole"%string /\ accountId entry = "123456789012"%string.
Proof.
  destruct (addRoleArn_moves_to_front roleArnStorage Demo.my_role Demo.start)
    as (w' & entry & H1 & H2 & _ & _ & H3 & _);
    [reflexivity | apply NoDup_nil_2 | vm_compute; discriminate |].
  exists w', entry. simpl in H3. destruct H3 as (H3 & H4 & H5).
  repeat split; assumption.
Defined.

Lemma filter_length_same {A} (p : A -> bool) l :
  length (List.filter p l) = length l -> List.filter p l = l.
Proof.
  induction l as [|x l IH]; simpl; [reflexivity|].
  destruct (p x); simpl; intros H.
  - f_equal. apply IH. lia.
  - pose proof (List.filter_length_le p l). lia.
Qed.

(** X24. [removeRoleArn] removes the entries of the trimmed ARN and keeps
    the others in their order; afterwards [hasRoleArn] answers [false] for
    it. When the ARN is not in the history nothing is written: the world is
    left exactly as it was. *)
Theorem removeRoleArn_removes (this : RoleArnStorageService) (a : string) (w : World) :
  a <> EmptyString ->
  exists w',
    removeRoleArn this a w = (Ok tt, w') /\
    stored_roles w' = without_arn (trim a) (stored_roles w) /\
    hasRoleArn this a w' = (Ok false, w') /\
    (has_arn (trim a) (stored_roles w) = false -> w' = w) /\
    clock w' = clock w /\ requests w' = requests w.
Proof.
  intros Ha. assert (truthy a = true) as Ht by (destruct a; [contradiction|reflexivity]).
  unfold removeRoleArn, hasRoleArn. rewrite Ht. simpl.
  unfold bind. rewrite getHistory_eq. simpl. fold (without_arn (trim a) (stored_roles w)).
  destruct (Nat.eqb_spec (length (without_arn (trim a) (stored_roles w)))
              (length (stored_roles w))) as [Hlen|Hlen]; simpl.
  - apply filter_length_same in Hlen. fold (without_arn (trim a) (stored_roles w)) in Hlen.
    unfold ret. exists w. split; [reflexivity|]. split; [congruence|].
    rewrite getHistory_eq. simpl. rewrite <- Hlen, without_arn_has. repeat split.
  - unfold saveHistory. unfold_monad. simpl. eexists. split; [reflexivity|].
    split; [reflexivity|].
    unfold getHistory. unfold_monad. simpl.
    rewrite without_arn_has. repeat split.
    intros Hno. exfalso. apply Hlen. f_equal.
    apply without_arn_absent. now apply has_arn_false.
Qed.

Lemma removeRoleArn_removes_witness :
  exists w',
    removeRoleArn roleArnStorage Demo.my_role Demo.with_my_role = (Ok tt, w') /\
    stored_roles w' = [].
Proof.
  destruct (removeRoleArn_removes roleArnStorage Demo.my_role Demo.with_my_role)
    as (w' & H1 & H2 & _); [discriminate|].
  exists w'. split; [exact H1|]. rewrite H2. reflexivity.
Defined.

Lemma sort_by_lastUsed_head l h t :
  sort_by_lastUsed l = h :: t ->
  In h l /\ forall r, In r l -> lastUsed r <= lastUsed h.
Proof.
  intros Hs.
  pose proof (sort_by_lastUsed_perm l) as Hp.
  pose proof (sort_by_lastUsed_sorted l) as Hsorted.
  rewrite Hs in Hp, Hsorted. split.
  - eapply Permutation_in; [exact Hp|]. now left.
  - intros r Hr. apply (Permutation_in _ (Permutation_sym Hp)) in Hr.
    destruct Hr as [<-|Hr]; [lia|].
    inversion Hsorted as [|? ? _ Hall]; subst.
    rewrite List.Forall_forall in Hall. now apply Hall.
Qed.

(** X25. [getMostRecentRoleArn] returns [null] exactly on an empty
    history; otherwise it returns the ARN of a stored entry whose
    [lastUsed] is the greatest of the history, whatever the order in which
    the entries are stored. It does not change the store. *)
Theorem getMostRecentRoleArn_latest (this : RoleArnStorageService) (w : World) :
  exists answer,
    getMostRecentRoleArn this w = (Ok answer, w) /\
    match answer with
    | None => stored_roles w = []
    | Some a =>
        exists role,
          In role (stored_roles w) /\ arn role = a /\
          forall other, In other (stored_roles w) -> lastUsed other <= lastUsed role
    end.
Proof.
  unfold getMostRecentRoleArn, getRoleArns. unfold bind. rewrite getHistory_eq.
  unfold ret. simpl.
  destruct (sort_by_lastUsed (stored_roles w)) as [|h t] eqn:Hs.
  - exists None. split; [reflexivity|].
    pose proof (sort_by_lastUsed_perm (stored_roles w)) as Hp. rewrite Hs in Hp.
    now apply Permutation_nil.
  - exists (Some (arn h)). split; [reflexivity|].
    destruct (sort_by_lastUsed_head _ _ _ Hs) as [Hin Hmax].
    exists h. auto.
Qed.

(** X26. The role that was just used is the one offered first. When the
    clock has not gone back behind the stored [lastUsed] times, the answer
    of [getMostRecentRoleArn] after [addRoleArn(a)] is the trimmed ARN. *)
Theorem addRoleArn_then_most_recent
        (this : RoleArnStorageService) (a : string) (w : World) :
  isValidRoleArn (trim a) = true ->
  unique_arns (stored_roles w) ->
  1 <= svc_maxItems this ->
  (forall role, In role (stored_roles w) -> lastUsed role <= clock w) ->
  exists w',
    addRoleArn this a w = (Ok tt, w') /\
    getMostRecentRoleArn this w' = (Ok (Some (trim a)), w').
Proof.
  intros Hok Hu Hmax Hclock.
  destruct (addRoleArn_shape this a w Hok Hu) as
    (w' & entry & Hrun & _ & _ & Hroles & Harn & Hused & _); [lia|].
  exists w'. split; [exact Hrun|].
  unfold getMostRecentRoleArn, getRoleArns. unfold bind. rewrite getHistory_eq.
  unfold ret. simpl.
  replace (Z.to_nat (svc_maxItems this)) with (S (Z.to_nat (svc_maxItems this - 1)))
    in Hroles by lia.
  simpl in Hroles. rewrite Hroles. simpl.
  set (rest := sort_by_lastUsed _).
  assert (forall r, In r rest -> lastUsed r <= lastUsed entry) as Hle.
  { intros r Hr. subst rest.
    apply (Permutation_in _ (sort_by_lastUsed_perm _)) in Hr.
    apply In_take in Hr. apply filter_In in Hr as [Hr _].
    rewrite Hused. now apply Hclock. }
  destruct rest as [|y rest']; simpl; [now rewrite Harn|].
  replace (lastUsed y <=? lastUsed entry) with true
    by (symmetry; apply Z.leb_le, Hle; now left).
  now rewrite Harn.
Qed.

Lemma addRoleArn_then_most_recent_witness :
  exists w',
    addRoleArn roleArnStorage " arn:aws:iam::210987654321:role/Deploy" Demo.with_my_role
    = (Ok tt, w') /\
    getMostRecentRoleArn roleArnStorage w'
    = (Ok (Some "arn:aws:iam::210987654321:role/Deploy"%string), w').
Proof.
  apply (addRoleArn_then_most_recent roleArnStorage
           " arn:aws:iam::210987654321:role/Deploy" Demo.with_my_role).
  - reflexivity.
  - vm_compute. apply NoDup_cons. split; [apply not_elem_of_nil | apply NoDup_nil_2].
  - vm_compute. discriminate.
  - intros role [<-|[]]. vm_compute. discriminate.
Defined.

Lemma insert_sorted_perm compare x l : Permutation (insert_sorted compare x l) (x :: l).
Proof.
  induction l as [|y r IH]; simpl; [reflexivity|].
  destruct (compare x y <=? 0); [reflexivity|].
  rewrite IH. apply perm_swap.
Qed.

Lemma sort_with_perm compare l : Permutation (sort_with compare l) l.
Proof.
  induction l as [|x l IH]; simpl; [reflexivity|].
  rewrite insert_sorted_perm. now apply perm_skip.
Qed.

(** The first element of a list sorted by a comparison that orders by a
    key is a member with the greatest key. *)
Lemma sort_with_head compare (key : RoleArnHistoryItem -> Z) l :
  (forall a b, compare a b <= 0 <-> key b <= key a) ->
  l <> [] ->
  exists h, head (sort_with compare l) = Some h /\ In h l /\
            forall r, In r l -> key r <= key h.
Proof.
  intros Hcmp. induction l as [|x l IH]; [contradiction|]. intros _.
  simpl. destruct l as [|y l'].
  - simpl. exists x. split; [reflexivity|]. split; [now left|].
    intros r [<-|[]]. lia.
  - destruct IH as (h & Hh & Hin & Hmax); [discriminate|].
    destruct (sort_with compare (y :: l')) as [|h' t] eqn:Hs; [discriminate|].
    simpl in Hh. inversion Hh; subst h'. simpl.
    destruct (Z.leb_spec (compare x h) 0) as [Hle|Hgt].
    + exists x. split; [reflexivity|]. split; [now left|].
      apply Hcmp in Hle. intros r [<-|Hr]; [lia|].
      specialize (Hmax r Hr). lia.
    + exists h. split; [reflexivity|]. split; [now right|].
      intros r [<-|Hr]; [|now apply Hmax].
      destruct (Z.le_gt_cases (key h) (key x)) as [H|H]; [|lia].
      apply Hcmp in H. lia.
Qed.

(** X27. [getHistoryStats] on the stored history: [totalRoles] is its
    length; on an empty history the three roles are [null]; otherwise
    [mostUsedRole] is an entry with the greatest [useCount], [newestRole]
    one with the greatest [lastUsed] and [oldestRole] one with the least
    [lastUsed]. The store is not changed. *)
Theorem getHistoryStats_extremes (this : RoleArnStorageService) (w : World) :
  exists stats,
    getHistoryStats this w = (Ok stats, w) /\
    totalRoles stats = length (stored_roles w) /\
    match stored_roles w with
    | [] => mostUsedRole stats = None /\ oldestRole stats = None /\
            newestRole stats = None
    | _ :: _ =>
        exists most oldest newest,
          mostUsedRole stats = Some most /\ oldestRole stats = Some oldest /\
          newestRole stats = Some newest /\
          In most (stored_roles w) /\ In oldest (stored_roles w) /\
          In newest (stored_roles w) /\
          forall role, In role (stored_roles w) ->
            useCount role <= useCount most /\
            lastUsed oldest <= lastUsed role <= lastUsed newest
    end.
Proof.
  unfold getHistoryStats, getRoleArns. unfold bind. rewrite getHistory_eq.
  unfold ret. simpl.
  pose proof (sort_by_lastUsed_perm (stored_roles w)) as Hp.
  destruct (stored_roles w) as [|r0 l0] eqn:Hstored.
  - simpl. eexists. split; [reflexivity|]. simpl. auto.
  - set (stored := r0 :: l0) in *.
    destruct (sort_by_lastUsed stored) as [|h t] eqn:Hs.
    { apply Permutation_nil in Hp. discriminate. }
    simpl.
    assert (h :: t <> []) as Hne by discriminate.
    destruct (sort_with_head (fun a b => useCount b - useCount a) useCount (h :: t))
      as (most & Hmost & Hmin & Hmmax); [intros; lia | exact Hne |].
    destruct (sort_with_head (fun a b => lastUsed a - lastUsed b)
                (fun r => - lastUsed r) (h :: t))
      as (oldest & Hold & Hoin & Homax); [intros; lia | exact Hne |].
    destruct (sort_by_lastUsed_head _ _ _ Hs) as [Hnin Hnmax].
    eexists. split; [reflexivity|]. simpl.
    split; [exact (Permutation_length Hp)|].
    exists most, oldest, h. split; [exact Hmost|]. split; [exact Hold|].
    split; [reflexivity|].
    split; [exact (Permutation_in _ Hp Hmin)|].
    split; [exact (Permutation_in _ Hp Hoin)|].
    split; [exact Hnin|].
    intros role Hrole.
    assert (In role (h :: t)) as Hrole'
      by exact (Permutation_in _ (Permutation_sym Hp) Hrole).
    specialize (Hmmax _ Hrole'). specialize (Homax _ Hrole'). specialize (Hnmax _ Hrole).
    simpl in Homax. lia.
Qed.

Lemma strip_prefix_app p : forall s r, strip_prefix p s = Some r -> s = p +:+ r.
Proof.
  induction p as [|a p IH]; intros s r; simpl.
  - intros [= ->]. reflexivity.
  - destruct s as [|b s]; [discriminate|].
    destruct (Ascii.eqb_spec a b) as [->|]; [|discriminate].
    intros H. rewrite str_app_cons, (IH _ _ H). reflexivity.
Qed.

Lemma take_digits_app n : forall s ds rest,
  take_digits n s = Some (ds, rest) ->
  s = ds +:+ rest /\ String.length ds = n /\ str_all is_digit ds = true.
Proof.
  induction n as [|n IH]; intros s ds rest; simpl.
  - intros [= <- <-]. auto.
  - destruct s as [|c s]; [discriminate|].
    destruct (is_digit c) eqn:Hc; [|discriminate].
    destruct (take_digits n s) as [[ds' rest']|] eqn:E; [|discriminate].
    intros [= <- <-]. destruct (IH _ _ _ E) as (-> & Hl & Hd).
    rewrite str_app_cons. simpl. rewrite Hc, Hl, Hd. auto.
Qed.

Lemma match_arn_head_app s account name :
  match_arn_head s = Some (account, name) ->
  s = arn_prefix +:+ account +:+ arn_role +:+ name /\
  String.length account = 12%nat /\ str_all is_digit account = true.
Proof.
  unfold match_arn_head.
  destruct (strip_prefix arn_prefix s) as [r1|] eqn:E1; [|discriminate].
  destruct (take_digits 12 r1) as [[acc r2]|] eqn:E2; [|discriminate].
  destruct (strip_prefix arn_role r2) as [r3|] eqn:E3; [|discriminate].
  intros [= <- <-].
  apply strip_prefix_app in E1, E3. apply take_digits_app in E2 as (E2 & Hl & Hd).
  subst. auto.
Qed.

Lemma arn_match_here s account name :
  match_arn_head s = Some (account, name) ->
  truthy name = true ->
  str_all (fun c => negb (is_line_terminator c)) name = true ->
  arn_match s = Some (account, name).
Proof.
  intros H Ht Hl. destruct s; cbn [arn_match]; rewrite H, Ht, Hl; reflexivity.
Qed.

Lemma session_name_char_plain c :
  session_name_char c = true ->
  negb (is_line_terminator c) = true /\ negb (Ascii.eqb c "/") = true.
Proof.
  revert c.
  assert (forall c, implb (session_name_char c)
                      (negb (is_line_terminator c) && negb (Ascii.eqb c "/")) = true) as H.
  { apply forall_ascii. vm_compute. reflexivity. }
  intros c Hc. specialize (H c). rewrite Hc in H. simpl in H.
  now apply andb_true_iff in H.
Qed.

Lemma is_digit_no_slash c : is_digit c = true -> negb (Ascii.eqb c "/") = true.
Proof.
  revert c.
  assert (forall c, implb (is_digit c) (negb (Ascii.eqb c "/")) = true) as H.
  { apply forall_ascii. vm_compute. reflexivity. }
  intros c Hc. specialize (H c). now rewrite Hc in H.
Qed.

(** X28. A string that [isValidRoleArn] accepts is
    [arn:aws:iam::<account>:role/<name>], where the account that
    [extractAccountId] returns has twelve digits and the name that
    [extractRoleName] returns is non-empty and made of [A-Za-z0-9_+=,.@-];
    neither function answers ['Unknown'] on it, and
    [formatRoleArnForDisplay] shows it as [<name> (<account>)]. *)
Theorem valid_role_arn_parts (a : string) :
  isValidRoleArn a = true ->
  a = ("arn:aws:iam::" +:+ extractAccountId a +:+ ":role/" +:+ extractRoleName a)%string /\
  String.length (extractAccountId a) = 12%nat /\
  str_all is_digit (extractAccountId a) = true /\
  extractRoleName a <> EmptyString /\
  str_all session_name_char (extractRoleName a) = true /\
  formatRoleArnForDisplay a
  = (extractRoleName a +:+ " (" +:+ extractAccountId a +:+ ")")%string.
Proof.
  unfold isValidRoleArn, AWS_ROLE_ARN_PATTERN_test.
  destruct (match_arn_head a) as [[account name]|] eqn:Hm; [|discriminate].
  rewrite andb_true_iff. intros [Ht Hall].
  destruct (match_arn_head_app _ _ _ Hm) as (Ha & Hl & Hd).
  assert (arn_match a = Some (account, name)) as Harn.
  { apply arn_match_here; auto.
    eapply str_all_impl; [|exact Hall]. intros c Hc.
    now destruct (session_name_char_plain c Hc). }
  unfold extractAccountId, extractRoleName, formatRoleArnForDisplay. rewrite Harn.
  split; [exact Ha|]. split; [exact Hl|]. split; [exact Hd|].
  split; [intros E; rewrite E in Ht; discriminate|]. split; [exact Hall|].
  assert (split_on "/" a = [arn_prefix +:+ account +:+ ":role"; name]%string) as Hsplit.
  { assert (a = (arn_prefix +:+ account +:+ ":role") +:+ String "/" name)%string as Ha'.
    { rewrite Ha at 1. rewrite !str_app_assoc. reflexivity. }
    rewrite Ha' at 1. rewrite split_on_app, split_on_none; [reflexivity| |].
    - eapply str_all_impl; [|exact Hall]. intros c Hc.
      now destruct (session_name_char_plain c Hc).
    - rewrite !str_all_app. apply andb_true_iff. split; [reflexivity|].
      apply andb_true_iff. split; [|reflexivity].
      eapply str_all_impl; [|exact Hd]. apply is_digit_no_slash. }
  rewrite Hsplit. reflexivity.
Qed.

Lemma valid_role_arn_parts_witness :
  extractAccountId Demo.my_role = "123456789012"%string /\
  formatRoleArnForDisplay Demo.my_role = "MyRole (123456789012)"%string.
Proof.
  destruct (valid_role_arn_parts Demo.my_role) as (_ & _ & _ & _ & _ & H);
    [reflexivity|].
  split; [reflexivity|]. rewrite H. reflexivity.
Defined.

(* --------------------------------------------------------------------- *)
(** *** OpenConsoleButton: what the user is told *)

Import OpenConsoleButton.

Lemma getIdToken_some w token w1 :
  getIdToken w = (Ok (Some token), w1) -> truthy token = true.
Proof.
  unfold getIdToken, bind.
  destruct (getSession_spec w) as (r & w2 & -> & _).
  unfold ret. destruct r as [s|]; [|discriminate].
  unfold or_else. destruct (truthy_opt (idToken s)) eqn:E; [|discriminate].
  intros H. injection H as Hs _. rewrite Hs in E. exact E.
Qed.

Lemma generateSessionName_truthy githubUser w sessionName w1 :
  generateSessionName githubUser w = (Ok sessionName, w1) -> truthy sessionName = true.
Proof.
  unfold generateSessionName. unfold_monad. simpl.
  match goal with |- context [if ?c then _ else _] => destruct c end;
    intros H; inversion H; reflexivity.
Qed.

(** X29. The specific error texts of the console button are not reached
    through its own services. When STS refuses the role with an error that
    has a name and a message (for instance [AccessDenied]), the handler
    shows ["AWS Error: " + message], not the text written for that error
    code, because [assumeRoleAndOpenConsole] has replaced the code by
    [AWSError]. Exactly one request was sent, and the role ARN has already
    been recorded in the history although it could not be assumed. *)
Theorem handleRoleArnSelected_generic_message
        (cfg : AWSConfig) (net : Network)
        (federation : Request -> FetchResult AWSConsoleFederationResponse)
        (origin : string) (user : UserInfo) (roleArn idToken : string) (w : World)
        (error : JsError) :
  getIdToken w = (Ok (Some idToken), w) ->
  isValidRoleArn (trim roleArn) = true ->
  unique_arns (stored_roles w) ->
  MIN_DURATION_SECONDS <= defaultDurationSeconds cfg <= MAX_DURATION_SECONDS ->
  (forall rq, sts_send net rq = inl error) ->
  err_name error <> EmptyString -> message error <> EmptyString ->
  exists w',
    handleRoleArnSelected cfg net federation origin (Some user) roleArn w
    = (Ok (Failed ("AWS Error: " +:+ message error)), w') /\
    length (requests w') = S (length (requests w)) /\
    has_arn (trim roleArn) (stored_roles w') = true.
Proof.
  intros Hid Hok Hu Hd Hsts Hn Hm.
  assert (truthy (err_name error) = true) as Hn'
    by (destruct (err_name error); [contradiction|reflexivity]).
  assert (truthy (message error) = true) as Hm'
    by (destruct (message error); [contradiction|reflexivity]).
  destruct (addRoleArn_shape roleArnStorage roleArn w Hok Hu)
    as (w1 & entry & Hadd & _ & Hrq1 & Hroles & Harn & _); [vm_compute; discriminate|].
  destruct (generateSessionName_total user w1) as (sessionName & Hname).
  pose proof (generateSessionName_truthy _ _ _ _ Hname) as Hsn.
  destruct (assumeRoleWithWebIdentity_sts_error cfg net roleArn idToken sessionName None
              w1 error (valid_trim_truthy _ Hok) (getIdToken_some _ _ _ Hid) Hsn Hd
              (Hsts _) Hn' Hm') as (w2 & Hassume & Hrq2).
  exists w2. split; [|split].
  - unfold handleRoleArnSelected, try_catch. unfold bind at 1. rewrite Hid.
    unfold bind at 1. rewrite Hadd.
    unfold assumeRoleAndOpenConsole, try_catch. unfold bind at 1. unfold bind at 1.
    rewrite Hname. unfold bind at 1. rewrite Hassume.
    unfold throw, ret, createAWSError, errorMessage_of. simpl. rewrite Hm'. reflexivity.
  - rewrite Hrq2, length_app, Hrq1. simpl. lia.
  - assert (stored_roles w2 = stored_roles w1) as ->.
    { destruct (assumeRoleWithWebIdentity_outcome _ _ _ _ _ _ _ _ _ Hassume) as [Hst _].
      unfold stored_roles. now rewrite Hst. }
    rewrite Hroles. simpl. rewrite bool_decide_eq_true_2 by assumption. reflexivity.
Qed.

Lemma handleRoleArnSelected_generic_message_witness :
  exists w',
    handleRoleArnSelected (new_AWSService no_config) Demo.sts_denied Demo.signin
      "https://app.example" (Some Demo.octocat) Demo.my_role Demo.signed_in
    = (Ok (Failed "AWS Error: Not authorized to perform sts:AssumeRoleWithWebIdentity"),
       w') /\
    length (requests w') = 1%nat /\
    has_arn Demo.my_role (stored_roles w') = true.
Proof.
  apply (handleRoleArnSelected_generic_message (new_AWSService no_config) Demo.sts_denied
           Demo.signin "https://app.example" Demo.octocat Demo.my_role
           "eyJhbGciOi.e30.sig" Demo.signed_in
           {| err_name := "AccessDenied";
              message := "Not authorized to perform sts:AssumeRoleWithWebIdentity";
              code := None |}).
  - reflexivity.
  - reflexivity.
  - apply NoDup_nil_2.
  - vm_compute. split; discriminate.
  - reflexivity.
  - discriminate.
  - discriminate.
Defined.

(** X30. The handler never throws, and it checks before it calls AWS:
    without a user, without an ID token in the session, or with a role ARN
    that [addRoleArn] refuses, it reports the corresponding message and no
    request is sent; in the last case the history is not written either. *)
Theorem handleRoleArnSelected_checks_first
        (cfg : AWSConfig) (net : Network)
        (federation : Request -> FetchResult AWSConsoleFederationResponse)
        (origin : string) (user : option UserInfo) (roleArn : string) (w : World) :
  exists outcome w',
    handleRoleArnSelected cfg net federation origin user roleArn w = (Ok outcome, w') /\
    (user = None ->
     outcome = Failed "User not authenticated" /\ w' = w) /\
    (user <> None -> fst (getIdToken w) = Ok None ->
     outcome = Failed "No ID token available. Please re-authenticate." /\
     requests w' = requests w) /\
    (user <> None -> isValidRoleArn (trim roleArn) = false ->
     requests w' = requests w /\
     aws_role_arn_history (storage w') = aws_role_arn_history (storage w) /\
     (fst (getIdToken w) <> Ok None ->
      outcome = Failed (if truthy roleArn then "Invalid AWS IAM Role ARN format"
                        else "Role ARN must be a non-empty string"))).
Proof.
  unfold handleRoleArnSelected, try_catch.
  destruct user as [u|].
  2:{ unfold throw, ret. do 2 eexists. split; [reflexivity|].
      split; [auto|]. split; intros H; contradiction. }
  unfold bind at 1. unfold getIdToken at 1. unfold bind at 1.
  destruct (getSession_spec w) as (r & w1 & Hg & _ & Hrq & _ & _ & _ & Hhist & _).
  assert (getIdToken w = (Ok (match r with Some s => or_else (idToken s) None
                                           | None => None end), w1)) as Hid.
  { unfold getIdToken, bind. rewrite Hg. reflexivity. }
  rewrite Hg. unfold ret at 1. rewrite Hid. simpl.
  destruct (match r with Some s => or_else (idToken s) None | None => None end)
    as [idToken|] eqn:Etok.
  - unfold bind at 1.
    destruct (isValidRoleArn (trim roleArn)) eqn:Hvalid.
    + assert (exists outcome w',
                match
                  (let (r0, w') := addRoleArn roleArnStorage roleArn w1 in
                   match r0 with
                   | Ok a =>
                       (result <- assumeRoleAndOpenConsole cfg net federation origin
                                    roleArn u idToken None ;;
                        ret (Opened (snd result)))%js w'
                   | Throw e => (Throw e, w')
                   end)
                with
                | (Ok a, w') => (Ok a, w')
                | (Throw e, w') => ret (Failed (errorMessage_of e)) w'
                end = (Ok outcome, w')) as (outcome & w' & ->).
      { destruct (addRoleArn roleArnStorage roleArn w1) as [[[]|e] w2].
        - unfold bind.
          destruct (assumeRoleAndOpenConsole cfg net federation origin roleArn u idToken
                      None w2) as [[res|e] w3]; unfold ret; eauto.
        - unfold ret. eauto. }
      exists outcome, w'. split; [reflexivity|].
      split; [discriminate|]. split; [intros _ H; discriminate|].
      intros _ H. discriminate.
    + destruct (addRoleArn_invalid roleArnStorage roleArn w1 Hvalid) as (e & He).
      rewrite He. unfold ret. do 2 eexists. split; [reflexivity|].
      split; [discriminate|]. split; [intros _ H; discriminate|].
      intros _ _. split; [exact Hrq|]. split; [exact Hhist|]. intros _.
      unfold addRoleArn in He. destruct (truthy roleArn); simpl in He.
      * rewrite Hvalid in He. simpl in He. inversion He; subst. reflexivity.
      * inversion He; subst. reflexivity.
  - unfold throw, ret. do 2 eexists. split; [reflexivity|].
    split; [discriminate|]. split; [intros _ _; auto|].
    intros _ _. split; [exact Hrq|]. split; [exact Hhist|].
    intros H. contradiction.
Qed.
